(** * ipod-music: the browser-side playlist download controller

    A shallow embedding of the two variants of the page controller,
    [src/public/app.js] (sequential request/response downloads) and
    [src/static/app.js] (downloads reported over a server-push event
    stream), and the properties of their session state, view and transfer
    loop.

    Conventions of the embedding.
    - A JavaScript [Set] of identifiers is an insertion-ordered list without
      duplicates ([has], [add], [delete], [size], spread); its mathematical
      content is [JSSet.members], a [gset string].
    - A DOM element is a record of the properties the controller touches; the
      page is a function from the element references of the script to
      elements, plus the list of cards under [video-grid] and the format
      buttons.  Class lists are sets of class names.
    - A listener is a function on the state: the module-level variables, the
      page, and logs of the requests sent and of the other effects.  Network
      calls are resolved by an oracle argument of the listener that issues
      them.
    - A character of a string stands for one code unit; code units above 255
      are outside the model.  U+00A0 is the character of code 160.
    - A JavaScript Number is an IEEE 754 binary64 value, with the
      operations of the Standard Library's specification of floating-point
      arithmetic at precision 53 and maximal exponent 1024.
    - A card is looked up by the selector [[data-video-id=...]] with the
      identifier put between double quotes.  The lookup is described for
      the identifiers for which that selector is the test for the identifier
      itself ([selector_safe]); what is stated of the updates of a card is
      stated for such identifiers.
    - The decoded body of a response has the shape of the backend's contract
      (a title and a list of items with string identifiers and titles).

    The file has three parts: the program (helpers, page, the two variants),
    the data of the examples and the notions used to state properties
    (among them a reader of markup), and the properties. *)

From Stdlib Require Import String Ascii List ZArith Lia.
From Stdlib Require Floats.SpecFloat.
From stdpp Require Import base list gmap strings pretty.
Import ListNotations.

Local Open Scope string_scope.

(** ** JavaScript values and helpers *)

(** The double-quote character (code 34) and a double-quoted piece of markup. *)
Definition dquote : string := String "034"%char EmptyString.
Definition quoted (s : string) : string := dquote +:+ s +:+ dquote.

(** An optional property read from a JSON object: [None] is an absent (or
    null) property.  [truthy] is JavaScript truthiness of such a value, the
    empty string being falsy. *)
Definition truthy (o : option string) : bool :=
  match o with
  | Some s => negb (String.eqb s "")
  | None => false
  end.

(** [a || d] for an optional string [a] and a string [d]. *)
Definition js_or (o : option string) (d : string) : string :=
  match o with
  | Some s => if String.eqb s "" then d else s
  | None => d
  end.

(** [`${n}`] for a non-negative integer. *)
Definition show_nat (n : nat) : string := pretty n.

(** ** Numbers

    A Number is a binary64 value.  [number_of_nat] is the Number of a
    count (exact below [2 ^ 53]; the length of an array is below [2 ^ 32]),
    [number_div] and [number_mul] are [/] and [*]. *)
Definition number : Type := SpecFloat.spec_float.

Definition number_of_nat (n : nat) : number :=
  SpecFloat.binary_normalize 53 1024 (Z.of_nat n) 0 false.

Definition number_div : number → number → number := SpecFloat.SFdiv 53 1024.
Definition number_mul : number → number → number := SpecFloat.SFmul 53 1024.

(** The assignment [style.width = `${x}%`].  The text of [x] followed by a
    percent sign is a width when [x] is finite and not negative (the text of
    negative zero is [0]); the text of a negative number, of an infinity or
    of [NaN] gives no valid declaration and the assignment is dropped.
    [percent_value x] is the number of the width set, if one is set. *)
Definition percent_value (x : number) : option number :=
  match x with
  | SpecFloat.S754_zero _ => Some (SpecFloat.S754_zero false)
  | SpecFloat.S754_finite false _ _ => Some x
  | _ => None
  end.

(** The module variable [sessionId] of the push-stream variant: [null]
    initially and after New Playlist, otherwise whatever [data.session_id]
    was. *)
Inductive sessionIdVal :=
  | SidNull
  | SidUndefined
  | SidString (s : string).

Definition sid_truthy (v : sessionIdVal) : bool :=
  match v with
  | SidString s => negb (String.eqb s "")
  | _ => false
  end.

(** [`${sessionId}`] *)
Definition show_sid (v : sessionIdVal) : string :=
  match v with
  | SidNull => "null"
  | SidUndefined => "undefined"
  | SidString s => s
  end.

(** [arr.join(",")] *)
Fixpoint join_comma (l : list string) : string :=
  match l with
  | [] => ""
  | [x] => x
  | x :: rest => x +:+ "," +:+ join_comma rest
  end.

(** ** JavaScript [Set] of strings, in insertion order *)
Module JSSet.

Definition has (x : string) (s : list string) : bool := bool_decide (x ∈ s).

(** [s.add(x)]: appended at the end of the iteration order unless present. *)
Definition add (x : string) (s : list string) : list string :=
  if has x s then s else s ++ [x].

(** [s.delete(x)] *)
Definition delete (x : string) (s : list string) : list string :=
  filter (λ y, y ≠ x) s.

Definition size (s : list string) : nat := length s.

(** [s.clear()] and [new Set()] *)
Definition empty : list string := [].

(** [new Set(iterable)] *)
Definition of_list (l : list string) : list string :=
  foldl (λ s x, add x s) empty l.

(** The set of members. *)
Definition members (s : list string) : gset string := list_to_set s.

End JSSet.

(** ** Helpers of the script: [truncate], [escapeAttr], [escapeHtml] *)

(** [function truncate(str, maxLen)]: [!str] holds for an absent title and
    for the empty string. *)
Definition truncate (str : option string) (maxLen : nat) : string :=
  match str with
  | None => ""
  | Some s =>
      if String.eqb s "" then ""
      else if Nat.ltb maxLen (String.length s)
           then substring 0 maxLen s +:+ "..."
           else s
  end.

(** [text.replace(/c/g, r)] for a one-character pattern [c] and a
    replacement [r] without [$]. *)
Fixpoint replace_all (c : ascii) (r : string) (text : string) : string :=
  match text with
  | EmptyString => EmptyString
  | String a rest =>
      if Ascii.eqb a c then r +:+ replace_all c r rest
      else String a (replace_all c r rest)
  end.

(** [function escapeAttr(text)]: the five replacements, in the order of the
    source. *)
Definition escapeAttr (text : string) : string :=
  replace_all ">" "&gt;"
    (replace_all "<" "&lt;"
      (replace_all "'" "&#39;"
        (replace_all "034" "&quot;"
          (replace_all "&" "&amp;" text)))).

(** [function escapeHtml(text)] assigns [text] to the [textContent] of a
    detached [div] and reads its [innerHTML] back.  The browser serialises
    the single text node by the fragment serialisation algorithm of the HTML
    standard (escaping a string, not in attribute mode): [&], U+00A0, [<]
    and [>] are replaced, every other character, the two quote characters
    included, is copied. *)
Definition serialize_text_char (a : ascii) : string :=
  if Ascii.eqb a "&" then "&amp;"
  else if Ascii.eqb a "160" then "&nbsp;"
  else if Ascii.eqb a "<" then "&lt;"
  else if Ascii.eqb a ">" then "&gt;"
  else String a EmptyString.

Fixpoint escapeHtml (text : string) : string :=
  match text with
  | EmptyString => EmptyString
  | String a rest => serialize_text_char a +:+ escapeHtml rest
  end.

(** ** Items and the page *)

(** One entry of [data.videos] in the extraction response. *)
Record video := {
  video_id : string;
  title : string;
  url : string;
  thumbnail : option string;
  duration_str : option string;
  uploader : option string;
}.

(** [videos.find((v) => v.video_id === videoId)] *)
Definition find_video (videoId : string) (vs : list video) : option video :=
  List.find (λ v, String.eqb (video_id v) videoId) vs.

(** The element references taken by [document.getElementById] at the top of
    the script ([download-zip-btn], [zip-section] and [zip-subtitle] exist in
    the push-stream page only).  [video-grid] is the list of cards below. *)
Inductive elemId :=
  | urlInput | extractBtn | errorMsg
  | inputSection | loadingSection | resultsSection
  | playlistTitleEl | videoCountEl
  | selectAllBtn | downloadSelectedBtn
  | downloadBar | downloadStatus | overallProgress | overallProgressFill
  | downloadZipBtn | newPlaylistBtn | zipSection | zipSubtitle.

#[global] Instance elemId_eq_dec : EqDecision elemId.
Proof. solve_decision. Defined.

(** The properties of an element that the script reads or writes.
    [style_width] is the Number whose text stands in front of the percent
    sign of [style.width], none as long as no width was set. *)
Record element := {
  textContent : string;
  value : string;
  disabled : bool;
  classList : gset string;
  style_width : option number;
}.

Definition set_textContent (t : string) (e : element) : element :=
  {| textContent := t; value := value e; disabled := disabled e;
     classList := classList e; style_width := style_width e |}.

Definition set_value (v : string) (e : element) : element :=
  {| textContent := textContent e; value := v; disabled := disabled e;
     classList := classList e; style_width := style_width e |}.

Definition set_disabled (b : bool) (e : element) : element :=
  {| textContent := textContent e; value := value e; disabled := b;
     classList := classList e; style_width := style_width e |}.

Definition set_classList (c : gset string) (e : element) : element :=
  {| textContent := textContent e; value := value e; disabled := disabled e;
     classList := c; style_width := style_width e |}.

Definition set_style_width (x : number) (e : element) : element :=
  match percent_value x with
  | Some v =>
      {| textContent := textContent e; value := value e; disabled := disabled e;
         classList := classList e; style_width := Some v |}
  | None => e
  end.

(** [classList.add], [classList.remove], [classList.toggle(c, force)] and
    [classList.contains]. *)
Definition class_add (c : string) (e : element) : element :=
  set_classList (classList e ∪ {[ c ]}) e.

Definition class_remove (c : string) (e : element) : element :=
  set_classList (classList e ∖ {[ c ]}) e.

Definition class_toggle (c : string) (force : bool) (e : element) : element :=
  if force then class_add c e else class_remove c e.

Definition class_contains (c : string) (e : element) : bool :=
  bool_decide (c ∈ classList e).

(** A card of [video-grid]: its own class list and [data-video-id], the
    markup assigned to its [innerHTML], and the mutable parts of the three
    children the script queries: [.status-icon] (its [innerHTML]),
    [.progress-overlay .fill] (its [style.width], unset until the first
    update) and [.error-msg] (its [textContent]). *)
Record card := {
  dataset_videoId : string;
  card_classList : gset string;
  card_innerHTML : string;
  status_icon_innerHTML : string;
  fill_width : option number;
  error_msg_text : string;
}.

Definition set_card_classList (c : gset string) (k : card) : card :=
  {| dataset_videoId := dataset_videoId k; card_classList := c;
     card_innerHTML := card_innerHTML k;
     status_icon_innerHTML := status_icon_innerHTML k;
     fill_width := fill_width k; error_msg_text := error_msg_text k |}.

Definition set_status_icon (h : string) (k : card) : card :=
  {| dataset_videoId := dataset_videoId k; card_classList := card_classList k;
     card_innerHTML := card_innerHTML k;
     status_icon_innerHTML := h;
     fill_width := fill_width k; error_msg_text := error_msg_text k |}.

Definition set_fill_width (x : number) (k : card) : card :=
  match percent_value x with
  | Some v =>
      {| dataset_videoId := dataset_videoId k;
         card_classList := card_classList k;
         card_innerHTML := card_innerHTML k;
         status_icon_innerHTML := status_icon_innerHTML k;
         fill_width := Some v; error_msg_text := error_msg_text k |}
  | None => k
  end.

Definition set_error_msg (m : string) (k : card) : card :=
  {| dataset_videoId := dataset_videoId k; card_classList := card_classList k;
     card_innerHTML := card_innerHTML k;
     status_icon_innerHTML := status_icon_innerHTML k;
     fill_width := fill_width k; error_msg_text := m |}.

(** A button of class [format-btn]: [dataset.format] and whether it carries
    the class [active]. *)
Record formatBtn := {
  dataset_format : string;
  fmt_active : bool;
}.

Record dom := {
  el : elemId → element;
  cards : list card;
  formatBtns : list formatBtn;
}.

Definition with_el (i : elemId) (f : element → element) (d : dom) : dom :=
  {| el := λ j, if decide (j = i) then f (el d j) else el d j;
     cards := cards d; formatBtns := formatBtns d |}.

Definition set_cards (cs : list card) (d : dom) : dom :=
  {| el := el d; cards := cs; formatBtns := formatBtns d |}.

Definition set_formatBtns (bs : list formatBtn) (d : dom) : dom :=
  {| el := el d; cards := cards d; formatBtns := bs |}.

(** The characters that keep the text put between the double quotes of a
    selector from standing for itself: the double quote ends the string, the
    backslash starts an escape, a line feed, form feed or carriage return
    makes the string a bad string, and the null character is replaced when
    the selector is read. *)
Definition selector_special (a : ascii) : bool :=
  existsb (Ascii.eqb a) ["000"; "010"; "012"; "013"; "034"; "092"]%char.

(** Whether the selector built for [videoId], the identifier between
    [[data-video-id=] with a double quote and a double quote with []]], is
    the test that the attribute equals [videoId]. *)
Fixpoint selector_safe (videoId : string) : bool :=
  match videoId with
  | EmptyString => true
  | String a rest => negb (selector_special a) && selector_safe rest
  end.

(** [document.querySelector(`[data-video-id=...]`)] followed by an update of
    the element found, for an identifier that is [selector_safe]: the first
    card in document order with that identifier, nothing when there is
    none.  For another identifier the selector is not the test for that
    identifier (depending on the identifier, [querySelector] throws a
    [SyntaxError] or looks for another value), and this function does not
    describe the script: the properties of the updates of a card are stated
    for identifiers that are [selector_safe]. *)
Fixpoint with_card (videoId : string) (f : card → card) (cs : list card)
  : list card :=
  match cs with
  | [] => []
  | k :: rest =>
      if String.eqb (dataset_videoId k) videoId then f k :: rest
      else k :: with_card videoId f rest
  end.

(** [function showSection(name)] *)
Definition showSection (name : string) (d : dom) : dom :=
  let d := with_el inputSection
             (class_toggle "hidden" (negb (String.eqb name "input"))) d in
  let d := with_el loadingSection
             (class_toggle "hidden" (negb (String.eqb name "loading"))) d in
  with_el resultsSection
    (class_toggle "hidden" (negb (String.eqb name "results"))) d.

(** [function showError(msg)] *)
Definition showError (msg : string) (d : dom) : dom :=
  let d := with_el errorMsg (set_textContent msg) d in
  with_el errorMsg (class_remove "hidden") d.

(** [function hideError()] *)
Definition hideError (d : dom) : dom :=
  with_el errorMsg (class_add "hidden") d.

(** [function updateCardProgress(videoId, percent)] *)
Definition updateCardProgress (videoId : string) (percent : number) (d : dom)
  : dom :=
  set_cards (with_card videoId (set_fill_width percent) (cards d)) d.

(** [function updateCardState(videoId, state, iconHtml)]: the three status
    classes are removed, [state] is added, and the icon is replaced when
    [iconHtml] is a non-empty string. *)
Definition updateCardState (videoId state iconHtml : string) (d : dom) : dom :=
  set_cards
    (with_card videoId
       (λ k,
          let k := set_card_classList
                     (card_classList k ∖ {[ "downloading"; "complete"; "error" ]}) k in
          let k := set_card_classList (card_classList k ∪ {[ state ]}) k in
          if String.eqb iconHtml "" then k else set_status_icon iconHtml k)
       (cards d)) d.

(** [function setCardError(videoId, message)] *)
Definition setCardError (videoId message : string) (d : dom) : dom :=
  set_cards (with_card videoId (set_error_msg message) (cards d)) d.

(** The markup assigned to [card.innerHTML] in [renderVideoGrid], identical
    in the two variants. *)
Definition card_markup (v : video) : string :=
  let thumbUrl :=
    js_or (thumbnail v)
          ("https://i.ytimg.com/vi/" +:+ video_id v +:+ "/hqdefault.jpg") in
  "
      <div class=" +:+ quoted "thumbnail-wrap" +:+ ">
        <img class=" +:+ quoted "thumbnail" +:+ "
             src=" +:+ quoted (escapeAttr thumbUrl) +:+ "
             alt=" +:+ quoted (escapeAttr (title v)) +:+ "
             loading=" +:+ quoted "lazy" +:+ "
             onerror=" +:+ quoted "this.style.display='none'" +:+ ">
        " +:+ (if truthy (duration_str v)
               then "<span class=" +:+ quoted "duration-badge" +:+ ">"
                    +:+ escapeHtml (default "" (duration_str v)) +:+ "</span>"
               else "") +:+ "
        <div class=" +:+ quoted "check-circle" +:+ ">&#10003;</div>
        <div class=" +:+ quoted "status-icon" +:+ "></div>
      </div>
      <div class=" +:+ quoted "info" +:+ ">
        <div class=" +:+ quoted "title" +:+ ">" +:+ escapeHtml (title v) +:+ "</div>
        <div class=" +:+ quoted "meta" +:+ ">"
          +:+ (if truthy (uploader v) then escapeHtml (default "" (uploader v)) else "")
          +:+ "</div>
      </div>
      <div class=" +:+ quoted "progress-overlay" +:+ "><div class="
          +:+ quoted "fill" +:+ "></div></div>
      <div class=" +:+ quoted "error-msg" +:+ "></div>
    ".

(** The card built for one item by the body of [videos.forEach] in
    [renderVideoGrid]. *)
Definition new_card (v : video) : card :=
  {| dataset_videoId := video_id v;
     card_classList := {[ "video-card"; "selected" ]};
     card_innerHTML := card_markup v;
     status_icon_innerHTML := "";
     fill_width := None;
     error_msg_text := "" |}.

(** A request handed to [fetch] (or the URL given to [EventSource]), with
    the fields of the JSON body. *)
Record request := {
  req_method : string;
  req_url : string;
  req_body : list (string * string);
}.

(** ** Responses of the backend *)

(** The result of [await res.json()]: a parse failure throws an error with
    some message. *)
Inductive jsonResult (A : Type) :=
  | ParseError (msg : string)
  | Parsed (a : A).
Arguments ParseError {A} msg.
Arguments Parsed {A} a.

(** The decoded body of a successful extraction ([session_id] is sent by the
    backend of the push-stream variant only). *)
Record extractData := {
  data_session_id : sessionIdVal;
  data_title : string;
  data_videos : list video;
}.

(** What [fetch("/api/extract", ...)] and the reads of its body can do:
    the request itself fails, the response is not ok and its body is read for
    [detail], or the response is ok and its body is read. *)
Inductive extractOutcome :=
  | ExtractRejected (msg : string)
  | ExtractNotOk (err : jsonResult (option string))
  | ExtractOk (body : jsonResult extractData).

(** Whether the body of a successful response was decoded. *)
Definition extract_decoded (o : extractOutcome) : bool :=
  match o with
  | ExtractOk (Parsed _) => true
  | _ => false
  end.

(** What one [fetch("/api/download", ...)] of the sequential variant can do:
    [fetch] or [res.blob()] rejects; the response is not ok and [detail] is
    the truthy [err.detail] if its body parses; the response is ok, with its
    [Content-Disposition] header. *)
Inductive downloadOutcome :=
  | DlRejected (msg : string)
  | DlNotOk (detail : option string)
  | DlOk (contentDisposition : option string).

Definition download_ok (o : downloadOutcome) : bool :=
  match o with
  | DlOk _ => true
  | _ => false
  end.

(** [String.prototype.trim] on the white space of the model's alphabet. *)
Definition is_space (a : ascii) : bool :=
  let n := nat_of_ascii a in
  (Nat.leb 9 n && Nat.leb n 13) || Nat.eqb n 32 || Nat.eqb n 160.

Fixpoint trim_start (s : string) : string :=
  match s with
  | EmptyString => EmptyString
  | String a rest => if is_space a then trim_start rest else s
  end.

Fixpoint trim_end (s : string) : string :=
  match s with
  | EmptyString => EmptyString
  | String a rest =>
      match trim_end rest with
      | EmptyString => if is_space a then EmptyString else String a EmptyString
      | t => String a t
      end
  end.

Definition trim (s : string) : string := trim_end (trim_start s).

(** [`${n} video${n !== 1 ? "s" : ""}`] *)
Definition video_count_text (n : nat) : string :=
  show_nat n +:+ " video" +:+ (if Nat.eqb n 1 then "" else "s").

(** The quotient [n / total] and the aggregate progress
    [((completed + errors) / total) * 100] written to the width of the
    progress fill, as the script computes them: a division and a
    multiplication of Numbers. *)
Definition fraction (n total : nat) : number :=
  number_div (number_of_nat n) (number_of_nat total).

Definition progress_percent (completed errors total : nat) : number :=
  number_mul (fraction (completed + errors) total) (number_of_nat 100).

(** The summary set on [download-status] at the end of a run, and whether
    the class [complete] is added to the progress fill. *)
Definition summary_text (completedCount errorCount : nat) : string :=
  if Nat.eqb errorCount 0 then
    "All " +:+ show_nat completedCount +:+ " downloads complete!"
  else if Nat.eqb completedCount 0 then
    "All " +:+ show_nat errorCount +:+ " downloads failed"
  else
    show_nat completedCount +:+ " downloaded, " +:+ show_nat errorCount +:+ " failed".

Definition summary_marks_complete (completedCount errorCount : nat) : bool :=
  Nat.eqb errorCount 0 || negb (Nat.eqb completedCount 0).

(** The running tallies of one download run ([let completedCount],
    [let errorCount]). *)
Record tally := {
  completedCount : nat;
  errorCount : nat;
}.

Definition tally0 : tally := {| completedCount := 0; errorCount := 0 |}.

(** The click on a format button: [active] moves to the button clicked; the
    caller stores its [dataset.format]. *)
Definition activate_format (i : nat) (bs : list formatBtn) : list formatBtn :=
  imap (λ j b, {| dataset_format := dataset_format b;
                  fmt_active := bool_decide (j = i) |}) bs.

(** * The sequential variant, [src/public/app.js] *)
Module Public.

(** The module-level variables. *)
Record vars := {
  videos : list video;
  selectedIds : list string;
  downloadedIds : list string;
  errorIds : list string;
  allSelected : bool;
  selectedFormat : string;
  isDownloading : bool;
}.

(** The variables, the page, the requests issued so far and the identifiers
    of the items handed to the browser as file downloads (the choice of the
    file name is not modelled). *)
Record world := {
  st : vars;
  page : dom;
  fetches : list request;
  saved : list string;
}.

Definition set_videos (x : list video) (s : vars) : vars :=
  {| videos := x; selectedIds := selectedIds s; downloadedIds := downloadedIds s;
     errorIds := errorIds s; allSelected := allSelected s;
     selectedFormat := selectedFormat s; isDownloading := isDownloading s |}.

Definition set_selectedIds (x : list string) (s : vars) : vars :=
  {| videos := videos s; selectedIds := x; downloadedIds := downloadedIds s;
     errorIds := errorIds s; allSelected := allSelected s;
     selectedFormat := selectedFormat s; isDownloading := isDownloading s |}.

Definition set_downloadedIds (x : list string) (s : vars) : vars :=
  {| videos := videos s; selectedIds := selectedIds s; downloadedIds := x;
     errorIds := errorIds s; allSelected := allSelected s;
     selectedFormat := selectedFormat s; isDownloading := isDownloading s |}.

Definition set_errorIds (x : list string) (s : vars) : vars :=
  {| videos := videos s; selectedIds := selectedIds s; downloadedIds := downloadedIds s;
     errorIds := x; allSelected := allSelected s;
     selectedFormat := selectedFormat s; isDownloading := isDownloading s |}.

Definition set_allSelected (x : bool) (s : vars) : vars :=
  {| videos := videos s; selectedIds := selectedIds s; downloadedIds := downloadedIds s;
     errorIds := errorIds s; allSelected := x;
     selectedFormat := selectedFormat s; isDownloading := isDownloading s |}.

Definition set_selectedFormat (x : string) (s : vars) : vars :=
  {| videos := videos s; selectedIds := selectedIds s; downloadedIds := downloadedIds s;
     errorIds := errorIds s; allSelected := allSelected s;
     selectedFormat := x; isDownloading := isDownloading s |}.

Definition set_isDownloading (x : bool) (s : vars) : vars :=
  {| videos := videos s; selectedIds := selectedIds s; downloadedIds := downloadedIds s;
     errorIds := errorIds s; allSelected := allSelected s;
     selectedFormat := selectedFormat s; isDownloading := x |}.

Definition on_st (f : vars → vars) (w : world) : world :=
  {| st := f (st w); page := page w; fetches := fetches w; saved := saved w |}.

Definition on_page (f : dom → dom) (w : world) : world :=
  {| st := st w; page := f (page w); fetches := fetches w; saved := saved w |}.

Definition send (r : request) (w : world) : world :=
  {| st := st w; page := page w; fetches := fetches w ++ [r]; saved := saved w |}.

Definition save_file (videoId : string) (w : world) : world :=
  {| st := st w; page := page w; fetches := fetches w; saved := saved w ++ [videoId] |}.

(** The state when the script has run: the initial values of the
    variables, over whatever page [d] the document provides. *)
Definition init (d : dom) : world :=
  {| st := {| videos := []; selectedIds := JSSet.empty;
              downloadedIds := JSSet.empty; errorIds := JSSet.empty;
              allSelected := true; selectedFormat := "mp3";
              isDownloading := false |};
     page := d; fetches := []; saved := [] |}.

(** [function updateSelectionUI()] *)
Definition updateSelectionUI (w : world) : world :=
  let w := on_page (with_el selectAllBtn
             (set_textContent
                (if allSelected (st w) then "Deselect All" else "Select All"))) w in
  let w := on_page (with_el downloadSelectedBtn
             (set_textContent
                ("Download Selected (" +:+
                 show_nat (JSSet.size (selectedIds (st w))) +:+ ")"))) w in
  on_page (with_el downloadSelectedBtn
             (set_disabled
                (Nat.eqb (JSSet.size (selectedIds (st w))) 0
                 || isDownloading (st w)))) w.

(** [function renderVideoGrid()] *)
Definition renderVideoGrid (w : world) : world :=
  let w := on_page (set_cards []) w in
  let w := on_page (set_cards (map new_card (videos (st w)))) w in
  updateSelectionUI w.

(** [async function extractPlaylist()], with the outcome of its one
    request. *)
Definition extractPlaylist (outcome : extractOutcome) (w : world) : world :=
  let url := trim (value (el (page w) urlInput)) in
  if String.eqb url "" then
    on_page (showError "Please enter a URL") w
  else if negb (String.prefix "http" url) then
    on_page (showError
      "Please enter a valid URL starting with http:// or https://") w
  else
    let w := on_page hideError w in
    let w := on_page (with_el extractBtn (set_disabled true)) w in
    let w := on_page (showSection "loading") w in
    let w := send {| req_method := "POST"; req_url := "/api/extract";
                     req_body := [("url", url)] |} w in
    let catch (message : string) (w : world) : world :=
      let w := on_page (showSection "input") w in
      on_page (showError message) w in
    let w :=
      match outcome with
      | ExtractRejected msg => catch msg w
      | ExtractNotOk (ParseError msg) => catch msg w
      | ExtractNotOk (Parsed detail) =>
          catch (js_or detail "Extraction failed") w
      | ExtractOk (ParseError msg) => catch msg w
      | ExtractOk (Parsed data) =>
          let w := on_st (set_videos (data_videos data)) w in
          let w := on_st (set_selectedIds
                     (JSSet.of_list (map video_id (videos (st w))))) w in
          let w := on_st (set_downloadedIds JSSet.empty) w in
          let w := on_st (set_errorIds JSSet.empty) w in
          let w := on_st (set_allSelected true) w in
          let w := on_page (with_el playlistTitleEl
                     (set_textContent (data_title data))) w in
          let w := on_page (with_el videoCountEl
                     (set_textContent
                        (video_count_text (length (videos (st w)))))) w in
          let w := renderVideoGrid w in
          on_page (showSection "results") w
      end in
    on_page (with_el extractBtn (set_disabled false)) w.

(** [function toggleSelection(videoId, card)]; the card is the [i]-th
    child of the grid. *)
Definition toggleSelection (videoId : string) (i : nat) (w : world) : world :=
  let w :=
    if JSSet.has videoId (selectedIds (st w)) then
      let w := on_st (set_selectedIds
                 (JSSet.delete videoId (selectedIds (st w)))) w in
      on_page (λ d, set_cards
        (alter (λ k, set_card_classList (card_classList k ∖ {[ "selected" ]}) k)
               i (cards d)) d) w
    else
      let w := on_st (set_selectedIds
                 (JSSet.add videoId (selectedIds (st w)))) w in
      on_page (λ d, set_cards
        (alter (λ k, set_card_classList (card_classList k ∪ {[ "selected" ]}) k)
               i (cards d)) d) w in
  let w := on_st (set_allSelected
             (Nat.eqb (JSSet.size (selectedIds (st w)))
                      (length (videos (st w))))) w in
  updateSelectionUI w.

(** The click listener of the [i]-th card; [onIcon] tells whether the
    click landed inside its [.status-icon].  The listener closes over the
    item the card was built from, whose identifier is the card's
    [data-video-id]. *)
Definition card_click (i : nat) (onIcon : bool) (w : world) : world :=
  match cards (page w) !! i with
  | None => w
  | Some k =>
      if onIcon then w
      else if isDownloading (st w) then w
      else toggleSelection (dataset_videoId k) i w
  end.

(** The click listener of [select-all-btn]. *)
Definition selectAll_click (w : world) : world :=
  if isDownloading (st w) then w
  else
    let w := on_st (set_allSelected (negb (allSelected (st w)))) w in
    let each (w : world) (k : card) : world :=
      if allSelected (st w) then
        on_st (set_selectedIds
                 (JSSet.add (dataset_videoId k) (selectedIds (st w)))) w
      else
        on_st (set_selectedIds
                 (JSSet.delete (dataset_videoId k) (selectedIds (st w)))) w in
    let w := foldl each w (cards (page w)) in
    let w := on_page (λ d, set_cards
               (map (λ k,
                  if allSelected (st w)
                  then set_card_classList (card_classList k ∪ {[ "selected" ]}) k
                  else set_card_classList (card_classList k ∖ {[ "selected" ]}) k)
                (cards d)) d) w in
    updateSelectionUI w.

(** The click listener of [new-playlist-btn]. *)
Definition newPlaylist_click (w : world) : world :=
  if isDownloading (st w) then w
  else
    let w := on_st (set_videos []) w in
    let w := on_st (set_selectedIds JSSet.empty) w in
    let w := on_st (set_downloadedIds JSSet.empty) w in
    let w := on_st (set_errorIds JSSet.empty) w in
    let w := on_page (with_el urlInput (set_value "")) w in
    let w := on_page (with_el downloadBar (class_add "hidden")) w in
    on_page (showSection "input") w.

(** The click listener of the [i]-th format button. *)
Definition format_click (i : nat) (w : world) : world :=
  match formatBtns (page w) !! i with
  | None => w
  | Some b =>
      if isDownloading (st w) then w
      else
        let w := on_page (λ d, set_formatBtns
                   (activate_format i (formatBtns d)) d) w in
        on_st (set_selectedFormat (dataset_format b)) w
  end.

(** One iteration of [for (const videoId of videoIds)] in
    [startDownloads], with the outcome of the request it issues (unused
    when the identifier is skipped). *)
Definition download_one (outcome : downloadOutcome) (totalCount : nat)
    (videoId : string) (tw : tally * world) : tally * world :=
  let '(t, w) := tw in
  match find_video videoId (videos (st w)) with
  | None => (t, w)
  | Some video =>
      let w := on_page (updateCardState videoId "downloading" "&#8595;") w in
      let w := on_page (with_el downloadStatus
                 (set_textContent
                    ("Downloading: " +:+ truncate (Some (title video)) 40))) w in
      let w := send {| req_method := "POST"; req_url := "/api/download";
                       req_body := [("url", url video);
                                    ("fmt", selectedFormat (st w));
                                    ("title", title video)] |} w in
      let catch (message : string) (t : tally) (w : world) : tally * world :=
        let t := {| completedCount := completedCount t;
                    errorCount := S (errorCount t) |} in
        let w := on_st (set_errorIds (JSSet.add videoId (errorIds (st w)))) w in
        let w := on_page (updateCardState videoId "error" "!") w in
        let w := on_page (setCardError videoId
                   (if String.eqb message "" then "Download failed"
                    else message)) w in
        (t, w) in
      let '(t, w) :=
        match outcome with
        | DlRejected msg => catch msg t w
        | DlNotOk detail => catch (js_or detail "Download failed") t w
        | DlOk cd =>
            let w := save_file videoId w in
            let t := {| completedCount := S (completedCount t);
                        errorCount := errorCount t |} in
            let w := on_st (set_downloadedIds
                       (JSSet.add videoId (downloadedIds (st w)))) w in
            let w := on_page (updateCardState videoId "complete" "&#10003;") w in
            let w := on_page (updateCardProgress videoId (number_of_nat 100)) w in
            let w := on_page (with_el downloadStatus
                       (set_textContent
                          ("Downloaded: " +:+ truncate (Some (title video)) 40))) w in
            (t, w)
        end in
      let w := on_page (with_el overallProgress
                 (set_textContent
                    (show_nat (completedCount t + errorCount t) +:+ " / " +:+
                     show_nat totalCount))) w in
      let w := on_page (with_el overallProgressFill
                 (set_style_width
                    (progress_percent (completedCount t) (errorCount t)
                                      totalCount))) w in
      (t, w)
  end.

(** The loop over [videoIds]; [net i] is the outcome of the request of
    iteration [i]. *)
Fixpoint download_loop (net : nat → downloadOutcome) (i totalCount : nat)
    (videoIds : list string) (tw : tally * world) : tally * world :=
  match videoIds with
  | [] => tw
  | videoId :: rest =>
      download_loop net (S i) totalCount rest
        (download_one (net i) totalCount videoId tw)
  end.

(** The statements of [startDownloads] before the loop. *)
Definition download_begin (videoIds : list string) (w : world) : world :=
  let w := on_st (set_isDownloading true) w in
  let w := on_page (with_el downloadSelectedBtn (set_disabled true)) w in
  let w := on_page (with_el selectAllBtn (set_disabled true)) w in
  let w := on_page (with_el downloadBar (class_remove "hidden")) w in
  let w := on_page (with_el downloadStatus
             (set_textContent "Starting downloads...")) w in
  let w := on_page (with_el overallProgress
             (set_textContent ("0 / " +:+ show_nat (length videoIds)))) w in
  let w := on_page (with_el overallProgressFill
             (set_style_width (number_of_nat 0))) w in
  on_page (with_el overallProgressFill (class_remove "complete")) w.

(** The statements of [startDownloads] after the loop. *)
Definition download_end (tw : tally * world) : tally * world :=
  let '(t, w) := tw in
  let w := on_st (set_isDownloading false) w in
  let w := on_page (with_el downloadSelectedBtn (set_disabled false)) w in
  let w := on_page (with_el selectAllBtn (set_disabled false)) w in
  let w := on_page (with_el downloadStatus
             (set_textContent
                (summary_text (completedCount t) (errorCount t)))) w in
  let w :=
    if summary_marks_complete (completedCount t) (errorCount t)
    then on_page (with_el overallProgressFill (class_add "complete")) w
    else w in
  (t, w).

(** The run as far as the first [n] identifiers of [videoIds]. *)
Definition download_prefix (net : nat → downloadOutcome) (n : nat)
    (videoIds : list string) (w : world) : tally * world :=
  download_loop net 0 (length videoIds) (take n videoIds)
    (tally0, download_begin videoIds w).

(** [async function startDownloads(videoIds)].  While it is suspended on a
    request, every listener of the results view that writes the variables
    returns at its [isDownloading] guard (the input view is hidden), so the
    run is one transition; [download_prefix] gives the states in between. *)
Definition startDownloads (net : nat → downloadOutcome)
    (videoIds : list string) (w : world) : tally * world :=
  download_end
    (download_loop net 0 (length videoIds) videoIds
       (tally0, download_begin videoIds w)).

(** The click listener of [download-selected-btn]. *)
Definition download_click (net : nat → downloadOutcome) (w : world) : world :=
  if Nat.eqb (JSSet.size (selectedIds (st w))) 0 || isDownloading (st w)
  then w
  else snd (startDownloads net (selectedIds (st w)) w).

(** What can happen on the page while a playlist is loaded, besides a
    click on the download button: a click on a card, on the select-all
    button or on a format button.  A click on a disabled button reaches no
    listener. *)
Inductive click :=
  | CardClick (i : nat) (onIcon : bool)
  | SelectAllClick
  | FormatClick (i : nat).

Definition click_step (c : click) (w : world) : world :=
  match c with
  | CardClick i onIcon => card_click i onIcon w
  | SelectAllClick =>
      if disabled (el (page w) selectAllBtn) then w else selectAll_click w
  | FormatClick i => format_click i w
  end.

Definition clicks (cs : list click) (w : world) : world :=
  foldl (λ w c, click_step c w) w cs.

End Public.

(** * The push-stream variant, [src/static/app.js] *)
Module Static.

(** The module-level variables. *)
Record vars := {
  sessionId : sessionIdVal;
  playlistTitle : string;
  videos : list video;
  selectedIds : list string;
  downloadedIds : list string;
  errorIds : list string;
  allSelected : bool;
  selectedFormat : string;
}.

(** The variables, the page, the requests issued so far (the URL of an
    [EventSource] included) and the URLs given to [window.open]. *)
Record world := {
  st : vars;
  page : dom;
  fetches : list request;
  opened : list string;
}.

Definition set_sessionId (x : sessionIdVal) (s : vars) : vars :=
  {| sessionId := x; playlistTitle := playlistTitle s; videos := videos s;
     selectedIds := selectedIds s; downloadedIds := downloadedIds s;
     errorIds := errorIds s; allSelected := allSelected s;
     selectedFormat := selectedFormat s |}.

Definition set_playlistTitle (x : string) (s : vars) : vars :=
  {| sessionId := sessionId s; playlistTitle := x; videos := videos s;
     selectedIds := selectedIds s; downloadedIds := downloadedIds s;
     errorIds := errorIds s; allSelected := allSelected s;
     selectedFormat := selectedFormat s |}.

Definition set_videos (x : list video) (s : vars) : vars :=
  {| sessionId := sessionId s; playlistTitle := playlistTitle s; videos := x;
     selectedIds := selectedIds s; downloadedIds := downloadedIds s;
     errorIds := errorIds s; allSelected := allSelected s;
     selectedFormat := selectedFormat s |}.

Definition set_selectedIds (x : list string) (s : vars) : vars :=
  {| sessionId := sessionId s; playlistTitle := playlistTitle s; videos := videos s;
     selectedIds := x; downloadedIds := downloadedIds s;
     errorIds := errorIds s; allSelected := allSelected s;
     selectedFormat := selectedFormat s |}.

Definition set_downloadedIds (x : list string) (s : vars) : vars :=
  {| sessionId := sessionId s; playlistTitle := playlistTitle s; videos := videos s;
     selectedIds := selectedIds s; downloadedIds := x;
     errorIds := errorIds s; allSelected := allSelected s;
     selectedFormat := selectedFormat s |}.

Definition set_errorIds (x : list string) (s : vars) : vars :=
  {| sessionId := sessionId s; playlistTitle := playlistTitle s; videos := videos s;
     selectedIds := selectedIds s; downloadedIds := downloadedIds s;
     errorIds := x; allSelected := allSelected s;
     selectedFormat := selectedFormat s |}.

Definition set_allSelected (x : bool) (s : vars) : vars :=
  {| sessionId := sessionId s; playlistTitle := playlistTitle s; videos := videos s;
     selectedIds := selectedIds s; downloadedIds := downloadedIds s;
     errorIds := errorIds s; allSelected := x;
     selectedFormat := selectedFormat s |}.

Definition set_selectedFormat (x : string) (s : vars) : vars :=
  {| sessionId := sessionId s; playlistTitle := playlistTitle s; videos := videos s;
     selectedIds := selectedIds s; downloadedIds := downloadedIds s;
     errorIds := errorIds s; allSelected := allSelected s;
     selectedFormat := x |}.

Definition on_st (f : vars → vars) (w : world) : world :=
  {| st := f (st w); page := page w; fetches := fetches w; opened := opened w |}.

Definition on_page (f : dom → dom) (w : world) : world :=
  {| st := st w; page := f (page w); fetches := fetches w; opened := opened w |}.

Definition send (r : request) (w : world) : world :=
  {| st := st w; page := page w; fetches := fetches w ++ [r]; opened := opened w |}.

Definition window_open (u : string) (w : world) : world :=
  {| st := st w; page := page w; fetches := fetches w; opened := opened w ++ [u] |}.

(** The state when the script has run, over the page [d] of the
    document. *)
Definition init (d : dom) : world :=
  {| st := {| sessionId := SidNull; playlistTitle := ""; videos := [];
              selectedIds := JSSet.empty; downloadedIds := JSSet.empty;
              errorIds := JSSet.empty; allSelected := true;
              selectedFormat := "mp3" |};
     page := d; fetches := []; opened := [] |}.

(** [function updateSelectionUI()] *)
Definition updateSelectionUI (w : world) : world :=
  let w := on_page (with_el selectAllBtn
             (set_textContent
                (if allSelected (st w) then "Deselect All" else "Select All"))) w in
  let w := on_page (with_el downloadSelectedBtn
             (set_textContent
                ("Download Selected (" +:+
                 show_nat (JSSet.size (selectedIds (st w))) +:+ ")"))) w in
  on_page (with_el downloadSelectedBtn
             (set_disabled (Nat.eqb (JSSet.size (selectedIds (st w))) 0))) w.

(** [function renderVideoGrid()] *)
Definition renderVideoGrid (w : world) : world :=
  let w := on_page (with_el playlistTitleEl
             (set_textContent (playlistTitle (st w)))) w in
  let w := on_page (with_el videoCountEl
             (set_textContent (video_count_text (length (videos (st w)))))) w in
  let w := on_page (set_cards []) w in
  let w := on_page (with_el zipSection (class_add "hidden")) w in
  let w := on_page (set_cards (map new_card (videos (st w)))) w in
  updateSelectionUI w.

(** [async function extractPlaylist()], with the outcome of its one
    request. *)
Definition extractPlaylist (outcome : extractOutcome) (w : world) : world :=
  let url := trim (value (el (page w) urlInput)) in
  if String.eqb url "" then
    on_page (showError "Please enter a URL") w
  else if negb (String.prefix "http" url) then
    on_page (showError
      "Please enter a valid URL starting with http:// or https://") w
  else
    let w := on_page hideError w in
    let w := on_page (with_el extractBtn (set_disabled true)) w in
    let w := on_page (showSection "loading") w in
    let w := send {| req_method := "POST"; req_url := "/api/extract";
                     req_body := [("url", url)] |} w in
    let catch (message : string) (w : world) : world :=
      let w := on_page (showSection "input") w in
      on_page (showError message) w in
    let w :=
      match outcome with
      | ExtractRejected msg => catch msg w
      | ExtractNotOk (ParseError msg) => catch msg w
      | ExtractNotOk (Parsed detail) =>
          catch (js_or detail "Extraction failed") w
      | ExtractOk (ParseError msg) => catch msg w
      | ExtractOk (Parsed data) =>
          let w := on_st (set_sessionId (data_session_id data)) w in
          let w := on_st (set_playlistTitle (data_title data)) w in
          let w := on_st (set_videos (data_videos data)) w in
          let w := on_st (set_selectedIds
                     (JSSet.of_list (map video_id (videos (st w))))) w in
          let w := on_st (set_downloadedIds JSSet.empty) w in
          let w := on_st (set_errorIds JSSet.empty) w in
          let w := on_st (set_allSelected true) w in
          let w := renderVideoGrid w in
          on_page (showSection "results") w
      end in
    on_page (with_el extractBtn (set_disabled false)) w.

(** [function toggleSelection(videoId, card)]; the card is the [i]-th
    child of the grid. *)
Definition toggleSelection (videoId : string) (i : nat) (w : world) : world :=
  let w :=
    if JSSet.has videoId (selectedIds (st w)) then
      let w := on_st (set_selectedIds
                 (JSSet.delete videoId (selectedIds (st w)))) w in
      on_page (λ d, set_cards
        (alter (λ k, set_card_classList (card_classList k ∖ {[ "selected" ]}) k)
               i (cards d)) d) w
    else
      let w := on_st (set_selectedIds
                 (JSSet.add videoId (selectedIds (st w)))) w in
      on_page (λ d, set_cards
        (alter (λ k, set_card_classList (card_classList k ∪ {[ "selected" ]}) k)
               i (cards d)) d) w in
  let w := on_st (set_allSelected
             (Nat.eqb (JSSet.size (selectedIds (st w)))
                      (length (videos (st w))))) w in
  updateSelectionUI w.

(** The two click listeners of the [i]-th card.  A click inside
    [.status-icon] runs the icon's listener, which opens the file of a
    completed item and stops propagation; any other click toggles the
    selection. *)
Definition card_click (i : nat) (onIcon : bool) (w : world) : world :=
  match cards (page w) !! i with
  | None => w
  | Some k =>
      if onIcon then
        if bool_decide ("complete" ∈ card_classList k)
        then window_open ("/api/file/" +:+ show_sid (sessionId (st w)) +:+
                          "/" +:+ dataset_videoId k) w
        else w
      else toggleSelection (dataset_videoId k) i w
  end.

(** The click listener of [select-all-btn]. *)
Definition selectAll_click (w : world) : world :=
  let w := on_st (set_allSelected (negb (allSelected (st w)))) w in
  let each (w : world) (k : card) : world :=
    if allSelected (st w) then
      on_st (set_selectedIds
               (JSSet.add (dataset_videoId k) (selectedIds (st w)))) w
    else
      on_st (set_selectedIds
               (JSSet.delete (dataset_videoId k) (selectedIds (st w)))) w in
  let w := foldl each w (cards (page w)) in
  let w := on_page (λ d, set_cards
             (map (λ k,
                if allSelected (st w)
                then set_card_classList (card_classList k ∪ {[ "selected" ]}) k
                else set_card_classList (card_classList k ∖ {[ "selected" ]}) k)
              (cards d)) d) w in
  updateSelectionUI w.

(** The click listener of [new-playlist-btn].  [released] is whether the
    release request, when one is sent, succeeds; its promise has an empty
    [catch] and nothing awaits it. *)
Definition newPlaylist_click (released : bool) (w : world) : world :=
  let w :=
    if sid_truthy (sessionId (st w)) then
      send {| req_method := "DELETE";
              req_url := "/api/session/" +:+ show_sid (sessionId (st w));
              req_body := [] |} w
    else w in
  let w := on_st (set_sessionId SidNull) w in
  let w := on_st (set_videos []) w in
  let w := on_st (set_selectedIds JSSet.empty) w in
  let w := on_st (set_downloadedIds JSSet.empty) w in
  let w := on_st (set_errorIds JSSet.empty) w in
  let w := on_page (with_el urlInput (set_value "")) w in
  let w := on_page (with_el downloadBar (class_add "hidden")) w in
  let w := on_page (with_el zipSection (class_add "hidden")) w in
  on_page (showSection "input") w.

(** The click listener of the [i]-th format button. *)
Definition format_click (i : nat) (w : world) : world :=
  match formatBtns (page w) !! i with
  | None => w
  | Some b =>
      let w := on_page (λ d, set_formatBtns
                 (activate_format i (formatBtns d)) d) w in
      on_st (set_selectedFormat (dataset_format b)) w
  end.

(** The click listener of [download-zip-btn]. *)
Definition zip_click (w : world) : world :=
  window_open ("/api/zip/" +:+ show_sid (sessionId (st w))) w.

(** The decoded [event.data] of one message of the stream; [percent] is
    the Number that [JSON.parse] gives. *)
Record sseEvent := {
  event_type : string;
  ev_video_id : string;
  ev_title : option string;
  ev_percent : number;
  ev_speed : option string;
  ev_message : option string;
}.

(** What the closures of one call of [startDownload] share: the two
    tallies, [totalCount], and whether [evtSource.close()] has run. *)
Record run := {
  completedCount : nat;
  errorCount : nat;
  totalCount : nat;
  closed : bool;
}.

Definition close (r : run) : run :=
  {| completedCount := completedCount r; errorCount := errorCount r;
     totalCount := totalCount r; closed := true |}.

(** [function startDownload(videoIds)] up to the installation of the two
    listeners. *)
Definition startDownload (videoIds : list string) (w : world) : run * world :=
  let w := on_page (with_el downloadSelectedBtn (set_disabled true)) w in
  let w := on_page (with_el selectAllBtn (set_disabled true)) w in
  let w := on_page (with_el downloadBar (class_remove "hidden")) w in
  let w := on_page (with_el zipSection (class_add "hidden")) w in
  let w := on_page (with_el downloadStatus
             (set_textContent "Starting downloads...")) w in
  let w := on_page (with_el overallProgress
             (set_textContent ("0 / " +:+ show_nat (length videoIds)))) w in
  let w := on_page (with_el overallProgressFill
             (set_style_width (number_of_nat 0))) w in
  let w := on_page (with_el overallProgressFill (class_remove "complete")) w in
  let idsParam := join_comma videoIds in
  let w := send {| req_method := "GET";
                   req_url := "/api/download/" +:+ show_sid (sessionId (st w)) +:+
                              "?video_ids=" +:+ idsParam +:+
                              "&fmt=" +:+ selectedFormat (st w);
                   req_body := [] |} w in
  ({| completedCount := 0; errorCount := 0;
      totalCount := length videoIds; closed := false |}, w).

(** The click listener of [download-selected-btn]. *)
Definition download_click (w : world) : option run * world :=
  if Nat.eqb (JSSet.size (selectedIds (st w))) 0 then (None, w)
  else let '(r, w) := startDownload (selectedIds (st w)) w in (Some r, w).

(** [evtSource.onmessage], the [switch] on [data.event_type]; an event of
    any other type falls through the [switch]. *)
Definition onmessage (data : sseEvent) (rw : run * world) : run * world :=
  let '(r, w) := rw in
  if String.eqb (event_type data) "downloading" then
    let w := on_page (updateCardState (ev_video_id data) "downloading" "&#8595;") w in
    let w := on_page (with_el downloadStatus
               (set_textContent
                  ("Downloading: " +:+ truncate (ev_title data) 40))) w in
    (r, w)
  else if String.eqb (event_type data) "progress" then
    let w := on_page (updateCardProgress (ev_video_id data) (ev_percent data)) w in
    let w :=
      if truthy (ev_speed data) then
        on_page (with_el downloadStatus
          (set_textContent
             ("Downloading... " +:+ default "" (ev_speed data)))) w
      else w in
    (r, w)
  else if String.eqb (event_type data) "merging" then
    let w := on_page (updateCardState (ev_video_id data) "downloading" "&#8635;") w in
    (r, w)
  else if String.eqb (event_type data) "complete" then
    let r := {| completedCount := S (completedCount r);
                errorCount := errorCount r;
                totalCount := totalCount r; closed := closed r |} in
    let w := on_st (set_downloadedIds
               (JSSet.add (ev_video_id data) (downloadedIds (st w)))) w in
    let w := on_page (updateCardState (ev_video_id data) "complete" "&#8595;") w in
    let w := on_page (updateCardProgress (ev_video_id data)
                        (number_of_nat 100)) w in
    let w := on_page (with_el overallProgress
               (set_textContent
                  (show_nat (completedCount r) +:+ " / " +:+
                   show_nat (totalCount r)))) w in
    let w := on_page (with_el overallProgressFill
               (set_style_width
                  (progress_percent (completedCount r) (errorCount r)
                                    (totalCount r)))) w in
    let w := on_page (with_el downloadStatus
               (set_textContent
                  ("Downloaded: " +:+ truncate (ev_title data) 40))) w in
    (r, w)
  else if String.eqb (event_type data) "error" then
    let r := {| completedCount := completedCount r;
                errorCount := S (errorCount r);
                totalCount := totalCount r; closed := closed r |} in
    let w := on_st (set_errorIds
               (JSSet.add (ev_video_id data) (errorIds (st w)))) w in
    let w := on_page (updateCardState (ev_video_id data) "error" "!") w in
    let w := on_page (setCardError (ev_video_id data)
               (js_or (ev_message data) "Download failed")) w in
    let w := on_page (with_el overallProgress
               (set_textContent
                  (show_nat (completedCount r) +:+ " / " +:+
                   show_nat (totalCount r)))) w in
    let w := on_page (with_el overallProgressFill
               (set_style_width
                  (progress_percent (completedCount r) (errorCount r)
                                    (totalCount r)))) w in
    (r, w)
  else if String.eqb (event_type data) "all_complete" then
    let r := close r in
    let w := on_page (with_el downloadSelectedBtn (set_disabled false)) w in
    let w := on_page (with_el selectAllBtn (set_disabled false)) w in
    let w := on_page (with_el downloadStatus
               (set_textContent
                  (summary_text (completedCount r) (errorCount r)))) w in
    let w :=
      if summary_marks_complete (completedCount r) (errorCount r)
      then on_page (with_el overallProgressFill (class_add "complete")) w
      else w in
    let w :=
      if Nat.ltb 0 (JSSet.size (downloadedIds (st w))) then
        let n := JSSet.size (downloadedIds (st w)) in
        let w := on_page (with_el zipSubtitle
                   (set_textContent
                      (show_nat n +:+ " video" +:+
                       (if Nat.eqb n 1 then "" else "s") +:+
                       " ready to download"))) w in
        on_page (with_el zipSection (class_remove "hidden")) w
      else w in
    (r, w)
  else (r, w).

(** [evtSource.onerror] *)
Definition onerror (rw : run * world) : run * world :=
  let '(r, w) := rw in
  let r := close r in
  let w := on_page (with_el downloadStatus
             (set_textContent
                "Connection lost. Refresh if downloads didn't complete.")) w in
  let w := on_page (with_el downloadSelectedBtn (set_disabled false)) w in
  let w := on_page (with_el selectAllBtn (set_disabled false)) w in
  (r, w).

(** What the event source of a run delivers: a message or a transport
    error.  A closed source delivers nothing more. *)
Inductive delivery :=
  | Message (data : sseEvent)
  | TransportError.

Definition deliver (d : delivery) (rw : run * world) : run * world :=
  if closed (fst rw) then rw
  else match d with
       | Message data => onmessage data rw
       | TransportError => onerror rw
       end.

Definition deliver_all (ds : list delivery) (rw : run * world) : run * world :=
  foldl (λ rw d, deliver d rw) rw ds.

(** What is live on the page: the variables and the page, and the closures
    of the calls of [startDownload] made so far, in the order of the calls.
    Each call has an event source of its own, which nothing but its own two
    handlers closes: a further call does not, and neither does a click on
    New Playlist or an extraction. *)
Record session := {
  now : world;
  runs : list run;
}.

(** What can happen while a playlist is loaded: a click on a card, on the
    select-all button, on a format button or on the download button, and a
    delivery by the event source of the [j]-th call.  A click on a disabled
    button reaches no listener. *)
Inductive action :=
  | CardClick (i : nat) (onIcon : bool)
  | SelectAllClick
  | FormatClick (i : nat)
  | DownloadClick
  | Deliver (j : nat) (d : delivery).

Definition step (a : action) (s : session) : session :=
  match a with
  | CardClick i onIcon =>
      {| now := card_click i onIcon (now s); runs := runs s |}
  | SelectAllClick =>
      if disabled (el (page (now s)) selectAllBtn) then s
      else {| now := selectAll_click (now s); runs := runs s |}
  | FormatClick i => {| now := format_click i (now s); runs := runs s |}
  | DownloadClick =>
      if disabled (el (page (now s)) downloadSelectedBtn) then s
      else
        let '(r, w) := download_click (now s) in
        {| now := w; runs := runs s ++ option_list r |}
  | Deliver j d =>
      match runs s !! j with
      | Some r =>
          let '(r', w) := deliver d (r, now s) in
          {| now := w; runs := <[ j := r' ]> (runs s) |}
      | None => s
      end
  end.

Definition steps (acts : list action) (s : session) : session :=
  foldl (λ s a, step a s) s acts.

End Static.

(** ** Concrete pages and items used by the examples *)

Definition blank_element : element :=
  {| textContent := ""; value := ""; disabled := false;
     classList := ∅; style_width := None |}.

(** The page as it is when the script starts, with [u] typed in the URL
    field. *)
Definition page_with_url (u : string) : dom :=
  {| el := λ i, if decide (i = urlInput) then set_value u blank_element
                else blank_element;
     cards := [];
     formatBtns := [ {| dataset_format := "mp3"; fmt_active := true |};
                     {| dataset_format := "mp4"; fmt_active := false |} ] |}.

Definition item (id ttl : string) : video :=
  {| video_id := id; title := ttl; url := "https://example.org/watch?v=" +:+ id;
     thumbnail := None; duration_str := None; uploader := None |}.

Definition playlist_of (vs : list video) : extractOutcome :=
  ExtractOk (Parsed {| data_session_id := SidString "s1";
                       data_title := "Mix"; data_videos := vs |}).

(** A state of the sequential variant with the playlist [vs] loaded from
    the start page. *)
Definition public_loaded (vs : list video) : Public.world :=
  Public.extractPlaylist (playlist_of vs)
    (Public.init (page_with_url "https://example.org/playlist?list=1")).

(** A state of the push-stream variant with the playlist [vs] loaded from
    the start page. *)
Definition static_loaded (vs : list video) : Static.world :=
  Static.extractPlaylist (playlist_of vs)
    (Static.init (page_with_url "https://example.org/playlist?list=1")).

(** An event of the stream with only its type and identifier set. *)
Definition event (type videoId : string) : Static.sseEvent :=
  {| Static.event_type := type; Static.ev_video_id := videoId;
     Static.ev_title := None; Static.ev_percent := number_of_nat 0;
     Static.ev_speed := None; Static.ev_message := None |}.

(** With a playlist loaded and a new URL typed in, a second extraction that
    the backend rejects. *)
Definition public_retyped : Public.world :=
  Public.on_page (with_el urlInput (set_value " https://example.org/other "))
    (public_loaded [item "a" "A"; item "b" "B"]).

Definition static_retyped : Static.world :=
  Static.on_page (with_el urlInput (set_value " https://example.org/other "))
    (static_loaded [item "a" "A"; item "b" "B"]).

(** A state of the sequential variant in the middle of a run: the playlist
    [a], [b] is loaded, the download of [a] has failed and the request for
    [b] is awaited. *)
Definition public_mid_run : Public.world :=
  snd (Public.download_prefix (λ _, DlNotOk None) 1 ["a"; "b"]
         (public_loaded [item "a" "A"; item "b" "B"])).

(** The five messages of the scenario of C4, for the items [a] and [b];
    the optional fields of the events are arbitrary. *)
Definition scenario (a b : string) (ta : option string) (speed : option string)
    (msg : option string) : list Static.delivery :=
  [ Static.Message
      {| Static.event_type := "downloading"; Static.ev_video_id := a;
         Static.ev_title := ta; Static.ev_percent := number_of_nat 0;
         Static.ev_speed := None; Static.ev_message := None |};
    Static.Message
      {| Static.event_type := "progress"; Static.ev_video_id := a;
         Static.ev_title := ta; Static.ev_percent := number_of_nat 50;
         Static.ev_speed := speed; Static.ev_message := None |};
    Static.Message
      {| Static.event_type := "complete"; Static.ev_video_id := a;
         Static.ev_title := ta; Static.ev_percent := number_of_nat 100;
         Static.ev_speed := None; Static.ev_message := None |};
    Static.Message
      {| Static.event_type := "error"; Static.ev_video_id := b;
         Static.ev_title := None; Static.ev_percent := number_of_nat 0;
         Static.ev_speed := None; Static.ev_message := msg |};
    Static.Message
      {| Static.event_type := "all_complete"; Static.ev_video_id := "";
         Static.ev_title := None; Static.ev_percent := number_of_nat 0;
         Static.ev_speed := None; Static.ev_message := None |} ].


(** A backend that fails the first request of a run and serves the
    others. *)
Definition first_fails (k : nat) : downloadOutcome :=
  if Nat.eqb k 0 then DlNotOk (Some "Video unavailable") else DlOk None.

Definition three_items : list video :=
  [item "a" "A"; item "b" "B"; item "c" "C"].

(** The URL typed in passes the two checks at the head of
    [extractPlaylist]. *)
Definition url_accepted (d : dom) : Prop :=
  let url := trim (value (el d urlInput)) in
  String.eqb url "" = false ∧ String.prefix "http" url = true.

(** The identifiers that the deliveries [ds] report with an event of type
    [ty]. *)
Definition reported (ty : string) (ds : list Static.delivery) : list string :=
  omap (λ d, match d with
             | Static.Message data =>
                 if String.eqb (Static.event_type data) ty
                 then Some (Static.ev_video_id data) else None
             | Static.TransportError => None
             end) ds.

(** The identifiers of the messages of type [ty] that the handlers take in
    the course of the actions [acts] from the session [s]: those delivered
    by an event source that is open at the time. *)
Fixpoint heard (ty : string) (acts : list Static.action) (s : Static.session)
  : list string :=
  match acts with
  | [] => []
  | a :: rest =>
      match a with
      | Static.Deliver j (Static.Message data) =>
          match Static.runs s !! j with
          | Some r =>
              if negb (Static.closed r)
                 && String.eqb (Static.event_type data) ty
              then [Static.ev_video_id data] else []
          | None => []
          end
      | _ => []
      end ++ heard ty rest (Static.step a s)
  end.

(** Two subscriptions on one loaded playlist: a click on the download
    button, a click on a card that enables the button again, a second click
    on the download button; the first subscription then reports [a] failed
    and the second reports it complete. *)
Definition overlapping_runs : list Static.action :=
  [ Static.DownloadClick;
    Static.CardClick 1 false;
    Static.DownloadClick;
    Static.Deliver 0 (Static.Message (event "error" "a"));
    Static.Deliver 1 (Static.Message (event "complete" "a")) ].

Definition static_overlapped : Static.world :=
  Static.now
    (Static.steps overlapping_runs
       {| Static.now := static_loaded three_items; Static.runs := [] |}).

(** Two runs of the sequential variant on the playlist [a]: the download
    fails in the first and succeeds in the second. *)
Definition public_retried : Public.world :=
  Public.download_click (λ _, DlOk None)
    (Public.download_click (λ _, DlNotOk None) (public_loaded [item "a" "A"])).

(** The same in the push-stream variant: the first run reports [error(a)],
    the second [complete(a)]. *)
Definition static_retried : Static.world :=
  let v := static_loaded [item "a" "A"] in
  let v1 := snd (Static.deliver_all
                   [ Static.Message (event "error" "a");
                     Static.Message (event "all_complete" "") ]
                   (Static.startDownload (Static.selectedIds (Static.st v)) v)) in
  snd (Static.deliver_all
         [ Static.Message (event "complete" "a");
           Static.Message (event "all_complete" "") ]
         (Static.startDownload (Static.selectedIds (Static.st v1)) v1)).

(** ** Reading markup back

    What the browser makes of a string assigned to [innerHTML], as far as
    the markup of a card goes (the data, tag-open, attribute-value and
    character-reference states of the tokenizer of the HTML standard): text
    runs with their character references decoded, and tags with the decoded
    values of their quoted attributes.  A tag is opened by [<] in text and
    closed by [>] outside a quoted value; a value opened by a quote
    character extends to the next occurrence of the same character; a
    reference runs from [&] to [;].  References to code points above 255,
    like the check mark of the template, are left as written. *)

Inductive node :=
  | Text (s : string)
  | Tag (markup : string) (values : list string).

Inductive mode := Data | InTag | AttrDQ | AttrSQ.

(** The reader: its mode, the characters of an open reference, the text
    run or the tag text under construction (the text of a tag leaves out
    its quoted values), the attribute value under construction, the values
    of the current tag and the nodes completed so far. *)
Record reader := {
  r_mode : mode;
  r_ref : option string;
  r_text : string;
  r_value : string;
  r_values : list string;
  r_nodes : list node;
}.

Definition reader0 : reader :=
  {| r_mode := Data; r_ref := None; r_text := ""; r_value := "";
     r_values := []; r_nodes := [] |}.

Definition set_ref (o : option string) (r : reader) : reader :=
  {| r_mode := r_mode r; r_ref := o; r_text := r_text r;
     r_value := r_value r; r_values := r_values r; r_nodes := r_nodes r |}.

(** Append to the text run, the tag text or the attribute value, whichever
    is under construction. *)
Definition push_string (s : string) (r : reader) : reader :=
  match r_mode r with
  | Data | InTag =>
      {| r_mode := r_mode r; r_ref := r_ref r; r_text := r_text r +:+ s;
         r_value := r_value r; r_values := r_values r; r_nodes := r_nodes r |}
  | AttrDQ | AttrSQ =>
      {| r_mode := r_mode r; r_ref := r_ref r; r_text := r_text r;
         r_value := r_value r +:+ s; r_values := r_values r;
         r_nodes := r_nodes r |}
  end.

Definition push_char (a : ascii) (r : reader) : reader :=
  push_string (String a EmptyString) r.

(** The completed text run, if it is not empty. *)
Definition text_node (s : string) : list node :=
  if String.eqb s "" then [] else [Text s].

Definition is_digit (a : ascii) : bool :=
  let n := nat_of_ascii a in Nat.leb 48 n && Nat.leb n 57.

Definition is_ref_char (a : ascii) : bool :=
  let n := nat_of_ascii a in
  is_digit a || (Nat.leb 65 n && Nat.leb n 90) || (Nat.leb 97 n && Nat.leb n 122)
  || Nat.eqb n 35.

Fixpoint decimal_value (s : string) (acc : nat) : option nat :=
  match s with
  | EmptyString => Some acc
  | String a rest =>
      if is_digit a then decimal_value rest (10 * acc + (nat_of_ascii a - 48))
      else None
  end.

(** The character a reference stands for: the named references [amp], [lt],
    [gt], [quot], [nbsp] and the decimal ones below 256. *)
Definition decode_ref (name : string) : option ascii :=
  if String.eqb name "amp" then Some "&"%char
  else if String.eqb name "lt" then Some "<"%char
  else if String.eqb name "gt" then Some ">"%char
  else if String.eqb name "quot" then Some "034"%char
  else if String.eqb name "nbsp" then Some "160"%char
  else match name with
       | String "#" (String d ds) =>
           match decimal_value (String d ds) 0 with
           | Some n => if Nat.ltb n 256 then Some (ascii_of_nat n) else None
           | None => None
           end
       | _ => None
       end.

(** A character outside a reference. *)
Definition plain (a : ascii) (r : reader) : reader :=
  match r_mode r with
  | Data =>
      if Ascii.eqb a "<" then
        {| r_mode := InTag; r_ref := None; r_text := ""; r_value := "";
           r_values := []; r_nodes := r_nodes r ++ text_node (r_text r) |}
      else if Ascii.eqb a "&" then set_ref (Some "") r
      else push_char a r
  | InTag =>
      if Ascii.eqb a ">" then
        {| r_mode := Data; r_ref := None; r_text := ""; r_value := "";
           r_values := [];
           r_nodes := r_nodes r ++ [Tag (r_text r) (r_values r)] |}
      else if Ascii.eqb a "034" then
        {| r_mode := AttrDQ; r_ref := None; r_text := r_text r; r_value := "";
           r_values := r_values r; r_nodes := r_nodes r |}
      else if Ascii.eqb a "'" then
        {| r_mode := AttrSQ; r_ref := None; r_text := r_text r; r_value := "";
           r_values := r_values r; r_nodes := r_nodes r |}
      else push_char a r
  | AttrDQ =>
      if Ascii.eqb a "034" then
        {| r_mode := InTag; r_ref := None; r_text := r_text r; r_value := "";
           r_values := r_values r ++ [r_value r]; r_nodes := r_nodes r |}
      else if Ascii.eqb a "&" then set_ref (Some "") r
      else push_char a r
  | AttrSQ =>
      if Ascii.eqb a "'" then
        {| r_mode := InTag; r_ref := None; r_text := r_text r; r_value := "";
           r_values := r_values r ++ [r_value r]; r_nodes := r_nodes r |}
      else if Ascii.eqb a "&" then set_ref (Some "") r
      else push_char a r
  end.

(** One character: inside a reference, [;] closes it, a letter, digit or
    [#] extends it, and anything else shows that it was no reference. *)
Definition read_char (a : ascii) (r : reader) : reader :=
  match r_ref r with
  | None => plain a r
  | Some name =>
      if Ascii.eqb a ";" then
        match decode_ref name with
        | Some c => push_char c (set_ref None r)
        | None => push_string ("&" +:+ name +:+ ";") (set_ref None r)
        end
      else if is_ref_char a then
        set_ref (Some (name +:+ String a EmptyString)) r
      else plain a (push_string ("&" +:+ name) (set_ref None r))
  end.

Fixpoint read_from (r : reader) (s : string) : reader :=
  match s with
  | EmptyString => r
  | String a rest => read_from (read_char a r) rest
  end.

(** The nodes read when the input ends: an open reference was none, and an
    open text run is completed. *)
Definition finish (r : reader) : list node :=
  let r := match r_ref r with
           | None => r
           | Some name => push_string ("&" +:+ name) (set_ref None r)
           end in
  match r_mode r with
  | Data => r_nodes r ++ text_node (r_text r)
  | _ => r_nodes r
  end.

Definition read_html (s : string) : list node := finish (read_from reader0 s).

(** The nodes of a card: the tags of the template, and the texts of the item
    as they were received, as attribute values and as text runs. *)
Definition card_nodes (v : video) : list node :=
  let thumbUrl :=
    js_or (thumbnail v)
          ("https://i.ytimg.com/vi/" +:+ video_id v +:+ "/hqdefault.jpg") in
  [ Text "
      ";
    Tag "div class=" ["thumbnail-wrap"];
    Text "
        ";
    Tag "img class=
             src=
             alt=
             loading=
             onerror="
        ["thumbnail"; thumbUrl; title v; "lazy"; "this.style.display='none'"] ]
  ++ (if truthy (duration_str v)
      then [ Text "
        ";
             Tag "span class=" ["duration-badge"] ]
           ++ text_node (default "" (duration_str v))
           ++ [ Tag "/span" [];
                Text "
        " ]
      else [ Text "
        
        " ])
  ++ [ Tag "div class=" ["check-circle"];
       Text "&#10003;";
       Tag "/div" [];
       Text "
        ";
       Tag "div class=" ["status-icon"];
       Tag "/div" [];
       Text "
      ";
       Tag "/div" [];
       Text "
      ";
       Tag "div class=" ["info"];
       Text "
        ";
       Tag "div class=" ["title"] ]
  ++ text_node (title v)
  ++ [ Tag "/div" [];
       Text "
        ";
       Tag "div class=" ["meta"] ]
  ++ (if truthy (uploader v) then text_node (default "" (uploader v)) else [])
  ++ [ Tag "/div" [];
       Text "
      ";
       Tag "/div" [];
       Text "
      ";
       Tag "div class=" ["progress-overlay"];
       Tag "div class=" ["fill"];
       Tag "/div" [];
       Tag "/div" [];
       Text "
      ";
       Tag "div class=" ["error-msg"];
       Tag "/div" [];
       Text "
    " ].

(** The replacement of one character by [escapeAttr]. *)
Definition attr_char (a : ascii) : string :=
  if Ascii.eqb a "&" then "&amp;"
  else if Ascii.eqb a "034" then "&quot;"
  else if Ascii.eqb a "'" then "&#39;"
  else if Ascii.eqb a "<" then "&lt;"
  else if Ascii.eqb a ">" then "&gt;"
  else String a EmptyString.

(** Whether the character [a] occurs in [s]. *)
Fixpoint occurs (a : ascii) (s : string) : bool :=
  match s with
  | EmptyString => false
  | String b rest => Ascii.eqb a b || occurs a rest
  end.

(** The selection of the sequential variant agrees with the playlist and
    with the page: the items have distinct identifiers, the cards are those
    of the items, the selection holds items only, [allSelected] tells
    whether it holds as many as there are, and the label of the toggle
    follows [allSelected]. *)
Definition public_consistent (w : Public.world) : Prop :=
  NoDup (map video_id (Public.videos (Public.st w)))
  ∧ map dataset_videoId (cards (Public.page w))
    = map video_id (Public.videos (Public.st w))
  ∧ NoDup (Public.selectedIds (Public.st w))
  ∧ Public.selectedIds (Public.st w)
      ⊆ map video_id (Public.videos (Public.st w))
  ∧ Public.allSelected (Public.st w)
    = Nat.eqb (JSSet.size (Public.selectedIds (Public.st w)))
              (length (Public.videos (Public.st w)))
  ∧ textContent (el (Public.page w) selectAllBtn)
    = (if Public.allSelected (Public.st w) then "Deselect All" else "Select All").

(** ** The file name of a download

    In [startDownloads], the name given to the browser for a downloaded
    file: [`${video.title}.${selectedFormat}`] unless the response has a
    non-empty [Content-Disposition] header in which the regular expression
    [filename=(.+)] with its two double quotes matches, and then the group
    matched.  The dot of the expression matches any character but a line
    terminator (here the characters of codes 10 and 13), the repetition is
    greedy, and the leftmost position with a match wins. *)

Definition is_line_terminator (a : ascii) : bool :=
  Nat.eqb (nat_of_ascii a) 10 || Nat.eqb (nat_of_ascii a) 13.

(** The characters that the dot can run over from the start of [s]. *)
Fixpoint dot_run (s : string) : string :=
  match s with
  | EmptyString => EmptyString
  | String a rest =>
      if is_line_terminator a then EmptyString else String a (dot_run rest)
  end.

(** What precedes the last double quote of [s], if [s] has one: the longest
    prefix of [s] that is followed by a double quote. *)
Fixpoint before_last_quote (s : string) : option string :=
  match s with
  | EmptyString => None
  | String a rest =>
      match before_last_quote rest with
      | Some p => Some (String a p)
      | None => if Ascii.eqb a "034" then Some EmptyString else None
      end
  end.

(** The group of a match that starts at the head of [s]. *)
Definition filename_match_here (s : string) : option string :=
  if String.prefix ("filename=" +:+ dquote) s then
    match before_last_quote
            (dot_run (substring 10 (String.length s - 10) s)) with
    | Some p => if String.eqb p "" then None else Some p
    | None => None
    end
  else None.

(** [cd.match(...)], as far as its first group. *)
Fixpoint filename_match (s : string) : option string :=
  match s with
  | EmptyString => None
  | String a rest =>
      match filename_match_here s with
      | Some p => Some p
      | None => filename_match rest
      end
  end.

(** The value of [filename] when the anchor is clicked. *)
Definition download_filename (cd : option string) (video_title fmt : string)
  : string :=
  let filename := video_title +:+ "." +:+ fmt in
  if truthy cd then
    match filename_match (default "" cd) with
    | Some name => name
    | None => filename
    end
  else filename.

(** Whether [s] has no line terminator in it. *)
Fixpoint one_line (s : string) : bool :=
  match s with
  | EmptyString => true
  | String a rest => negb (is_line_terminator a) && one_line rest
  end.

(** ** Notions used by the further properties *)

(** The request that the download loop sends for the identifier [videoId],
    none when it is no item of the playlist. *)
Definition download_requests (w : Public.world) (videoId : string)
  : list request :=
  match find_video videoId (Public.videos (Public.st w)) with
  | Some video =>
      [ {| req_method := "POST"; req_url := "/api/download";
           req_body := [("url", url video);
                        ("fmt", Public.selectedFormat (Public.st w));
                        ("title", title video)] |} ]
  | None => []
  end.

(** The identifiers of [videoIds] that are items of [vs] and whose request,
    the one of their position counted from [i], succeeds. *)
Fixpoint downloaded_of (net : nat → downloadOutcome) (i : nat)
    (vs : list video) (videoIds : list string) : list string :=
  match videoIds with
  | [] => []
  | videoId :: rest =>
      (if bool_decide (videoId ∈ map video_id vs) && download_ok (net i)
       then [videoId] else [])
      ++ downloaded_of net (S i) vs rest
  end.

(** A card carries at most one of the three status classes. *)
Definition one_status (k : card) : Prop :=
  ∀ c1 c2 : string,
    c1 ∈ ({[ "downloading"; "complete"; "error" ]} : gset string) →
    c2 ∈ ({[ "downloading"; "complete"; "error" ]} : gset string) →
    c1 ∈ card_classList k → c2 ∈ card_classList k → c1 = c2.

(** The check mark of every card tells whether its item is selected. *)
Definition selection_shown (cs : list card) (selected : list string) : Prop :=
  ∀ k, k ∈ cs → ("selected" ∈ card_classList k ↔ dataset_videoId k ∈ selected).

(** A delivery that closes the subscription. *)
Definition closing (d : Static.delivery) : bool :=
  match d with
  | Static.Message data => String.eqb (Static.event_type data) "all_complete"
  | Static.TransportError => true
  end.

(** A delivery about an identifier for which the selector of a card is the
    test for the identifier; a transport error is about no identifier. *)
Definition selector_safe_delivery (d : Static.delivery) : bool :=
  match d with
  | Static.Message data => selector_safe (Static.ev_video_id data)
  | Static.TransportError => true
  end.

(** The message of the error that [extractPlaylist] catches, none when the
    body of an ok response was decoded. *)
Definition extract_failure_message (o : extractOutcome) : option string :=
  match o with
  | ExtractRejected msg => Some msg
  | ExtractNotOk (ParseError msg) => Some msg
  | ExtractNotOk (Parsed detail) => Some (js_or detail "Extraction failed")
  | ExtractOk (ParseError msg) => Some msg
  | ExtractOk (Parsed _) => None
  end.

(** The request of [extractPlaylist] for the URL typed into the page [d]. *)
Definition extract_request (d : dom) : request :=
  {| req_method := "POST"; req_url := "/api/extract";
     req_body := [("url", trim (value (el d urlInput)))] |}.

(** A response that lists one item twice. *)
Definition repeated_item_data : extractData :=
  {| data_session_id := SidString "s1"; data_title := "Mix";
     data_videos := [item "a" "A"; item "b" "B"; item "a" "A"] |}.

(** The first card in document order that carries [videoId]: the card that
    [document.querySelector] finds for it when [videoId] is
    [selector_safe]. *)
Definition card_of (videoId : string) (cs : list card) : option card :=
  List.find (λ k, String.eqb (dataset_videoId k) videoId) cs.

(** The status class that a card ends with for an outcome of its request. *)
Definition final_status (o : downloadOutcome) : string :=
  if download_ok o then "complete" else "error".

(** The three status classes of a card. *)
Definition status_classes : gset string :=
  {[ "downloading"; "complete"; "error" ]}.

(** The text set on the error line of a card for a failed request. *)
Definition download_error_message (o : downloadOutcome) : string :=
  match o with
  | DlRejected msg => if String.eqb msg "" then "Download failed" else msg
  | DlNotOk detail => js_or detail "Download failed"
  | DlOk _ => ""
  end.

(** The card [k'] is the card [k] after its request ended with [o]: among
    the status classes it has the final one only, its other classes, its
    identifier and its markup are those of [k]; a success fills the progress
    and sets the check mark, a failure sets the bang and the error text. *)
Definition resolved_card (o : downloadOutcome) (k k' : card) : Prop :=
  dataset_videoId k' = dataset_videoId k
  ∧ card_innerHTML k' = card_innerHTML k
  ∧ (∀ c, c ∈ card_classList k'
          ↔ (c ∈ card_classList k ∧ c ∉ status_classes) ∨ c = final_status o)
  ∧ (if download_ok o
     then status_icon_innerHTML k' = "&#10003;"
          ∧ fill_width k' = Some (number_of_nat 100)
          ∧ error_msg_text k' = error_msg_text k
     else status_icon_innerHTML k' = "!"
          ∧ fill_width k' = fill_width k
          ∧ error_msg_text k' = download_error_message o).

(** * Properties *)

Local Open Scope list_scope.

(** ** The [Set] operations *)
Section jsset_facts.
Implicit Types (x y : string) (s : list string).

Lemma has_true x s : JSSet.has x s = true ↔ x ∈ s.
Proof. unfold JSSet.has. apply bool_decide_eq_true. Qed.

Lemma has_false x s : JSSet.has x s = false ↔ x ∉ s.
Proof. unfold JSSet.has. apply bool_decide_eq_false. Qed.

Lemma elem_of_add y x s : y ∈ JSSet.add x s ↔ y = x ∨ y ∈ s.
Proof.
  unfold JSSet.add. destruct (JSSet.has x s) eqn:E.
  - apply has_true in E. split; [auto | intros [-> | ?]; auto].
  - rewrite elem_of_app, list_elem_of_singleton. tauto.
Qed.

Lemma elem_of_delete y x s : y ∈ JSSet.delete x s ↔ y ≠ x ∧ y ∈ s.
Proof. unfold JSSet.delete. rewrite list_elem_of_filter. tauto. Qed.

Lemma add_mono x s : s ⊆ JSSet.add x s.
Proof. intros y Hy. apply elem_of_add. auto. Qed.

Lemma NoDup_add x s : NoDup s → NoDup (JSSet.add x s).
Proof.
  intros Hs. unfold JSSet.add. destruct (JSSet.has x s) eqn:E; [done |].
  apply has_false in E. apply NoDup_app. split_and!; [done | | apply NoDup_singleton].
  intros y Hy ->%list_elem_of_singleton. done.
Qed.

Lemma NoDup_delete x s : NoDup s → NoDup (JSSet.delete x s).
Proof. apply NoDup_filter. Qed.

Lemma members_add x s : JSSet.members (JSSet.add x s) = {[ x ]} ∪ JSSet.members s.
Proof.
  apply set_eq. intros y. unfold JSSet.members.
  rewrite elem_of_union, !elem_of_list_to_set, elem_of_add, elem_of_singleton.
  tauto.
Qed.

Lemma members_delete x s :
  JSSet.members (JSSet.delete x s) = JSSet.members s ∖ {[ x ]}.
Proof.
  apply set_eq. intros y. unfold JSSet.members.
  rewrite elem_of_difference, !elem_of_list_to_set, elem_of_delete,
    elem_of_singleton.
  tauto.
Qed.

Lemma size_add_pos x s : 0 < JSSet.size (JSSet.add x s).
Proof.
  unfold JSSet.size, JSSet.add. destruct (JSSet.has x s) eqn:E.
  - apply has_true in E. destruct s; [by apply elem_of_nil in E | simpl; lia].
  - rewrite length_app. simpl. lia.
Qed.

Lemma NoDup_of_list l : NoDup (JSSet.of_list l).
Proof.
  unfold JSSet.of_list. generalize (NoDup_nil_2 (A:=string)).
  unfold JSSet.empty. generalize (@nil string) as acc.
  induction l as [| x l IH]; intros acc Hacc; simpl; [done |].
  apply IH. by apply NoDup_add.
Qed.

Lemma elem_of_of_list y l : y ∈ JSSet.of_list l ↔ y ∈ l.
Proof.
  unfold JSSet.of_list, JSSet.empty.
  assert (∀ acc, y ∈ foldl (λ s x, JSSet.add x s) acc l ↔ y ∈ acc ∨ y ∈ l) as H.
  { induction l as [| x l IH]; intros acc; simpl.
    - rewrite elem_of_nil. tauto.
    - rewrite IH, elem_of_add, elem_of_cons. tauto. }
  rewrite H, elem_of_nil. tauto.
Qed.

(** Toggling membership twice gives back the same members. *)
Lemma members_toggle_twice x s :
  JSSet.members
    (let s1 := if JSSet.has x s then JSSet.delete x s else JSSet.add x s in
     if JSSet.has x s1 then JSSet.delete x s1 else JSSet.add x s1)
  = JSSet.members s.
Proof.
  simpl. destruct (JSSet.has x s) eqn:E.
  - assert (JSSet.has x (JSSet.delete x s) = false) as ->.
    { apply has_false. rewrite elem_of_delete. tauto. }
    rewrite members_add, members_delete. apply has_true in E.
    apply set_eq. intros y.
    rewrite elem_of_union, elem_of_difference, elem_of_singleton.
    unfold JSSet.members. rewrite elem_of_list_to_set.
    destruct (decide (y = x)) as [-> | ?]; tauto.
  - assert (JSSet.has x (JSSet.add x s) = true) as ->.
    { apply has_true. rewrite elem_of_add. tauto. }
    rewrite members_delete, members_add. apply has_false in E.
    apply set_eq. intros y.
    rewrite elem_of_difference, elem_of_union, elem_of_singleton.
    unfold JSSet.members. rewrite elem_of_list_to_set.
    destruct (decide (y = x)) as [-> | ?]; tauto.
Qed.

End jsset_facts.

(** ** Selection toggles *)

Lemma public_toggleSelection_selectedIds videoId i w :
  Public.selectedIds (Public.st (Public.toggleSelection videoId i w)) =
  if JSSet.has videoId (Public.selectedIds (Public.st w))
  then JSSet.delete videoId (Public.selectedIds (Public.st w))
  else JSSet.add videoId (Public.selectedIds (Public.st w)).
Proof.
  unfold Public.toggleSelection.
  destruct (JSSet.has videoId (Public.selectedIds (Public.st w))); reflexivity.
Qed.

Lemma static_toggleSelection_selectedIds videoId i w :
  Static.selectedIds (Static.st (Static.toggleSelection videoId i w)) =
  if JSSet.has videoId (Static.selectedIds (Static.st w))
  then JSSet.delete videoId (Static.selectedIds (Static.st w))
  else JSSet.add videoId (Static.selectedIds (Static.st w)).
Proof.
  unfold Static.toggleSelection.
  destruct (JSSet.has videoId (Static.selectedIds (Static.st w))); reflexivity.
Qed.

Lemma toggleSelection_members_public videoId i j (w : Public.world) :
  JSSet.members
    (Public.selectedIds
       (Public.st (Public.toggleSelection videoId j
                     (Public.toggleSelection videoId i w))))
  = JSSet.members (Public.selectedIds (Public.st w)).
Proof.
  rewrite !public_toggleSelection_selectedIds.
  apply (members_toggle_twice videoId (Public.selectedIds (Public.st w))).
Qed.

Lemma toggleSelection_members_static videoId i j (v : Static.world) :
  JSSet.members
    (Static.selectedIds
       (Static.st (Static.toggleSelection videoId j
                     (Static.toggleSelection videoId i v))))
  = JSSet.members (Static.selectedIds (Static.st v)).
Proof.
  rewrite !static_toggleSelection_selectedIds.
  apply (members_toggle_twice videoId (Static.selectedIds (Static.st v))).
Qed.

(** C9.  In both variants, two successive calls of [toggleSelection] on the
    same identifier (whatever cards they are given, and whether or not the
    identifier is an item of the playlist) leave the selection set with
    exactly the members it had before. *)
Theorem toggleSelection_twice_members :
  ∀ (videoId : string) (i j : nat) (w : Public.world) (v : Static.world),
    JSSet.members
      (Public.selectedIds
         (Public.st (Public.toggleSelection videoId j
                       (Public.toggleSelection videoId i w))))
    = JSSet.members (Public.selectedIds (Public.st w))
    ∧
    JSSet.members
      (Static.selectedIds
         (Static.st (Static.toggleSelection videoId j
                       (Static.toggleSelection videoId i v))))
    = JSSet.members (Static.selectedIds (Static.st v)).
Proof.
  intros videoId i j w v. split.
  - apply toggleSelection_members_public.
  - apply toggleSelection_members_static.
Qed.

(** With the selection free of duplicates, as a [Set] is, the two toggles
    give back the same members as many times; only their order of iteration
    can differ, a member deleted and added again being last. *)
Lemma toggleSelection_twice_permutation videoId i j (w : Public.world) :
  NoDup (Public.selectedIds (Public.st w)) →
  Public.selectedIds
    (Public.st (Public.toggleSelection videoId j
                  (Public.toggleSelection videoId i w)))
  ≡ₚ Public.selectedIds (Public.st w).
Proof.
  intros Hnd. apply NoDup_Permutation; [| done |].
  - rewrite !public_toggleSelection_selectedIds.
    repeat (destruct (JSSet.has _ _));
      repeat first [apply NoDup_add | apply NoDup_delete]; done.
  - intros x.
    pose proof (toggleSelection_members_public videoId i j w) as H.
    unfold JSSet.members in H.
    rewrite <- (elem_of_list_to_set (C:=gset string)), H,
      elem_of_list_to_set. done.
Qed.

Example toggleSelection_twice_order :
  Public.selectedIds
    (Public.st (Public.toggleSelection "a" 0
                  (Public.toggleSelection "a" 0
                     (public_loaded [item "a" "A"; item "b" "B"]))))
  = ["b"; "a"].
Proof. reflexivity. Qed.

(** ** Items that are not in the playlist *)

Lemma find_video_None videoId vs :
  find_video videoId vs = None ↔ videoId ∉ map video_id vs.
Proof.
  unfold find_video. induction vs as [| v vs IH]; simpl.
  - split; [intros _; apply not_elem_of_nil | done].
  - rewrite not_elem_of_cons. destruct (String.eqb_spec (video_id v) videoId) as [E | E].
    + split; [done | intros [H _]; by destruct H].
    + rewrite IH. split; [intros H; split; [congruence | done] | tauto].
Qed.

Lemma find_video_Some videoId vs :
  videoId ∈ map video_id vs →
  ∃ v, find_video videoId vs = Some v ∧ video_id v = videoId.
Proof.
  intros Hin. destruct (find_video videoId vs) as [v |] eqn:E.
  - exists v. split; [done |]. unfold find_video in E.
    apply List.find_some in E as [_ E]. by apply String.eqb_eq in E.
  - apply find_video_None in E. done.
Qed.

Example public_loaded_selects_all :
  Public.selectedIds (Public.st (public_loaded [item "a" "A"; item "b" "B"]))
  = ["a"; "b"].
Proof. reflexivity. Qed.

(** ** Extraction *)

(** C10.  When the extraction request does not end in a decoded body of an
    ok response (the request is rejected, the response is not ok, or reading
    the body throws), [extractPlaylist] leaves every module-level variable as
    it was, in both variants: [videos], [selectedIds], [downloadedIds],
    [errorIds], [allSelected] and, in the push-stream variant, [sessionId]
    and [playlistTitle]. *)
Theorem extractPlaylist_failure_keeps_variables :
  ∀ (outcome : extractOutcome) (w : Public.world) (v : Static.world),
    extract_decoded outcome = false →
    Public.st (Public.extractPlaylist outcome w) = Public.st w
    ∧ Static.st (Static.extractPlaylist outcome v) = Static.st v.
Proof.
  intros outcome w v Hfail. split.
  - unfold Public.extractPlaylist.
    destruct (String.eqb _ ""); [reflexivity |].
    destruct (negb _); [reflexivity |].
    destruct outcome as [msg | [msg | detail] | [msg | data]];
      try reflexivity; discriminate.
  - unfold Static.extractPlaylist.
    destruct (String.eqb _ ""); [reflexivity |].
    destruct (negb _); [reflexivity |].
    destruct outcome as [msg | [msg | detail] | [msg | data]];
      try reflexivity; discriminate.
Qed.

Lemma extractPlaylist_failure_keeps_variables_witness :
  Public.fetches
    (Public.extractPlaylist (ExtractNotOk (Parsed (Some "No videos found")))
       public_retyped)
  = (Public.fetches public_retyped ++
     [ {| req_method := "POST"; req_url := "/api/extract";
          req_body := [("url", "https://example.org/other")] |} ])%list
  ∧ Public.st
      (Public.extractPlaylist (ExtractNotOk (Parsed (Some "No videos found")))
         public_retyped)
    = Public.st public_retyped
  ∧ Static.st
      (Static.extractPlaylist (ExtractNotOk (Parsed (Some "No videos found")))
         static_retyped)
    = Static.st static_retyped.
Proof.
  split; [reflexivity |].
  exact (extractPlaylist_failure_keeps_variables
           (ExtractNotOk (Parsed (Some "No videos found")))
           public_retyped static_retyped eq_refl).
Defined.

(** A decoded body replaces the playlist, selects every item and empties the
    completed and error sets (the URL typed in being acceptable). *)
Lemma public_extractPlaylist_loaded data w :
  let url := trim (value (el (Public.page w) urlInput)) in
  String.eqb url "" = false → String.prefix "http" url = true →
  let w' := Public.extractPlaylist (ExtractOk (Parsed data)) w in
  Public.videos (Public.st w') = data_videos data
  ∧ Public.selectedIds (Public.st w') = JSSet.of_list (map video_id (data_videos data))
  ∧ Public.downloadedIds (Public.st w') = []
  ∧ Public.errorIds (Public.st w') = []
  ∧ Public.allSelected (Public.st w') = true.
Proof.
  intros url H1 H2. subst url. unfold Public.extractPlaylist.
  rewrite H1, H2. simpl. done.
Qed.

Lemma static_extractPlaylist_loaded data w :
  let url := trim (value (el (Static.page w) urlInput)) in
  String.eqb url "" = false → String.prefix "http" url = true →
  let w' := Static.extractPlaylist (ExtractOk (Parsed data)) w in
  Static.videos (Static.st w') = data_videos data
  ∧ Static.selectedIds (Static.st w') = JSSet.of_list (map video_id (data_videos data))
  ∧ Static.downloadedIds (Static.st w') = []
  ∧ Static.errorIds (Static.st w') = []
  ∧ Static.allSelected (Static.st w') = true
  ∧ Static.sessionId (Static.st w') = data_session_id data.
Proof.
  intros url H1 H2. subst url. unfold Static.extractPlaylist.
  rewrite H1, H2. simpl. done.
Qed.

(** ** New Playlist *)

(** C8, as stated, fails in the sequential variant: a click on New Playlist
    while a download run is in progress returns at the guard, and the
    selection and error sets keep their members. *)
Lemma newPlaylist_click_ignored_mid_run :
  Public.isDownloading (Public.st public_mid_run) = true
  ∧ Public.selectedIds (Public.st (Public.newPlaylist_click public_mid_run))
    = ["a"; "b"]
  ∧ Public.errorIds (Public.st (Public.newPlaylist_click public_mid_run))
    = ["a"].
Proof. split_and!; reflexivity. Qed.

(** C8, amended.  In the sequential variant a click on New Playlist is
    ignored while a download run is in progress; otherwise it empties the
    playlist and the selection, completed and error sets, and sends nothing.
    In the push-stream variant the click always empties them and resets
    [sessionId]; it sends exactly one [DELETE /api/session/<id>] request when
    [sessionId] is truthy (a non-empty string) and none otherwise, and the
    state it leaves does not depend on whether that request succeeds. *)
Theorem newPlaylist_click_resets :
  ∀ (w : Public.world) (v : Static.world) (released released' : bool),
    (let w' := Public.newPlaylist_click w in
     if Public.isDownloading (Public.st w) then w' = w
     else Public.videos (Public.st w') = []
          ∧ Public.selectedIds (Public.st w') = []
          ∧ Public.downloadedIds (Public.st w') = []
          ∧ Public.errorIds (Public.st w') = []
          ∧ Public.fetches w' = Public.fetches w)
    ∧
    (let v' := Static.newPlaylist_click released v in
     Static.videos (Static.st v') = []
     ∧ Static.selectedIds (Static.st v') = []
     ∧ Static.downloadedIds (Static.st v') = []
     ∧ Static.errorIds (Static.st v') = []
     ∧ Static.sessionId (Static.st v') = SidNull
     ∧ Static.fetches v' =
         (Static.fetches v ++
          (if sid_truthy (Static.sessionId (Static.st v))
           then [ {| req_method := "DELETE";
                     req_url := "/api/session/" +:+
                                show_sid (Static.sessionId (Static.st v));
                     req_body := [] |} ]
           else []))%list
     ∧ Static.newPlaylist_click released' v = v').
Proof.
  intros w v released released'. split.
  - unfold Public.newPlaylist_click.
    destruct (Public.isDownloading (Public.st w)); [reflexivity |].
    simpl. done.
  - unfold Static.newPlaylist_click.
    destruct (sid_truthy (Static.sessionId (Static.st v))); simpl;
      rewrite ?app_nil_r; done.
Qed.

(** ** The push stream *)

(** C6.  A transport failure of the subscription ([evtSource.onerror])
    closes the subscription, sets the connectivity message on the status
    line and re-enables the download and select-all buttons; no card changes
    (every item keeps the status, icon, progress and error text it last
    had), no variable changes and neither tally moves; nothing is delivered
    on the closed subscription afterwards. *)
Theorem onerror_closes_and_keeps_items :
  ∀ (r : Static.run) (w : Static.world) (d : Static.delivery),
    let rw' := Static.onerror (r, w) in
    Static.closed (fst rw') = true
    ∧ textContent (el (Static.page (snd rw')) downloadStatus)
      = "Connection lost. Refresh if downloads didn't complete."
    ∧ disabled (el (Static.page (snd rw')) downloadSelectedBtn) = false
    ∧ disabled (el (Static.page (snd rw')) selectAllBtn) = false
    ∧ cards (Static.page (snd rw')) = cards (Static.page w)
    ∧ Static.st (snd rw') = Static.st w
    ∧ Static.completedCount (fst rw') = Static.completedCount r
    ∧ Static.errorCount (fst rw') = Static.errorCount r
    ∧ Static.deliver d rw' = rw'.
Proof. intros r w d. simpl. split_and!; reflexivity. Qed.

(** What one message does to the variables and to the closure of the
    run. *)
Ltac by_event_type ty :=
  repeat match goal with
         | |- context [String.eqb ty ?c] =>
             destruct (String.eqb_spec ty c) as [-> | ?]; simpl
         end.

Lemma onmessage_spec (data : Static.sseEvent) (rw : Static.run * Static.world) :
  let rw' := Static.onmessage data rw in
  let ty := Static.event_type data in
  let id := Static.ev_video_id data in
  Static.downloadedIds (Static.st (snd rw'))
  = (if String.eqb ty "complete"
     then JSSet.add id (Static.downloadedIds (Static.st (snd rw)))
     else Static.downloadedIds (Static.st (snd rw)))
  ∧ Static.errorIds (Static.st (snd rw'))
    = (if String.eqb ty "error"
       then JSSet.add id (Static.errorIds (Static.st (snd rw)))
       else Static.errorIds (Static.st (snd rw)))
  ∧ Static.completedCount (fst rw')
    = (if String.eqb ty "complete" then S (Static.completedCount (fst rw))
       else Static.completedCount (fst rw))
  ∧ Static.errorCount (fst rw')
    = (if String.eqb ty "error" then S (Static.errorCount (fst rw))
       else Static.errorCount (fst rw))
  ∧ Static.totalCount (fst rw') = Static.totalCount (fst rw)
  ∧ Static.closed (fst rw')
    = (Static.closed (fst rw) || String.eqb ty "all_complete")
  ∧ Static.selectedIds (Static.st (snd rw'))
    = Static.selectedIds (Static.st (snd rw))
  ∧ Static.videos (Static.st (snd rw')) = Static.videos (Static.st (snd rw)).
Proof.
  destruct rw as [r w]. destruct data as [ty id ttl pc sp m].
  unfold Static.onmessage. simpl.
  by_event_type ty; rewrite ?orb_false_r, ?orb_true_r;
    repeat match goal with
           | |- context [if ?b then _ else _] => destruct b
           end; simpl; done.
Qed.

(** The end of a run: the summary, the buttons and the ZIP section. *)
Lemma onmessage_all_complete (data : Static.sseEvent)
    (rw : Static.run * Static.world) :
  Static.event_type data = "all_complete" →
  let rw' := Static.onmessage data rw in
  textContent (el (Static.page (snd rw')) downloadStatus)
  = summary_text (Static.completedCount (fst rw)) (Static.errorCount (fst rw))
  ∧ disabled (el (Static.page (snd rw')) downloadSelectedBtn) = false
  ∧ disabled (el (Static.page (snd rw')) selectAllBtn) = false
  ∧ (0 < JSSet.size (Static.downloadedIds (Static.st (snd rw))) →
     "hidden" ∉ classList (el (Static.page (snd rw')) zipSection)).
Proof.
  destruct rw as [r w]. destruct data as [ty id ttl pc sp m].
  simpl. intros ->. unfold Static.onmessage. simpl.
  destruct (summary_marks_complete _ _); simpl;
    (destruct (Nat.ltb_spec 0 (JSSet.size (Static.downloadedIds (Static.st w))));
     simpl; split_and!; try reflexivity; intros Hpos; [| lia];
     rewrite elem_of_difference, elem_of_singleton; tauto).
Qed.

Lemma deliver_message_open (data : Static.sseEvent)
    (rw : Static.run * Static.world) :
  Static.closed (fst rw) = false →
  Static.deliver (Static.Message data) rw = Static.onmessage data rw.
Proof. unfold Static.deliver. by intros ->. Qed.

(** Take the next message of an open subscription: [rw'] names the state it
    leaves and [H] what [onmessage_spec] says of it. *)
Ltac next_message rw rw' H :=
  match goal with
  | |- context [Static.deliver (Static.Message ?d) rw] =>
      rewrite (deliver_message_open d rw) by assumption;
      pose proof (onmessage_spec d rw) as H; cbv zeta in H;
      remember (Static.onmessage d rw) as rw' eqn:Heq_next; clear Heq_next;
      simpl in H
  end.

(** C4.  In the push-stream variant, a run over the two items [a] and [b]
    that receives [downloading(a)], [progress(a, 50)], [complete(a)],
    [error(b)], [all_complete] ends with the status line
    [1 downloaded, 1 failed], with the tallies 1 and 1, with the subscription
    closed and the buttons enabled, and with the ZIP section shown (its class
    [hidden] removed, the completed set being non-empty). *)
Theorem push_stream_scenario_summary :
  ∀ (a b : string) (ta speed msg : option string) (w : Static.world),
    let end_ := Static.deliver_all (scenario a b ta speed msg)
                  (Static.startDownload [a; b] w) in
    textContent (el (Static.page (snd end_)) downloadStatus)
    = "1 downloaded, 1 failed"
    ∧ Static.completedCount (fst end_) = 1
    ∧ Static.errorCount (fst end_) = 1
    ∧ Static.closed (fst end_) = true
    ∧ ("hidden" ∉ classList (el (Static.page (snd end_)) zipSection))
    ∧ disabled (el (Static.page (snd end_)) downloadSelectedBtn) = false
    ∧ disabled (el (Static.page (snd end_)) selectAllBtn) = false.
Proof.
  intros a b ta speed msg w.
  unfold scenario, Static.deliver_all. simpl foldl.
  assert (Static.closed (fst (Static.startDownload [a; b] w)) = false
          ∧ Static.completedCount (fst (Static.startDownload [a; b] w)) = 0
          ∧ Static.errorCount (fst (Static.startDownload [a; b] w)) = 0)
    as (Hc0 & Hn0 & He0) by (split_and!; reflexivity).
  remember (Static.startDownload [a; b] w) as rw0 eqn:E0. clear E0.
  next_message rw0 rw1 H1. destruct H1 as (_ & _ & Hn1 & He1 & _ & Hc1 & _).
  rewrite Hc0 in Hc1. simpl in Hc1.
  next_message rw1 rw2 H2. destruct H2 as (_ & _ & Hn2 & He2 & _ & Hc2 & _).
  rewrite Hc1 in Hc2. simpl in Hc2.
  next_message rw2 rw3 H3. destruct H3 as (Hd3 & _ & Hn3 & He3 & _ & Hc3 & _).
  rewrite Hc2 in Hc3. simpl in Hc3.
  next_message rw3 rw4 H4. destruct H4 as (Hd4 & _ & Hn4 & He4 & _ & Hc4 & _).
  rewrite Hc3 in Hc4. simpl in Hc4.
  match goal with
  | |- context [Static.deliver (Static.Message ?d) rw4] =>
      pose proof (onmessage_all_complete d rw4 eq_refl) as Hend;
      cbv zeta in Hend
  end.
  next_message rw4 rw5 H5. destruct H5 as (_ & _ & Hn5 & He5 & _ & Hc5 & _).
  destruct Hend as (Htxt & Hb1 & Hb2 & Hzip).
  assert (Static.completedCount (fst rw4) = 1) as N4 by congruence.
  assert (Static.errorCount (fst rw4) = 1) as E4 by congruence.
  rewrite N4, E4 in Htxt.
  split_and!; try done; try congruence.
  - by rewrite Hc5, orb_true_r.
  - apply Hzip. rewrite Hd4, Hd3. apply size_add_pos.
Qed.

(** ** Numbers

    The division and the multiplication behind the aggregate progress,
    for counts as they occur: below [2 ^ 53], where the Number of a count is
    the count. *)
Section binary64.
Import SpecFloat.
Local Open Scope Z_scope.

















End binary64.

(** ** The sequential download loop *)

Section download_loop_facts.
Import Public.

(** One iteration, on the variables. *)
Lemma download_one_vars outcome totalCount videoId (tw : tally * world) :
  let tw' := download_one outcome totalCount videoId tw in
  let found := bool_decide (videoId ∈ map video_id (videos (st (snd tw)))) in
  videos (st (snd tw')) = videos (st (snd tw))
  ∧ selectedIds (st (snd tw')) = selectedIds (st (snd tw))
  ∧ isDownloading (st (snd tw')) = isDownloading (st (snd tw))
  ∧ downloadedIds (st (snd tw'))
    = (if found && download_ok outcome
       then JSSet.add videoId (downloadedIds (st (snd tw)))
       else downloadedIds (st (snd tw)))
  ∧ errorIds (st (snd tw'))
    = (if found && negb (download_ok outcome)
       then JSSet.add videoId (errorIds (st (snd tw)))
       else errorIds (st (snd tw))).
Proof.
  destruct tw as [t w]. simpl. unfold download_one.
  destruct (find_video videoId (videos (st w))) as [v |] eqn:E.
  - assert (videoId ∈ map video_id (videos (st w))) as Hin.
    { destruct (decide (videoId ∈ map video_id (videos (st w)))) as [? | Hn];
        [done |]. apply find_video_None in Hn. congruence. }
    rewrite (bool_decide_eq_true_2 _ Hin).
    destruct outcome; simpl; done.
  - apply find_video_None in E. rewrite (bool_decide_eq_false_2 _ E).
    simpl. done.
Qed.

(** One iteration for an item of the playlist: one request is sent and one
    of the two tallies moves. *)
Lemma download_one_found outcome totalCount videoId (tw : tally * world) :
  videoId ∈ map video_id (videos (st (snd tw))) →
  let tw' := download_one outcome totalCount videoId tw in
  completedCount (fst tw')
  = (if download_ok outcome then S (completedCount (fst tw))
     else completedCount (fst tw))
  ∧ errorCount (fst tw')
    = (if download_ok outcome then errorCount (fst tw)
       else S (errorCount (fst tw)))
  ∧ length (fetches (snd tw')) = S (length (fetches (snd tw))).
Proof.
  destruct tw as [t w]. simpl. intros Hin.
  destruct (find_video_Some _ _ Hin) as (v & Hv & _).
  unfold download_one. rewrite Hv.
  destruct outcome; simpl; rewrite length_app; simpl;
    (split_and!; [reflexivity | reflexivity | lia]).
Qed.


Lemma set_style_width_keeps (x : number) (e : element) :
  textContent (set_style_width x e) = textContent e
  ∧ value (set_style_width x e) = value e
  ∧ disabled (set_style_width x e) = disabled e
  ∧ classList (set_style_width x e) = classList e.
Proof. unfold set_style_width. by destruct (percent_value x). Qed.

Lemma set_fill_width_keeps (x : number) (k : card) :
  dataset_videoId (set_fill_width x k) = dataset_videoId k
  ∧ card_classList (set_fill_width x k) = card_classList k
  ∧ card_innerHTML (set_fill_width x k) = card_innerHTML k
  ∧ status_icon_innerHTML (set_fill_width x k) = status_icon_innerHTML k
  ∧ error_msg_text (set_fill_width x k) = error_msg_text k.
Proof. unfold set_fill_width. by destruct (percent_value x). Qed.


(** The loop, on the variables it does not write. *)
Lemma download_loop_vars net totalCount videoIds :
  ∀ i (tw : tally * world),
    let tw' := download_loop net i totalCount videoIds tw in
    videos (st (snd tw')) = videos (st (snd tw))
    ∧ selectedIds (st (snd tw')) = selectedIds (st (snd tw))
    ∧ isDownloading (st (snd tw')) = isDownloading (st (snd tw)).
Proof.
  induction videoIds as [| videoId rest IH]; intros i tw; simpl; [done |].
  destruct (IH (S i) (download_one (net i) totalCount videoId tw)) as (H1 & H2 & H3).
  destruct (download_one_vars (net i) totalCount videoId tw) as (G1 & G2 & G3 & _).
  simpl in *. split_and!; congruence.
Qed.

(** The completed set after the loop: what was in it before, and the items
    of the playlist whose request succeeded. *)
Lemma download_loop_downloadedIds net totalCount videoIds :
  ∀ i (tw : tally * world) (x : string),
    x ∈ downloadedIds (st (snd (download_loop net i totalCount videoIds tw)))
    ↔ x ∈ downloadedIds (st (snd tw))
      ∨ (x ∈ map video_id (videos (st (snd tw)))
         ∧ ∃ k, videoIds !! k = Some x ∧ download_ok (net (i + k)) = true).
Proof.
  induction videoIds as [| videoId rest IH]; intros i tw x; simpl.
  - split; [auto | intros [? | (_ & k & Hk & _)]; [done | by destruct k]].
  - rewrite IH.
    destruct (download_one_vars (net i) totalCount videoId tw)
      as (Hv & _ & _ & Hd & _). simpl in Hv, Hd. rewrite Hv, Hd.
    split.
    + intros [Hx | (Hp & k & Hk & Hok)].
      * destruct (bool_decide _) eqn:Hf; simpl in Hx;
          [destruct (download_ok (net i)) eqn:Ho; simpl in Hx |]; auto.
        apply elem_of_add in Hx as [-> | ?]; [| auto].
        right. split; [by apply bool_decide_eq_true in Hf |].
        exists 0. by rewrite Nat.add_0_r.
      * right. split; [done |]. exists (S k). by rewrite Nat.add_succ_r.
    + intros [Hx | (Hp & k & Hk & Hok)].
      * left. destruct (_ && _); [apply elem_of_add |]; auto.
      * destruct k as [| k]; simpl in Hk.
        -- injection Hk as ->. rewrite Nat.add_0_r in Hok. left.
           rewrite (bool_decide_eq_true_2 _ Hp), Hok. simpl.
           apply elem_of_add. auto.
        -- right. split; [done |]. exists k. by rewrite Nat.add_succ_r in Hok.
Qed.

(** The error set after the loop: what was in it before, and the items of
    the playlist whose request failed. *)
Lemma download_loop_errorIds net totalCount videoIds :
  ∀ i (tw : tally * world) (x : string),
    x ∈ errorIds (st (snd (download_loop net i totalCount videoIds tw)))
    ↔ x ∈ errorIds (st (snd tw))
      ∨ (x ∈ map video_id (videos (st (snd tw)))
         ∧ ∃ k, videoIds !! k = Some x ∧ download_ok (net (i + k)) = false).
Proof.
  induction videoIds as [| videoId rest IH]; intros i tw x; simpl.
  - split; [auto | intros [? | (_ & k & Hk & _)]; [done | by destruct k]].
  - rewrite IH.
    destruct (download_one_vars (net i) totalCount videoId tw)
      as (Hv & _ & _ & _ & He). simpl in Hv, He. rewrite Hv, He.
    split.
    + intros [Hx | (Hp & k & Hk & Hok)].
      * destruct (bool_decide _) eqn:Hf; simpl in Hx;
          [destruct (download_ok (net i)) eqn:Ho; simpl in Hx |]; auto.
        apply elem_of_add in Hx as [-> | ?]; [| auto].
        right. split; [by apply bool_decide_eq_true in Hf |].
        exists 0. by rewrite Nat.add_0_r.
      * right. split; [done |]. exists (S k). by rewrite Nat.add_succ_r.
    + intros [Hx | (Hp & k & Hk & Hok)].
      * left. destruct (_ && _); [apply elem_of_add |]; auto.
      * destruct k as [| k]; simpl in Hk.
        -- injection Hk as ->. rewrite Nat.add_0_r in Hok. left.
           rewrite (bool_decide_eq_true_2 _ Hp), Hok. simpl.
           apply elem_of_add. auto.
        -- right. split; [done |]. exists k. by rewrite Nat.add_succ_r in Hok.
Qed.

(** The loop over items of the playlist: every iteration sends its request
    and moves one tally, whatever the outcomes before it. *)
Lemma download_loop_found net totalCount videoIds :
  ∀ i (tw : tally * world),
    (∀ x, x ∈ videoIds → x ∈ map video_id (videos (st (snd tw)))) →
    let tw' := download_loop net i totalCount videoIds tw in
    completedCount (fst tw') + errorCount (fst tw')
    = completedCount (fst tw) + errorCount (fst tw) + length videoIds
    ∧ length (fetches (snd tw')) = length (fetches (snd tw)) + length videoIds.
Proof.
  induction videoIds as [| videoId rest IH]; intros i tw Hin; simpl.
  - split_and!; lia.
  - assert (videoId ∈ map video_id (videos (st (snd tw)))) as Hid
      by (apply Hin; left).
    destruct (download_one_found (net i) totalCount videoId tw Hid)
      as (Hc & He & Hf).
    destruct (download_one_vars (net i) totalCount videoId tw) as (Hv & _).
    simpl in Hc, He, Hf, Hv.
    destruct (IH (S i) (download_one (net i) totalCount videoId tw))
      as (IH1 & IH2).
    { intros x Hx. rewrite Hv. apply Hin. by right. }
    simpl in IH1, IH2. split_and!; [| lia].
    rewrite IH1, Hc, He. destruct (download_ok (net i)); lia.
Qed.




(** The statements after the loop. *)
Lemma download_end_spec (tw : tally * world) :
  fst (download_end tw) = fst tw
  ∧ downloadedIds (st (snd (download_end tw))) = downloadedIds (st (snd tw))
  ∧ errorIds (st (snd (download_end tw))) = errorIds (st (snd tw))
  ∧ fetches (snd (download_end tw)) = fetches (snd tw)
  ∧ textContent (el (page (snd (download_end tw))) overallProgress)
    = textContent (el (page (snd tw)) overallProgress)
  ∧ style_width (el (page (snd (download_end tw))) overallProgressFill)
    = style_width (el (page (snd tw)) overallProgressFill)
  ∧ isDownloading (st (snd (download_end tw))) = false.
Proof.
  destruct tw as [t w]. unfold download_end.
  destruct (summary_marks_complete _ _); simpl; done.
Qed.

End download_loop_facts.

(** C2, as stated, fails: with the playlist [a] loaded, [toggleSelection]
    on an identifier that is no item of it adds it to the selection, and a
    [complete] or [error] event of the stream for it records it. *)
Lemma unknown_id_is_not_ignored :
  let w := public_loaded [item "a" "A"] in
  let v := static_loaded [item "a" "A"] in
  let r := fst (Static.startDownload ["a"] v) in
  ("ghost" ∉ map video_id (Public.videos (Public.st w)))
  ∧ ("ghost" ∉ map video_id (Static.videos (Static.st v)))
  ∧ Public.selectedIds (Public.st (Public.toggleSelection "ghost" 0 w))
    ≠ Public.selectedIds (Public.st w)
  ∧ Static.selectedIds (Static.st (Static.toggleSelection "ghost" 0 v))
    ≠ Static.selectedIds (Static.st v)
  ∧ Static.downloadedIds
      (Static.st (snd (Static.onmessage (event "complete" "ghost") (r, v))))
    ≠ Static.downloadedIds (Static.st v)
  ∧ Static.errorIds
      (Static.st (snd (Static.onmessage (event "error" "ghost") (r, v))))
    ≠ Static.errorIds (Static.st v).
Proof.
  cbv zeta. split_and!.
  - apply find_video_None. reflexivity.
  - apply find_video_None. reflexivity.
  - rewrite public_toggleSelection_selectedIds. discriminate.
  - rewrite static_toggleSelection_selectedIds. discriminate.
  - discriminate.
  - discriminate.
Qed.

(** C2, amended.  In the sequential variant an identifier that is no item
    of the current playlist is skipped by the download loop: its iteration
    changes nothing (no request is sent, neither tally moves, the state is
    as before), and over a whole run, whatever else the run downloads, such
    an identifier enters neither the completed nor the error set, and the
    selection is as before. *)
Theorem download_skips_unknown_id :
  ∀ (outcome : downloadOutcome) (totalCount : nat) (videoId : string)
    (t : tally) (w : Public.world)
    (net : nat → downloadOutcome) (videoIds : list string),
    videoId ∉ map video_id (Public.videos (Public.st w)) →
    let w' := snd (Public.startDownloads net videoIds w) in
    Public.download_one outcome totalCount videoId (t, w) = (t, w)
    ∧ (videoId ∈ Public.downloadedIds (Public.st w')
       ↔ videoId ∈ Public.downloadedIds (Public.st w))
    ∧ (videoId ∈ Public.errorIds (Public.st w')
       ↔ videoId ∈ Public.errorIds (Public.st w))
    ∧ Public.selectedIds (Public.st w') = Public.selectedIds (Public.st w).
Proof.
  intros outcome totalCount videoId t w net videoIds Hnot. simpl.
  split.
  { apply find_video_None in Hnot. unfold Public.download_one. by rewrite Hnot. }
  unfold Public.startDownloads.
  destruct (download_end_spec
              (Public.download_loop net 0 (length videoIds) videoIds
                 (tally0, Public.download_begin videoIds w)))
    as (_ & E2 & E3 & _).
  rewrite E2, E3. split_and!.
  - rewrite download_loop_downloadedIds. simpl. tauto.
  - rewrite download_loop_errorIds. simpl. tauto.
  - destruct (download_loop_vars net (length videoIds) videoIds 0
                (tally0, Public.download_begin videoIds w)) as (_ & V2 & _).
    simpl in V2.
    destruct (Public.download_loop net 0 (length videoIds) videoIds
                (tally0, Public.download_begin videoIds w)) as [t1 w1].
    unfold Public.download_end. simpl in *.
    destruct (summary_marks_complete _ _); simpl; exact V2.
Qed.

Lemma download_skips_unknown_id_witness :
  ("ghost" ∉ map video_id (Public.videos (Public.st (public_loaded [item "a" "A"]))))
  ∧ Public.download_one (DlOk None) 1 "ghost" (tally0, public_loaded [item "a" "A"])
    = (tally0, public_loaded [item "a" "A"])
  ∧ Public.downloadedIds
      (Public.st (snd (Public.startDownloads (λ _, DlOk None) ["ghost"; "a"]
                         (public_loaded [item "a" "A"]))))
    = ["a"].
Proof.
  assert ("ghost" ∉ map video_id
            (Public.videos (Public.st (public_loaded [item "a" "A"])))) as H.
  { apply find_video_None. reflexivity. }
  split; [exact H |].
  split; [| reflexivity].
  exact (proj1 (download_skips_unknown_id (DlOk None) 1 "ghost" tally0
                  (public_loaded [item "a" "A"]) (λ _, DlOk None)
                  ["ghost"; "a"] H)).
Defined.


Example sequential_run_example :
  let fin := Public.startDownloads first_fails ["a"; "b"; "c"]
               (public_loaded three_items) in
  Public.downloadedIds (Public.st (snd fin)) = ["b"; "c"]
  ∧ Public.errorIds (Public.st (snd fin)) = ["a"]
  ∧ textContent (el (Public.page (snd fin)) downloadStatus)
    = "2 downloaded, 1 failed"
  ∧ textContent (el (Public.page (snd fin)) overallProgress) = "3 / 3"
  ∧ Public.saved (snd fin) = ["b"; "c"].
Proof. cbv zeta. split_and!; reflexivity. Qed.


(** The width after one item of three, [(1 / 3) * 100] as the script
    computes it, is the Number [33.33333333333333], that is
    [4691249611844266 * 2 ^ -47]. *)
Example progress_percent_one_of_three :
  progress_percent 1 0 3
  = SpecFloat.S754_finite false 4691249611844266 (-47).
Proof. reflexivity. Qed.

(** ** The completed and error sets over runs *)

Lemma deliver_downloadedIds d (rw : Static.run * Static.world) (x : string) :
  x ∈ Static.downloadedIds (Static.st (snd (Static.deliver d rw)))
  ↔ x ∈ Static.downloadedIds (Static.st (snd rw))
    ∨ (Static.closed (fst rw) = false ∧ x ∈ reported "complete" [d]).
Proof.
  unfold Static.deliver, reported.
  destruct (Static.closed (fst rw)) eqn:Hc.
  { split; [auto | intros [? | [? _]]; [done | discriminate]]. }
  destruct d as [data |]; simpl.
  - destruct (onmessage_spec data rw) as (Hd & _). simpl in Hd. rewrite Hd.
    destruct (String.eqb (Static.event_type data) "complete"); simpl.
    + rewrite elem_of_add, list_elem_of_singleton. tauto.
    + rewrite elem_of_nil. tauto.
  - destruct rw as [r w]. simpl. rewrite elem_of_nil. tauto.
Qed.

Lemma deliver_errorIds d (rw : Static.run * Static.world) (x : string) :
  x ∈ Static.errorIds (Static.st (snd (Static.deliver d rw)))
  ↔ x ∈ Static.errorIds (Static.st (snd rw))
    ∨ (Static.closed (fst rw) = false ∧ x ∈ reported "error" [d]).
Proof.
  unfold Static.deliver, reported.
  destruct (Static.closed (fst rw)) eqn:Hc.
  { split; [auto | intros [? | [? _]]; [done | discriminate]]. }
  destruct d as [data |]; simpl.
  - destruct (onmessage_spec data rw) as (_ & He & _). simpl in He. rewrite He.
    destruct (String.eqb (Static.event_type data) "error"); simpl.
    + rewrite elem_of_add, list_elem_of_singleton. tauto.
    + rewrite elem_of_nil. tauto.
  - destruct rw as [r w]. simpl. rewrite elem_of_nil. tauto.
Qed.

Lemma reported_cons ty d ds x :
  x ∈ reported ty (d :: ds) ↔ x ∈ reported ty [d] ∨ x ∈ reported ty ds.
Proof.
  unfold reported. simpl.
  destruct d as [data |]; simpl;
    [destruct (String.eqb (Static.event_type data) ty); simpl |];
    rewrite ?elem_of_cons, ?elem_of_nil; tauto.
Qed.

(** A run of the push-stream variant only adds to the two sets, and only
    identifiers that the stream reported complete, respectively failed. *)
Lemma deliver_all_sets ds :
  ∀ (rw : Static.run * Static.world),
    let rw' := Static.deliver_all ds rw in
    Static.downloadedIds (Static.st (snd rw))
      ⊆ Static.downloadedIds (Static.st (snd rw'))
    ∧ Static.errorIds (Static.st (snd rw))
        ⊆ Static.errorIds (Static.st (snd rw'))
    ∧ (∀ x, x ∈ Static.downloadedIds (Static.st (snd rw')) →
            x ∈ Static.downloadedIds (Static.st (snd rw))
            ∨ x ∈ reported "complete" ds)
    ∧ (∀ x, x ∈ Static.errorIds (Static.st (snd rw')) →
            x ∈ Static.errorIds (Static.st (snd rw))
            ∨ x ∈ reported "error" ds).
Proof.
  unfold Static.deliver_all.
  induction ds as [| d ds IH]; intros rw; cbv zeta; cbn [foldl].
  - split_and!; auto.
  - destruct (IH (Static.deliver d rw)) as (I1 & I2 & I3 & I4).
    split_and!.
    + intros x Hx. apply I1, deliver_downloadedIds. auto.
    + intros x Hx. apply I2, deliver_errorIds. auto.
    + intros x Hx. rewrite reported_cons.
      apply I3 in Hx as [Hx | Hx]; [| auto].
      apply deliver_downloadedIds in Hx. tauto.
    + intros x Hx. rewrite reported_cons.
      apply I4 in Hx as [Hx | Hx]; [| auto].
      apply deliver_errorIds in Hx. tauto.
Qed.

(** A run of the sequential variant only adds to the two sets. *)
Lemma startDownloads_sets_grow net videoIds (w : Public.world) :
  let w' := snd (Public.startDownloads net videoIds w) in
  Public.downloadedIds (Public.st w) ⊆ Public.downloadedIds (Public.st w')
  ∧ Public.errorIds (Public.st w) ⊆ Public.errorIds (Public.st w').
Proof.
  unfold Public.startDownloads.
  destruct (download_end_spec
              (Public.download_loop net 0 (length videoIds) videoIds
                 (tally0, Public.download_begin videoIds w)))
    as (_ & E2 & E3 & _).
  simpl. rewrite E2, E3. split; intros x Hx.
  - apply download_loop_downloadedIds. by left.
  - apply download_loop_errorIds. by left.
Qed.

(** A run of the sequential variant over distinct identifiers, none of
    which is in either set beforehand, keeps the two sets disjoint. *)
Lemma startDownloads_disjoint net videoIds (w : Public.world) :
  NoDup videoIds →
  (∀ x, x ∈ videoIds →
        (x ∉ Public.downloadedIds (Public.st w))
        ∧ (x ∉ Public.errorIds (Public.st w))) →
  (∀ x, ¬ (x ∈ Public.downloadedIds (Public.st w)
           ∧ x ∈ Public.errorIds (Public.st w))) →
  let w' := snd (Public.startDownloads net videoIds w) in
  ∀ x, ¬ (x ∈ Public.downloadedIds (Public.st w')
          ∧ x ∈ Public.errorIds (Public.st w')).
Proof.
  intros Hnd Hfresh Hdisj. simpl. unfold Public.startDownloads.
  destruct (download_end_spec
              (Public.download_loop net 0 (length videoIds) videoIds
                 (tally0, Public.download_begin videoIds w)))
    as (_ & E2 & E3 & _).
  rewrite E2, E3. intros x [Hd He].
  apply download_loop_downloadedIds in Hd. apply download_loop_errorIds in He.
  simpl in Hd, He.
  destruct Hd as [Hd | (_ & k & Hk & Hok)], He as [He | (_ & k' & Hk' & Hfail)].
  - by apply (Hdisj x).
  - apply list_elem_of_lookup_2 in Hk'. by apply Hfresh in Hk' as [? _].
  - apply list_elem_of_lookup_2 in Hk. by apply Hfresh in Hk as [_ ?].
  - assert (k = k') as -> by (by apply (NoDup_lookup videoIds k k' x)).
    congruence.
Qed.

(** A run of the push-stream variant whose stream reports no identifier both
    complete and failed, and none that is in either set beforehand, keeps
    the two sets disjoint. *)
Lemma deliver_all_disjoint ds (rw : Static.run * Static.world) :
  (∀ x, ¬ (x ∈ reported "complete" ds ∧ x ∈ reported "error" ds)) →
  (∀ x, x ∈ reported "complete" ds ∨ x ∈ reported "error" ds →
        (x ∉ Static.downloadedIds (Static.st (snd rw)))
        ∧ (x ∉ Static.errorIds (Static.st (snd rw)))) →
  (∀ x, ¬ (x ∈ Static.downloadedIds (Static.st (snd rw))
           ∧ x ∈ Static.errorIds (Static.st (snd rw)))) →
  let rw' := Static.deliver_all ds rw in
  ∀ x, ¬ (x ∈ Static.downloadedIds (Static.st (snd rw'))
          ∧ x ∈ Static.errorIds (Static.st (snd rw'))).
Proof.
  intros Hone Hfresh Hdisj. simpl. intros x [Hd He].
  destruct (deliver_all_sets ds rw) as (_ & _ & I3 & I4).
  apply I3 in Hd. apply I4 in He.
  destruct Hd as [Hd | Hd], He as [He | He].
  - by apply (Hdisj x).
  - destruct (Hfresh x) as [? _]; auto.
  - destruct (Hfresh x) as [_ ?]; auto.
  - by apply (Hone x).
Qed.

(** C1, as stated, fails: the two sets are not cleared between runs, so
    when the only item of a loaded playlist fails in a first run and is
    downloaded in a second one, it is in both sets after the second run, in
    either variant. *)
Lemma retried_item_in_both_sets :
  Public.downloadedIds (Public.st public_retried) = ["a"]
  ∧ Public.errorIds (Public.st public_retried) = ["a"]
  ∧ Static.downloadedIds (Static.st static_retried) = ["a"]
  ∧ Static.errorIds (Static.st static_retried) = ["a"]
  ∧ ("a" ∈ Public.downloadedIds (Public.st public_retried)
     ∧ "a" ∈ Public.errorIds (Public.st public_retried))
  ∧ ("a" ∈ Static.downloadedIds (Static.st static_retried)
     ∧ "a" ∈ Static.errorIds (Static.st static_retried)).
Proof.
  assert (Public.downloadedIds (Public.st public_retried) = ["a"]) as H1
    by reflexivity.
  assert (Public.errorIds (Public.st public_retried) = ["a"]) as H2
    by reflexivity.
  assert (Static.downloadedIds (Static.st static_retried) = ["a"]) as H3
    by reflexivity.
  assert (Static.errorIds (Static.st static_retried) = ["a"]) as H4
    by reflexivity.
  rewrite H1, H2, H3, H4. split_and!; try reflexivity; apply list_elem_of_here.
Qed.

(** What the clicks of the results view leave alone: the completed and the
    error set; and the selection stays without duplicates. *)
Lemma public_selectAll_fold_keeps (cs : list card) :
  ∀ (w : Public.world),
    let w' := foldl (λ w k,
                if Public.allSelected (Public.st w) then
                  Public.on_st (Public.set_selectedIds
                    (JSSet.add (dataset_videoId k)
                       (Public.selectedIds (Public.st w)))) w
                else
                  Public.on_st (Public.set_selectedIds
                    (JSSet.delete (dataset_videoId k)
                       (Public.selectedIds (Public.st w)))) w) w cs in
    Public.downloadedIds (Public.st w') = Public.downloadedIds (Public.st w)
    ∧ Public.errorIds (Public.st w') = Public.errorIds (Public.st w)
    ∧ (NoDup (Public.selectedIds (Public.st w)) →
       NoDup (Public.selectedIds (Public.st w'))).
Proof.
  induction cs as [| k cs IH]; intros w; simpl; [done |].
  destruct (Public.allSelected (Public.st w));
    match goal with
    | |- context [foldl _ ?w1 cs] =>
        destruct (IH w1) as (I1 & I2 & I3); simpl in I1, I2, I3
    end;
    rewrite I1, I2; split_and!; try done; intros Hnd; apply I3;
    [by apply NoDup_add | by apply NoDup_delete].
Qed.

Lemma static_selectAll_fold_keeps (cs : list card) :
  ∀ (v : Static.world),
    let v' := foldl (λ w k,
                if Static.allSelected (Static.st w) then
                  Static.on_st (Static.set_selectedIds
                    (JSSet.add (dataset_videoId k)
                       (Static.selectedIds (Static.st w)))) w
                else
                  Static.on_st (Static.set_selectedIds
                    (JSSet.delete (dataset_videoId k)
                       (Static.selectedIds (Static.st w)))) w) v cs in
    Static.downloadedIds (Static.st v') = Static.downloadedIds (Static.st v)
    ∧ Static.errorIds (Static.st v') = Static.errorIds (Static.st v).
Proof.
  induction cs as [| k cs IH]; intros v; simpl; [done |].
  destruct (Static.allSelected (Static.st v));
    match goal with
    | |- context [foldl _ ?v1 cs] =>
        destruct (IH v1) as (I1 & I2); simpl in I1, I2
    end;
    by rewrite I1, I2.
Qed.

Lemma public_click_step_keeps (c : Public.click) (w : Public.world) :
  Public.downloadedIds (Public.st (Public.click_step c w))
  = Public.downloadedIds (Public.st w)
  ∧ Public.errorIds (Public.st (Public.click_step c w))
    = Public.errorIds (Public.st w)
  ∧ (NoDup (Public.selectedIds (Public.st w)) →
     NoDup (Public.selectedIds (Public.st (Public.click_step c w)))).
Proof.
  destruct c as [i onIcon | | i]; simpl.
  - unfold Public.card_click.
    destruct (cards (Public.page w) !! i) as [k |]; [| done].
    destruct onIcon; [done |].
    destruct (Public.isDownloading (Public.st w)); [done |].
    split_and!.
    + unfold Public.toggleSelection.
      by destruct (JSSet.has _ (Public.selectedIds (Public.st w))).
    + unfold Public.toggleSelection.
      by destruct (JSSet.has _ (Public.selectedIds (Public.st w))).
    + intros Hnd. rewrite public_toggleSelection_selectedIds.
      destruct (JSSet.has _ _); [by apply NoDup_delete | by apply NoDup_add].
  - destruct (disabled (el (Public.page w) selectAllBtn)); [done |].
    unfold Public.selectAll_click.
    destruct (Public.isDownloading (Public.st w)); [done |]. simpl.
    destruct (public_selectAll_fold_keeps (cards (Public.page w))
                (Public.on_st
                   (Public.set_allSelected
                      (negb (Public.allSelected (Public.st w)))) w))
      as (F1 & F2 & F3).
    simpl in F1, F2, F3. by rewrite F1, F2.
  - unfold Public.format_click.
    destruct (formatBtns (Public.page w) !! i); [| done].
    by destruct (Public.isDownloading (Public.st w)).
Qed.

Lemma public_clicks_keep (cs : list Public.click) :
  ∀ (w : Public.world),
    Public.downloadedIds (Public.st (Public.clicks cs w))
    = Public.downloadedIds (Public.st w)
    ∧ Public.errorIds (Public.st (Public.clicks cs w))
      = Public.errorIds (Public.st w)
    ∧ (NoDup (Public.selectedIds (Public.st w)) →
       NoDup (Public.selectedIds (Public.st (Public.clicks cs w)))).
Proof.
  unfold Public.clicks.
  induction cs as [| c cs IH]; intros w; simpl; [done |].
  destruct (IH (Public.click_step c w)) as (I1 & I2 & I3).
  destruct (public_click_step_keeps c w) as (C1 & C2 & C3).
  rewrite I1, I2, C1, C2. auto.
Qed.

(** A click on the download button when neither set holds anything: the
    run, if one starts, goes over the identifiers of the selection, and
    each is resolved once. *)
Lemma public_download_click_disjoint net (w : Public.world) :
  NoDup (Public.selectedIds (Public.st w)) →
  Public.downloadedIds (Public.st w) = [] →
  Public.errorIds (Public.st w) = [] →
  ∀ x, ¬ (x ∈ Public.downloadedIds (Public.st (Public.download_click net w))
          ∧ x ∈ Public.errorIds (Public.st (Public.download_click net w))).
Proof.
  intros Hnd Hd He. unfold Public.download_click.
  destruct (_ || _).
  - intros x [Hx _]. rewrite Hd in Hx. by apply elem_of_nil in Hx.
  - apply startDownloads_disjoint; [done | |].
    + intros x _. rewrite Hd, He. split; apply not_elem_of_nil.
    + intros x [Hx _]. rewrite Hd in Hx. by apply elem_of_nil in Hx.
Qed.

Lemma public_download_click_grows net (w : Public.world) :
  Public.downloadedIds (Public.st w)
    ⊆ Public.downloadedIds (Public.st (Public.download_click net w))
  ∧ Public.errorIds (Public.st w)
      ⊆ Public.errorIds (Public.st (Public.download_click net w)).
Proof.
  unfold Public.download_click. destruct (_ || _); [done |].
  apply startDownloads_sets_grow.
Qed.

(** One action of a session of the push-stream variant, on the two
    sets. *)
Lemma heard_cons ty a acts (s : Static.session) (x : string) :
  x ∈ heard ty (a :: acts) s
  ↔ x ∈ heard ty [a] s ∨ x ∈ heard ty acts (Static.step a s).
Proof. simpl. rewrite !elem_of_app, elem_of_nil. tauto. Qed.

Lemma static_click_keeps (v : Static.world) (i : nat) (onIcon : bool) :
  Static.downloadedIds (Static.st (Static.card_click i onIcon v))
  = Static.downloadedIds (Static.st v)
  ∧ Static.errorIds (Static.st (Static.card_click i onIcon v))
    = Static.errorIds (Static.st v)
  ∧ Static.downloadedIds (Static.st (Static.selectAll_click v))
    = Static.downloadedIds (Static.st v)
  ∧ Static.errorIds (Static.st (Static.selectAll_click v))
    = Static.errorIds (Static.st v)
  ∧ Static.st (Static.format_click i v)
    = Static.set_selectedFormat
        (Static.selectedFormat (Static.st (Static.format_click i v)))
        (Static.st v)
  ∧ Static.st (snd (Static.download_click v)) = Static.st v
  ∧ Static.st (Static.zip_click v) = Static.st v.
Proof.
  split_and!.
  - unfold Static.card_click.
    destruct (cards (Static.page v) !! i) as [k |]; [| done].
    destruct onIcon; [by destruct (bool_decide _) |].
    unfold Static.toggleSelection.
    by destruct (JSSet.has _ (Static.selectedIds (Static.st v))).
  - unfold Static.card_click.
    destruct (cards (Static.page v) !! i) as [k |]; [| done].
    destruct onIcon; [by destruct (bool_decide _) |].
    unfold Static.toggleSelection.
    by destruct (JSSet.has _ (Static.selectedIds (Static.st v))).
  - unfold Static.selectAll_click. simpl.
    destruct (static_selectAll_fold_keeps (cards (Static.page v))
                (Static.on_st
                   (Static.set_allSelected
                      (negb (Static.allSelected (Static.st v)))) v))
      as (F1 & F2).
    simpl in F1. exact F1.
  - unfold Static.selectAll_click. simpl.
    destruct (static_selectAll_fold_keeps (cards (Static.page v))
                (Static.on_st
                   (Static.set_allSelected
                      (negb (Static.allSelected (Static.st v)))) v))
      as (F1 & F2).
    simpl in F2. exact F2.
  - unfold Static.format_click.
    destruct (formatBtns (Static.page v) !! i); [done |]. by destruct (Static.st v).
  - unfold Static.download_click. by destruct (Nat.eqb _ 0).
  - reflexivity.
Qed.

Lemma static_step_sets (a : Static.action) (s : Static.session) (x : string) :
  (x ∈ Static.downloadedIds (Static.st (Static.now (Static.step a s)))
   ↔ x ∈ Static.downloadedIds (Static.st (Static.now s))
     ∨ x ∈ heard "complete" [a] s)
  ∧ (x ∈ Static.errorIds (Static.st (Static.now (Static.step a s)))
     ↔ x ∈ Static.errorIds (Static.st (Static.now s))
       ∨ x ∈ heard "error" [a] s).
Proof.
  destruct s as [v rs].
  destruct (static_click_keeps v 0 false) as (_ & _ & S1 & S2 & _ & D & _).
  destruct a as [i onIcon | | i | | j d];
    cbn [Static.step Static.now Static.runs heard]; rewrite ?app_nil_r.
  - destruct (static_click_keeps v i onIcon) as (C1 & C2 & _).
    rewrite C1, C2, elem_of_nil. tauto.
  - destruct (disabled _); cbn [Static.now];
      rewrite ?S1, ?S2, elem_of_nil; tauto.
  - destruct (static_click_keeps v i false) as (_ & _ & _ & _ & F & _).
    rewrite F, elem_of_nil. simpl. tauto.
  - destruct (disabled _); cbn [Static.now]; [rewrite elem_of_nil; tauto |].
    destruct (Static.download_click v) as [r v'] eqn:E. simpl in D.
    cbn [Static.now]. rewrite D, elem_of_nil. tauto.
  - destruct (rs !! j) as [r |] eqn:Er.
    + pose proof (deliver_downloadedIds d (r, v) x) as Hd.
      pose proof (deliver_errorIds d (r, v) x) as He.
      destruct (Static.deliver d (r, v)) as [r' v'] eqn:E.
      cbn [fst snd] in Hd, He. cbn [Static.now]. rewrite Hd, He.
      unfold reported.
      destruct d as [data |]; cbn [omap].
      * destruct (Static.closed r); cbn [negb andb].
        -- rewrite !elem_of_nil. split; split; try tauto;
             intros [? | [? _]]; auto; discriminate.
        -- simpl.
           destruct (String.eqb (Static.event_type data) "complete");
             destruct (String.eqb (Static.event_type data) "error");
             simpl; tauto.
      * simpl. destruct (Static.closed r); rewrite !elem_of_nil; tauto.
    + cbn [Static.now]. destruct d; rewrite !elem_of_nil; tauto.
Qed.

Lemma static_steps_sets (acts : list Static.action) :
  ∀ (s : Static.session) (x : string),
    (x ∈ Static.downloadedIds (Static.st (Static.now (Static.steps acts s)))
     ↔ x ∈ Static.downloadedIds (Static.st (Static.now s))
       ∨ x ∈ heard "complete" acts s)
    ∧ (x ∈ Static.errorIds (Static.st (Static.now (Static.steps acts s)))
       ↔ x ∈ Static.errorIds (Static.st (Static.now s))
         ∨ x ∈ heard "error" acts s).
Proof.
  unfold Static.steps.
  induction acts as [| a acts IH]; intros s x.
  - simpl. rewrite !elem_of_nil. tauto.
  - cbn [foldl]. destruct (IH (Static.step a s) x) as [I1 I2].
    destruct (static_step_sets a s x) as [S1 S2].
    rewrite I1, I2, S1, S2, !(heard_cons _ a acts s x). tauto.
Qed.

(** C1, amended.  Loading a playlist empties the completed and the error
    set in both variants.

    In the sequential variant, clicks on cards, on the select-all button
    and on format buttons leave the two sets as they are.  After the load
    and any such clicks, the first click on the download button, with the
    run it starts, leaves no identifier in both sets, whatever such clicks
    follow; a further click on the download button only adds to the two
    sets.

    In the push-stream variant, from the load on and through any clicks of
    the results view (the download button included, each starting a
    subscription of its own) and any deliveries, also by subscriptions that
    were open before the load, the completed set holds exactly the
    identifiers of the [complete] messages taken by the handlers, and the
    error set those of the [error] messages.  So an identifier is in both
    sets exactly when one message reported it complete and another one
    failed. *)
Theorem completed_error_sets_after_load :
  ∀ (data : extractData) (w0 : Public.world) (v0 : Static.world)
    (pre post : list Public.click) (net net' : nat → downloadOutcome)
    (rs : list Static.run) (acts : list Static.action),
    url_accepted (Public.page w0) →
    url_accepted (Static.page v0) →
    let w := Public.extractPlaylist (ExtractOk (Parsed data)) w0 in
    let w' := Public.clicks post
                (Public.download_click net (Public.clicks pre w)) in
    let s := {| Static.now := Static.extractPlaylist (ExtractOk (Parsed data)) v0;
                Static.runs := rs |} in
    let v' := Static.now (Static.steps acts s) in
    Public.downloadedIds (Public.st w) = []
    ∧ Public.errorIds (Public.st w) = []
    ∧ Static.downloadedIds (Static.st (Static.now s)) = []
    ∧ Static.errorIds (Static.st (Static.now s)) = []
    ∧ Public.downloadedIds (Public.st (Public.clicks pre w)) = []
    ∧ Public.errorIds (Public.st (Public.clicks pre w)) = []
    ∧ (∀ x, ¬ (x ∈ Public.downloadedIds (Public.st w')
               ∧ x ∈ Public.errorIds (Public.st w')))
    ∧ Public.downloadedIds (Public.st w')
        ⊆ Public.downloadedIds (Public.st (Public.download_click net' w'))
    ∧ Public.errorIds (Public.st w')
        ⊆ Public.errorIds (Public.st (Public.download_click net' w'))
    ∧ (∀ x, x ∈ Static.downloadedIds (Static.st v')
            ↔ x ∈ heard "complete" acts s)
    ∧ (∀ x, x ∈ Static.errorIds (Static.st v') ↔ x ∈ heard "error" acts s)
    ∧ (∀ x, x ∈ Static.downloadedIds (Static.st v')
            ∧ x ∈ Static.errorIds (Static.st v')
            ↔ x ∈ heard "complete" acts s ∧ x ∈ heard "error" acts s).
Proof.
  intros data w0 v0 pre post net net' rs acts [Hw1 Hw2] [Hv1 Hv2]. cbv zeta.
  destruct (public_extractPlaylist_loaded data w0 Hw1 Hw2)
    as (_ & Hsel & Hwd & Hwe & _).
  destruct (static_extractPlaylist_loaded data v0 Hv1 Hv2)
    as (_ & _ & Hvd & Hve & _).
  set (w := Public.extractPlaylist (ExtractOk (Parsed data)) w0) in *.
  set (v := Static.extractPlaylist (ExtractOk (Parsed data)) v0) in *.
  assert (∀ x, x ∈ Static.downloadedIds
                     (Static.st (Static.now (Static.steps acts
                        {| Static.now := v; Static.runs := rs |})))
               ↔ x ∈ heard "complete" acts
                       {| Static.now := v; Static.runs := rs |}) as Sd.
  { intros x. destruct (static_steps_sets acts
                          {| Static.now := v; Static.runs := rs |} x) as [S _].
    rewrite S. simpl. rewrite Hvd, elem_of_nil. tauto. }
  assert (∀ x, x ∈ Static.errorIds
                     (Static.st (Static.now (Static.steps acts
                        {| Static.now := v; Static.runs := rs |})))
               ↔ x ∈ heard "error" acts
                       {| Static.now := v; Static.runs := rs |}) as Se.
  { intros x. destruct (static_steps_sets acts
                          {| Static.now := v; Static.runs := rs |} x) as [_ S].
    rewrite S. simpl. rewrite Hve, elem_of_nil. tauto. }
  split_and!; try done.
  - destruct (public_clicks_keep pre w) as (P1 & _). by rewrite P1.
  - destruct (public_clicks_keep pre w) as (_ & P2 & _). by rewrite P2.
  - destruct (public_clicks_keep pre w) as (P1 & P2 & P3).
    destruct (public_clicks_keep post
                (Public.download_click net (Public.clicks pre w)))
      as (Q1 & Q2 & _).
    rewrite Q1, Q2.
    apply public_download_click_disjoint.
    + apply P3. rewrite Hsel. apply NoDup_of_list.
    + by rewrite P1.
    + by rewrite P2.
  - apply public_download_click_grows.
  - apply public_download_click_grows.
  - intros x. by rewrite Sd, Se.
Qed.

Lemma completed_error_sets_after_load_witness :
  let data := {| data_session_id := SidString "s1"; data_title := "Mix";
                 data_videos := three_items |} in
  let d := page_with_url "https://example.org/playlist?list=1" in
  let w := Public.extractPlaylist (ExtractOk (Parsed data)) (Public.init d) in
  let w' := Public.clicks [Public.CardClick 1 false]
              (Public.download_click first_fails
                 (Public.clicks [Public.SelectAllClick] w)) in
  let s := {| Static.now :=
                Static.extractPlaylist (ExtractOk (Parsed data)) (Static.init d);
              Static.runs := [] |} in
  let v' := Static.now (Static.steps overlapping_runs s) in
  url_accepted d
  ∧ (∀ x, ¬ (x ∈ Public.downloadedIds (Public.st w')
             ∧ x ∈ Public.errorIds (Public.st w')))
  ∧ (∀ x, x ∈ Static.downloadedIds (Static.st v')
          ∧ x ∈ Static.errorIds (Static.st v')
          ↔ x ∈ heard "complete" overlapping_runs s
            ∧ x ∈ heard "error" overlapping_runs s).
Proof.
  intros data d w w' s v'.
  assert (url_accepted d) as Hurl by (split; reflexivity).
  pose proof (completed_error_sets_after_load data (Public.init d)
                (Static.init d) [Public.SelectAllClick]
                [Public.CardClick 1 false] first_fails first_fails []
                overlapping_runs Hurl Hurl) as H.
  cbv zeta in H.
  destruct H as (_ & _ & _ & _ & _ & _ & Hp & _ & _ & _ & _ & Hs).
  split_and!; [exact Hurl | exact Hp | exact Hs].
Defined.

(** In the session of [overlapping_runs] the identifier [a] is reported
    failed by the first subscription and complete by the second, and is in
    both sets. *)
Example overlapping_runs_both_sets :
  Static.downloadedIds (Static.st static_overlapped) = ["a"]
  ∧ Static.errorIds (Static.st static_overlapped) = ["a"].
Proof. split; reflexivity. Qed.

(** ** The label of the selection toggle *)

(** C3 at the empty playlist.  After an extraction that returns no items
    the label is [Deselect All] and the selection has as many members as
    the playlist has items (none).  A click on the button then flips
    [allSelected] without looking at the sizes: the label becomes
    [Select All] although the size of the selection still equals the number
    of items.  [toggleSelection], in contrast, recomputes [allSelected] from
    the two sizes. *)
Theorem selectAll_click_label_on_empty_playlist :
  textContent (el (Public.page (public_loaded [])) selectAllBtn) = "Deselect All"
  ∧ JSSet.size (Public.selectedIds
                  (Public.st (Public.selectAll_click (public_loaded []))))
    = length (Public.videos (Public.st (Public.selectAll_click (public_loaded []))))
  ∧ textContent (el (Public.page (Public.selectAll_click (public_loaded [])))
                    selectAllBtn) = "Select All"
  ∧ textContent (el (Static.page (static_loaded [])) selectAllBtn) = "Deselect All"
  ∧ JSSet.size (Static.selectedIds
                  (Static.st (Static.selectAll_click (static_loaded []))))
    = length (Static.videos (Static.st (Static.selectAll_click (static_loaded []))))
  ∧ textContent (el (Static.page (Static.selectAll_click (static_loaded [])))
                    selectAllBtn) = "Select All".
Proof. split_and!; reflexivity. Qed.

(** Away from the empty playlist the label does follow the sizes: the
    relation [public_consistent] is set up by a successful extraction of
    items with distinct identifiers, it is kept by every click on a card,
    and by every click on the toggle when the playlist has an item; and it
    makes the label [Deselect All] exactly when the selection has as many
    members as the playlist has items. *)
Lemma of_list_NoDup (l : list string) : NoDup l → JSSet.of_list l = l.
Proof.
  unfold JSSet.of_list, JSSet.empty.
  assert (∀ acc, NoDup (acc ++ l) →
                 foldl (λ s x, JSSet.add x s) acc l = acc ++ l) as H.
  { induction l as [| x l IH]; intros acc Hnd; simpl.
    - by rewrite app_nil_r.
    - assert (JSSet.add x acc = acc ++ [x]) as ->.
      { unfold JSSet.add.
        destruct (JSSet.has x acc) eqn:E; [| done].
        apply has_true in E. apply NoDup_app in Hnd as (_ & Hnd & _).
        exfalso. apply (Hnd x E). left. }
      rewrite IH; rewrite <- app_assoc; done. }
  intros Hnd. by apply (H []).
Qed.

Lemma same_members_same_size (s ids : list string) :
  NoDup s → NoDup ids → s ⊆ ids → ids ⊆ s → length s = length ids.
Proof.
  intros Hs Hi H1 H2. apply Permutation_length, NoDup_Permutation; [done.. |].
  intros x. split; [apply H1 | apply H2].
Qed.

Lemma public_consistent_label (w : Public.world) :
  public_consistent w →
  textContent (el (Public.page w) selectAllBtn) = "Deselect All"
  ↔ JSSet.size (Public.selectedIds (Public.st w))
    = length (Public.videos (Public.st w)).
Proof.
  intros (_ & _ & _ & _ & Hall & Hlabel). rewrite Hlabel, Hall.
  destruct (Nat.eqb_spec (JSSet.size (Public.selectedIds (Public.st w)))
              (length (Public.videos (Public.st w)))); split; done.
Qed.

Lemma public_consistent_extract data (w : Public.world) :
  url_accepted (Public.page w) →
  NoDup (map video_id (data_videos data)) →
  public_consistent (Public.extractPlaylist (ExtractOk (Parsed data)) w).
Proof.
  intros [H1 H2] Hnd. unfold public_consistent, Public.extractPlaylist.
  rewrite H1, H2. simpl. rewrite (of_list_NoDup _ Hnd).
  split_and!; try done.
  - rewrite <- list_fmap_compose. done.
  - unfold JSSet.size. by rewrite length_map, Nat.eqb_refl.
Qed.

Lemma alter_keeps_ids (f : card → card) (i : nat) (cs : list card) :
  (∀ k, dataset_videoId (f k) = dataset_videoId k) →
  map dataset_videoId (alter f i cs) = map dataset_videoId cs.
Proof.
  intros Hf. revert i. induction cs as [| k cs IH]; intros [| i]; csimpl;
    rewrite ?Hf, ?IH; done.
Qed.

Lemma public_consistent_card_click i onIcon (w : Public.world) :
  public_consistent w → public_consistent (Public.card_click i onIcon w).
Proof.
  intros Hw. unfold Public.card_click.
  destruct (cards (Public.page w) !! i) as [k |] eqn:Hk; [| done].
  destruct onIcon; [done |].
  destruct (Public.isDownloading (Public.st w)); [done |].
  destruct Hw as (Hnd & Hcards & Hsel & Hsub & _ & _).
  assert (dataset_videoId k ∈ map video_id (Public.videos (Public.st w))) as Hin.
  { rewrite <- Hcards. apply list_elem_of_fmap. exists k. split; [done |].
    by apply list_elem_of_lookup_2 in Hk. }
  unfold public_consistent, Public.toggleSelection.
  destruct (JSSet.has (dataset_videoId k) (Public.selectedIds (Public.st w)));
    simpl; (split_and!; try done).
  - by rewrite alter_keeps_ids.
  - by apply NoDup_delete.
  - intros x Hx. apply elem_of_delete in Hx as [_ Hx]. by apply Hsub.
  - by rewrite alter_keeps_ids.
  - by apply NoDup_add.
  - intros x Hx. apply elem_of_add in Hx as [-> | Hx]; [done | by apply Hsub].
Qed.

(** What the loop of the toggle's listener does to the selection. *)
Lemma selectAll_fold_add (cs : list card) :
  ∀ (w : Public.world),
    Public.allSelected (Public.st w) = true →
    let w' := foldl (λ w k,
                if Public.allSelected (Public.st w) then
                  Public.on_st (Public.set_selectedIds
                    (JSSet.add (dataset_videoId k)
                       (Public.selectedIds (Public.st w)))) w
                else
                  Public.on_st (Public.set_selectedIds
                    (JSSet.delete (dataset_videoId k)
                       (Public.selectedIds (Public.st w)))) w) w cs in
    Public.videos (Public.st w') = Public.videos (Public.st w)
    ∧ Public.allSelected (Public.st w') = true
    ∧ Public.page w' = Public.page w
    ∧ (NoDup (Public.selectedIds (Public.st w)) →
       NoDup (Public.selectedIds (Public.st w')))
    ∧ (∀ x, x ∈ Public.selectedIds (Public.st w')
            ↔ x ∈ Public.selectedIds (Public.st w)
              ∨ x ∈ map dataset_videoId cs).
Proof.
  induction cs as [| k cs IH]; intros w Hall; simpl.
  - split_and!; try done. intros x. rewrite elem_of_nil. tauto.
  - rewrite Hall.
    destruct (IH (Public.on_st (Public.set_selectedIds
                    (JSSet.add (dataset_videoId k)
                       (Public.selectedIds (Public.st w)))) w) Hall)
      as (I1 & I2 & I3 & I4 & I5).
    simpl in I1, I3, I4, I5. split_and!; try done.
    + intros Hnd. by apply I4, NoDup_add.
    + intros x. rewrite I5, elem_of_add, elem_of_cons. tauto.
Qed.

Lemma selectAll_fold_delete (cs : list card) :
  ∀ (w : Public.world),
    Public.allSelected (Public.st w) = false →
    let w' := foldl (λ w k,
                if Public.allSelected (Public.st w) then
                  Public.on_st (Public.set_selectedIds
                    (JSSet.add (dataset_videoId k)
                       (Public.selectedIds (Public.st w)))) w
                else
                  Public.on_st (Public.set_selectedIds
                    (JSSet.delete (dataset_videoId k)
                       (Public.selectedIds (Public.st w)))) w) w cs in
    Public.videos (Public.st w') = Public.videos (Public.st w)
    ∧ Public.allSelected (Public.st w') = false
    ∧ Public.page w' = Public.page w
    ∧ (NoDup (Public.selectedIds (Public.st w)) →
       NoDup (Public.selectedIds (Public.st w')))
    ∧ (∀ x, x ∈ Public.selectedIds (Public.st w')
            ↔ x ∈ Public.selectedIds (Public.st w)
              ∧ x ∉ map dataset_videoId cs).
Proof.
  induction cs as [| k cs IH]; intros w Hall; simpl.
  - split_and!; try done. intros x. rewrite elem_of_nil. tauto.
  - rewrite Hall.
    destruct (IH (Public.on_st (Public.set_selectedIds
                    (JSSet.delete (dataset_videoId k)
                       (Public.selectedIds (Public.st w)))) w) Hall)
      as (I1 & I2 & I3 & I4 & I5).
    simpl in I1, I3, I4, I5. split_and!; try done.
    + intros Hnd. by apply I4, NoDup_delete.
    + intros x. rewrite I5, elem_of_delete, not_elem_of_cons. tauto.
Qed.

Lemma map_keeps_ids (f : card → card) (cs : list card) :
  (∀ k, dataset_videoId (f k) = dataset_videoId k) →
  map dataset_videoId (map f cs) = map dataset_videoId cs.
Proof.
  intros Hf. induction cs as [| k cs IH]; simpl; rewrite ?Hf, ?IH; done.
Qed.

Lemma public_consistent_selectAll_click (w : Public.world) :
  public_consistent w →
  Public.videos (Public.st w) ≠ [] →
  public_consistent (Public.selectAll_click w).
Proof.
  intros Hw Hne. unfold Public.selectAll_click.
  destruct (Public.isDownloading (Public.st w)); [done |].
  destruct Hw as (Hnd & Hcards & Hsel & Hsub & Hall & _).
  destruct (Public.allSelected (Public.st w)) eqn:Ha; simpl.
  - (* everything was selected: the click empties the selection *)
    destruct (selectAll_fold_delete (cards (Public.page w))
                (Public.on_st (Public.set_allSelected false) w) eq_refl)
      as (F1 & F2 & F3 & F4 & F5).
    simpl in F1, F3, F4, F5.
    set (w1 := foldl _ _ _) in *.
    assert (Public.selectedIds (Public.st w1) = []) as Hnil.
    { destruct (Public.selectedIds (Public.st w1)) as [| x l] eqn:E; [done |].
      assert (x ∈ x :: l) as Hx by left.
      apply F5 in Hx as [Hx Hnot]. rewrite Hcards in Hnot.
      by apply Hsub in Hx. }
    unfold public_consistent. simpl. rewrite F1, F2, F3, Hnil.
    split_and!; try done.
    + rewrite map_keeps_ids; [done | by intros k].
    + apply NoDup_nil_2.
    + intros x Hx. by apply elem_of_nil in Hx.
    + simpl. destruct (Public.videos (Public.st w)); [done | reflexivity].
  - (* something was left out: the click selects every card *)
    destruct (selectAll_fold_add (cards (Public.page w))
                (Public.on_st (Public.set_allSelected true) w) eq_refl)
      as (F1 & F2 & F3 & F4 & F5).
    simpl in F1, F3, F4, F5.
    set (w1 := foldl _ _ _) in *.
    assert (length (Public.selectedIds (Public.st w1))
            = length (map video_id (Public.videos (Public.st w)))) as Hlen.
    { apply same_members_same_size; [by apply F4 | done | |].
      - intros x Hx. apply F5 in Hx as [Hx | Hx];
          [by apply Hsub | by rewrite <- Hcards].
      - intros x Hx. apply F5. right. by rewrite Hcards. }
    rewrite length_map in Hlen.
    unfold public_consistent. simpl. rewrite F1, F2, F3.
    split_and!; try done.
    + rewrite map_keeps_ids; [done | by intros k].
    + by apply F4.
    + intros x Hx. apply F5 in Hx as [Hx | Hx];
        [by apply Hsub | by rewrite <- Hcards].
    + unfold JSSet.size. by rewrite Hlen, Nat.eqb_refl.
Qed.

Lemma with_card_keeps_ids (videoId : string) (f : card → card) (cs : list card) :
  (∀ k, dataset_videoId (f k) = dataset_videoId k) →
  map dataset_videoId (with_card videoId f cs) = map dataset_videoId cs.
Proof.
  intros Hf. induction cs as [| k cs IH]; simpl; [done |].
  destruct (String.eqb (dataset_videoId k) videoId); simpl;
    rewrite ?Hf, ?IH; done.
Qed.

Lemma updateCardState_keeps_ids videoId state iconHtml (d : dom) :
  map dataset_videoId (cards (updateCardState videoId state iconHtml d))
  = map dataset_videoId (cards d)
  ∧ el (updateCardState videoId state iconHtml d) = el d.
Proof.
  split; [| reflexivity]. unfold updateCardState. simpl.
  apply with_card_keeps_ids. intros k. by destruct (String.eqb iconHtml "").
Qed.

(** One iteration of the download loop leaves [allSelected], the
    identifiers of the cards and the label of the toggle alone. *)
Lemma download_one_page outcome totalCount videoId (tw : tally * Public.world) :
  let tw' := Public.download_one outcome totalCount videoId tw in
  Public.allSelected (Public.st (snd tw')) = Public.allSelected (Public.st (snd tw))
  ∧ map dataset_videoId (cards (Public.page (snd tw')))
    = map dataset_videoId (cards (Public.page (snd tw)))
  ∧ textContent (el (Public.page (snd tw')) selectAllBtn)
    = textContent (el (Public.page (snd tw)) selectAllBtn).
Proof.
  destruct tw as [t w]. simpl. unfold Public.download_one.
  destruct (find_video videoId (Public.videos (Public.st w))); [| done].
  destruct outcome; simpl; (split_and!; [done | | done]);
    rewrite ?with_card_keeps_ids; try done;
    intros k; by try destruct (String.eqb _ _).
Qed.

Lemma download_loop_page net totalCount videoIds :
  ∀ i (tw : tally * Public.world),
    let tw' := Public.download_loop net i totalCount videoIds tw in
    Public.allSelected (Public.st (snd tw')) = Public.allSelected (Public.st (snd tw))
    ∧ map dataset_videoId (cards (Public.page (snd tw')))
      = map dataset_videoId (cards (Public.page (snd tw)))
    ∧ textContent (el (Public.page (snd tw')) selectAllBtn)
      = textContent (el (Public.page (snd tw)) selectAllBtn).
Proof.
  induction videoIds as [| videoId rest IH]; intros i tw; simpl; [done |].
  destruct (IH (S i) (Public.download_one (net i) totalCount videoId tw))
    as (H1 & H2 & H3).
  destruct (download_one_page (net i) totalCount videoId tw) as (G1 & G2 & G3).
  simpl in *. split_and!; congruence.
Qed.

Lemma public_consistent_download_click net (w : Public.world) :
  public_consistent w → public_consistent (Public.download_click net w).
Proof.
  intros Hw. unfold Public.download_click.
  destruct (_ || _); [done |].
  unfold Public.startDownloads.
  set (tw := Public.download_loop net 0 _ _ _).
  destruct (download_loop_vars net (length (Public.selectedIds (Public.st w)))
              (Public.selectedIds (Public.st w)) 0
              (tally0, Public.download_begin (Public.selectedIds (Public.st w)) w))
    as (V1 & V2 & _).
  destruct (download_loop_page net (length (Public.selectedIds (Public.st w)))
              (Public.selectedIds (Public.st w)) 0
              (tally0, Public.download_begin (Public.selectedIds (Public.st w)) w))
    as (P1 & P2 & P3).
  fold tw in V1, V2, P1, P2, P3. simpl in V1, V2, P1, P2, P3.
  destruct Hw as (Hnd & Hcards & Hsel & Hsub & Hall & Hlabel).
  destruct tw as [t w1]. unfold Public.download_end, public_consistent.
  simpl in *.
  destruct (summary_marks_complete _ _); simpl;
    rewrite V1, V2, P1, P2, P3; done.
Qed.

(** In a consistent state the click on the download button starts a run
    over selected items of the playlist, as C5 supposes. *)
Lemma public_consistent_run_ids (w : Public.world) :
  public_consistent w →
  NoDup (Public.selectedIds (Public.st w))
  ∧ ∀ x, x ∈ Public.selectedIds (Public.st w) →
         x ∈ map video_id (Public.videos (Public.st w)).
Proof. intros (_ & _ & Hsel & Hsub & _). split; [done | exact Hsub]. Qed.

(** ** Escaping *)

#[local] Arguments String.append !s1 s2 : simpl nomatch.

Lemma append_assoc_string (a b c : string) : (a +:+ b) +:+ c = a +:+ (b +:+ c).
Proof. induction a as [| x a IH]; simpl; [done | by rewrite IH]. Qed.

Lemma append_nil_r_string (a : string) : a +:+ "" = a.
Proof. induction a as [| x a IH]; simpl; [done | by rewrite IH]. Qed.

Lemma replace_all_app c r (a b : string) :
  replace_all c r (a +:+ b) = replace_all c r a +:+ replace_all c r b.
Proof.
  induction a as [| x a IH]; simpl; [done |].
  destruct (Ascii.eqb x c); rewrite IH;
    [symmetry; apply append_assoc_string | done].
Qed.

(** The five replacements of [escapeAttr] amount to one pass over the
    text. *)
Lemma escapeAttr_cons (a : ascii) (rest : string) :
  escapeAttr (String a rest) = attr_char a +:+ escapeAttr rest.
Proof.
  unfold escapeAttr, attr_char.
  change (String a rest) with (String a "" +:+ rest).
  rewrite !replace_all_app.
  destruct (Ascii.eqb_spec a "&") as [-> | N1]; [reflexivity |].
  destruct (Ascii.eqb_spec a "034") as [-> | N2]; [reflexivity |].
  destruct (Ascii.eqb_spec a "'") as [-> | N3]; [reflexivity |].
  destruct (Ascii.eqb_spec a "<") as [-> | N4]; [reflexivity |].
  destruct (Ascii.eqb_spec a ">") as [-> | N5]; [reflexivity |].
  apply Ascii.eqb_neq in N1, N2, N3, N4, N5.
  simpl. rewrite N1. simpl. rewrite N2. simpl. rewrite N3. simpl.
  rewrite N4. simpl. rewrite N5. reflexivity.
Qed.

Lemma read_from_app (r : reader) (s1 s2 : string) :
  read_from r (s1 +:+ s2) = read_from (read_from r s1) s2.
Proof. revert r. induction s1 as [| a s1 IH]; intros r; simpl; [done | apply IH]. Qed.

Lemma push_string_mode s r :
  r_mode (push_string s r) = r_mode r ∧ r_ref (push_string s r) = r_ref r.
Proof. unfold push_string. by destruct (r_mode r). Qed.

Lemma push_string_twice s1 s2 r :
  push_string s2 (push_string s1 r) = push_string (s1 +:+ s2) r.
Proof.
  unfold push_string. destruct (r_mode r); simpl;
    by rewrite append_assoc_string.
Qed.

Lemma push_string_empty r : push_string "" r = r.
Proof.
  unfold push_string. destruct r as [m rf t vl vs ns].
  destruct m; simpl; by rewrite append_nil_r_string.
Qed.

(** Inside a double-quoted attribute value, the reader takes what
    [escapeAttr] wrote for a character as that character. *)
Lemma read_attr_char (a : ascii) (r : reader) :
  r_mode r = AttrDQ → r_ref r = None →
  read_from r (attr_char a) = push_char a r.
Proof.
  destruct r as [m rf t vl vs ns]. simpl. intros -> ->. unfold attr_char.
  destruct (Ascii.eqb_spec a "&") as [-> | N1]; [reflexivity |].
  destruct (Ascii.eqb_spec a "034") as [-> | N2]; [reflexivity |].
  destruct (Ascii.eqb_spec a "'") as [-> | N3]; [reflexivity |].
  destruct (Ascii.eqb_spec a "<") as [-> | N4]; [reflexivity |].
  destruct (Ascii.eqb_spec a ">") as [-> | N5]; [reflexivity |].
  apply Ascii.eqb_neq in N1, N2.
  simpl. unfold read_char, plain. simpl. by rewrite N2, N1.
Qed.

(** In a text run, the reader takes what the serialisation of a text node
    wrote for a character as that character. *)
Lemma read_text_char (a : ascii) (r : reader) :
  r_mode r = Data → r_ref r = None →
  read_from r (serialize_text_char a) = push_char a r.
Proof.
  destruct r as [m rf t vl vs ns]. simpl. intros -> ->.
  unfold serialize_text_char.
  destruct (Ascii.eqb_spec a "&") as [-> | N1]; [reflexivity |].
  destruct (Ascii.eqb_spec a "160") as [-> | N2]; [reflexivity |].
  destruct (Ascii.eqb_spec a "<") as [-> | N3]; [reflexivity |].
  destruct (Ascii.eqb_spec a ">") as [-> | N4]; [reflexivity |].
  apply Ascii.eqb_neq in N1, N3.
  simpl. unfold read_char, plain. simpl. by rewrite N3, N1.
Qed.

Lemma read_escapeAttr (s : string) :
  ∀ r, r_mode r = AttrDQ → r_ref r = None →
       read_from r (escapeAttr s) = push_string s r.
Proof.
  induction s as [| a s IH]; intros r Hm Hr.
  - simpl. by rewrite push_string_empty.
  - rewrite escapeAttr_cons, read_from_app, read_attr_char by done.
    destruct (push_string_mode (String a "") r) as [Hm' Hr'].
    unfold push_char. rewrite IH by congruence.
    by rewrite push_string_twice.
Qed.

Lemma read_escapeHtml (s : string) :
  ∀ r, r_mode r = Data → r_ref r = None →
       read_from r (escapeHtml s) = push_string s r.
Proof.
  induction s as [| a s IH]; intros r Hm Hr.
  - simpl. by rewrite push_string_empty.
  - simpl escapeHtml. rewrite read_from_app, read_text_char by done.
    destruct (push_string_mode (String a "") r) as [Hm' Hr'].
    unfold push_char. rewrite IH by congruence.
    by rewrite push_string_twice.
Qed.

(** The markup of a card reads back as the tags of the template around
    the texts of the item, whatever characters these contain. *)
Lemma read_card_markup (v : video) : read_html (card_markup v) = card_nodes v.
Proof.
  unfold read_html, card_markup, card_nodes, quoted.
  generalize (js_or (thumbnail v)
                ("https://i.ytimg.com/vi/" +:+ video_id v +:+ "/hqdefault.jpg")).
  intros thumb.
  destruct (truthy (duration_str v)) eqn:Hd;
    destruct (truthy (uploader v)) eqn:Hu.
  all: repeat (progress (simpl read_from;
                         rewrite ?read_from_app;
                         rewrite ?read_escapeAttr, ?read_escapeHtml
                           by reflexivity)).
  all: destruct (title v) as [| t0 t];
    destruct (duration_str v) as [[| d0 d] |]; try discriminate Hd;
    destruct (uploader v) as [[| u0 u] |]; try discriminate Hu;
    vm_compute; reflexivity.
Qed.

Lemma occurs_app c (a b : string) :
  occurs c (a +:+ b) = occurs c a || occurs c b.
Proof.
  induction a as [| x a IH]; simpl; [done |]. by rewrite IH, orb_assoc.
Qed.

Lemma occurs_attr_char (c a : ascii) :
  c = "034"%char ∨ c = "'"%char ∨ c = "<"%char ∨ c = ">"%char →
  occurs c (attr_char a) = false.
Proof.
  intros Hc. unfold attr_char.
  destruct (Ascii.eqb_spec a "&") as [-> | N1];
    [destruct Hc as [-> | [-> | [-> | ->]]]; reflexivity |].
  destruct (Ascii.eqb_spec a "034") as [-> | N2];
    [destruct Hc as [-> | [-> | [-> | ->]]]; reflexivity |].
  destruct (Ascii.eqb_spec a "'") as [-> | N3];
    [destruct Hc as [-> | [-> | [-> | ->]]]; reflexivity |].
  destruct (Ascii.eqb_spec a "<") as [-> | N4];
    [destruct Hc as [-> | [-> | [-> | ->]]]; reflexivity |].
  destruct (Ascii.eqb_spec a ">") as [-> | N5];
    [destruct Hc as [-> | [-> | [-> | ->]]]; reflexivity |].
  simpl. rewrite orb_false_r. apply Ascii.eqb_neq.
  destruct Hc as [-> | [-> | [-> | ->]]]; congruence.
Qed.

Lemma occurs_text_char (c a : ascii) :
  c = "<"%char ∨ c = ">"%char →
  occurs c (serialize_text_char a) = false.
Proof.
  intros Hc. unfold serialize_text_char.
  destruct (Ascii.eqb_spec a "&") as [-> | N1];
    [destruct Hc as [-> | ->]; reflexivity |].
  destruct (Ascii.eqb_spec a "160") as [-> | N2];
    [destruct Hc as [-> | ->]; reflexivity |].
  destruct (Ascii.eqb_spec a "<") as [-> | N3];
    [destruct Hc as [-> | ->]; reflexivity |].
  destruct (Ascii.eqb_spec a ">") as [-> | N4];
    [destruct Hc as [-> | ->]; reflexivity |].
  simpl. rewrite orb_false_r. apply Ascii.eqb_neq.
  destruct Hc as [-> | ->]; congruence.
Qed.

(** What [escapeAttr] returns has no quote character and no angle bracket
    in it. *)
Lemma escapeAttr_inert (c : ascii) (text : string) :
  c = "034"%char ∨ c = "'"%char ∨ c = "<"%char ∨ c = ">"%char →
  occurs c (escapeAttr text) = false.
Proof.
  intros Hc. induction text as [| a text IH]; [reflexivity |].
  by rewrite escapeAttr_cons, occurs_app, occurs_attr_char, IH.
Qed.

(** What [escapeHtml] returns has no angle bracket in it. *)
Lemma escapeHtml_inert (c : ascii) (text : string) :
  c = "<"%char ∨ c = ">"%char →
  occurs c (escapeHtml text) = false.
Proof.
  intros Hc. induction text as [| a text IH]; [reflexivity |].
  simpl escapeHtml. by rewrite occurs_app, occurs_text_char, IH.
Qed.

(** C7, as stated, fails for the two quote characters: [escapeHtml] copies
    them, so a title with an apostrophe or a double quote is in the text
    content of its card as it is, not in escaped form. *)
Lemma quotes_not_escaped_in_text_content :
  escapeHtml "Rock 'n' Roll" = "Rock 'n' Roll"
  ∧ occurs "'" (escapeHtml "Rock 'n' Roll") = true
  ∧ occurs "034" (escapeHtml (quoted "Live")) = true
  ∧ index 0 (">Rock 'n' Roll</div>") (card_markup (item "a" "Rock 'n' Roll"))
    ≠ None
  ∧ index 0 ("&#39;n&#39; Roll</div>") (card_markup (item "a" "Rock 'n' Roll"))
    = None.
Proof. split_and!; try reflexivity. vm_compute. discriminate. Qed.

(** C7, amended.  The card template passes every text of the item through
    one of the two helpers: the thumbnail URL and the title (as [alt]) go
    into double-quoted attribute values through [escapeAttr], which replaces
    each of the five characters, so that the escaped value holds no quote
    and no angle bracket; the title, the uploader and the duration label go
    into text content through [escapeHtml], which replaces the ampersand and
    the angle brackets (and U+00A0) and copies the two quote characters, so
    that the escaped text holds no angle bracket.  Read back, the markup of
    the card is the tags of the template, with the texts of the item as
    attribute values and text runs exactly as they were received: no
    character of a title, uploader, duration or thumbnail URL opens or closes
    a tag or an attribute value. *)
Theorem card_markup_renders_item_text_literally :
  ∀ (v : video) (text : string),
    read_html (card_markup v) = card_nodes v
    ∧ occurs "034" (escapeAttr text) = false
    ∧ occurs "'" (escapeAttr text) = false
    ∧ occurs "<" (escapeAttr text) = false
    ∧ occurs ">" (escapeAttr text) = false
    ∧ occurs "<" (escapeHtml text) = false
    ∧ occurs ">" (escapeHtml text) = false.
Proof.
  intros v text. split_and!.
  - apply read_card_markup.
  - apply escapeAttr_inert. auto.
  - apply escapeAttr_inert. auto.
  - apply escapeAttr_inert. auto.
  - apply escapeAttr_inert. auto.
  - apply escapeHtml_inert. auto.
  - apply escapeHtml_inert. auto.
Qed.

Example card_of_hostile_title :
  let v := {| video_id := "a";
              title := "<img src=x onerror=alert(1)> & co";
              url := "u"; thumbnail := None; duration_str := None;
              uploader := Some "</div><script>" |} in
  escapeHtml (title v) = "&lt;img src=x onerror=alert(1)&gt; &amp; co"
  ∧ Text (title v) ∈ read_html (card_markup v)
  ∧ Text "</div><script>" ∈ read_html (card_markup v).
Proof.
  cbv zeta. split; [reflexivity |].
  rewrite read_card_markup.
  split; apply list_elem_of_In; vm_compute; tauto.
Qed.

(** * Further properties *)

(** Membership in a class list after [add] and [remove]. *)
Ltac class_solver :=
  repeat first [ rewrite elem_of_union | rewrite elem_of_difference
               | rewrite elem_of_singleton ];
  intuition congruence.

(** ** Sections and extraction *)

(** X1.  [showSection] leaves exactly the section named without the class
    [hidden]: each of the three sections is hidden if and only if its name
    is not the one given (so any other name hides all three), and no other
    element and no card is touched. *)
Theorem showSection_shows_one :
  ∀ (name : string) (d : dom),
    ("hidden" ∈ classList (el (showSection name d) inputSection)
     ↔ name ≠ "input")
    ∧ ("hidden" ∈ classList (el (showSection name d) loadingSection)
       ↔ name ≠ "loading")
    ∧ ("hidden" ∈ classList (el (showSection name d) resultsSection)
       ↔ name ≠ "results")
    ∧ (∀ i, i ≠ inputSection → i ≠ loadingSection → i ≠ resultsSection →
            el (showSection name d) i = el d i)
    ∧ cards (showSection name d) = cards d.
Proof.
  intros name d. unfold showSection, class_toggle. split_and!.
  - simpl. destruct (String.eqb_spec name "input") as [-> | N]; simpl;
      class_solver.
  - simpl. destruct (String.eqb_spec name "loading") as [-> | N]; simpl;
      class_solver.
  - simpl. destruct (String.eqb_spec name "results") as [-> | N]; simpl;
      class_solver.
  - intros i H1 H2 H3. simpl. repeat case_decide; congruence.
  - reflexivity.
Qed.

(** X2.  When the URL typed in is empty after trimming, or does not start
    with [http], [extractPlaylist] sends no request and leaves the
    variables, the cards and the sections as they are; it only shows the
    error message of the check that failed. *)
Theorem extractPlaylist_rejects_url :
  ∀ (outcome : extractOutcome) (w : Public.world) (v : Static.world),
    ¬ url_accepted (Public.page w) →
    ¬ url_accepted (Static.page v) →
    let w' := Public.extractPlaylist outcome w in
    let v' := Static.extractPlaylist outcome v in
    Public.st w' = Public.st w
    ∧ Public.fetches w' = Public.fetches w
    ∧ cards (Public.page w') = cards (Public.page w)
    ∧ (∀ i, i ≠ errorMsg → el (Public.page w') i = el (Public.page w) i)
    ∧ ("hidden" ∉ classList (el (Public.page w') errorMsg))
    ∧ textContent (el (Public.page w') errorMsg)
      = (if String.eqb (trim (value (el (Public.page w) urlInput))) ""
         then "Please enter a URL"
         else "Please enter a valid URL starting with http:// or https://")
    ∧ Static.st v' = Static.st v
    ∧ Static.fetches v' = Static.fetches v
    ∧ cards (Static.page v') = cards (Static.page v)
    ∧ (∀ i, i ≠ errorMsg → el (Static.page v') i = el (Static.page v) i)
    ∧ ("hidden" ∉ classList (el (Static.page v') errorMsg))
    ∧ textContent (el (Static.page v') errorMsg)
      = (if String.eqb (trim (value (el (Static.page v) urlInput))) ""
         then "Please enter a URL"
         else "Please enter a valid URL starting with http:// or https://").
Proof.
  intros outcome w v Hw Hv. unfold url_accepted in Hw, Hv. simpl.
  unfold Public.extractPlaylist, Static.extractPlaylist.
  destruct (String.eqb (trim (value (el (Public.page w) urlInput))) "") eqn:W1;
    [| destruct (String.prefix "http"
                   (trim (value (el (Public.page w) urlInput)))) eqn:W2;
       [exfalso; by apply Hw |]];
    (destruct (String.eqb (trim (value (el (Static.page v) urlInput))) "") eqn:V1;
     [| destruct (String.prefix "http"
                    (trim (value (el (Static.page v) urlInput)))) eqn:V2;
        [exfalso; by apply Hv |]]);
    simpl; (split_and!; try reflexivity;
            try (intros i Hi; by repeat case_decide);
            class_solver).
Qed.

Lemma extractPlaylist_rejects_url_witness :
  ¬ url_accepted (page_with_url "   ")
  ∧ ¬ url_accepted (page_with_url "ftp://example.org/list")
  ∧ Public.fetches
      (Public.extractPlaylist (playlist_of three_items)
         (Public.init (page_with_url "   "))) = []
  ∧ textContent
      (el (Static.page
             (Static.extractPlaylist (playlist_of three_items)
                (Static.init (page_with_url "ftp://example.org/list"))))
          errorMsg)
    = "Please enter a valid URL starting with http:// or https://".
Proof.
  assert (¬ url_accepted (page_with_url "   ")) as H1
    by (intros [H _]; vm_compute in H; discriminate).
  assert (¬ url_accepted (page_with_url "ftp://example.org/list")) as H2
    by (intros [_ H]; vm_compute in H; discriminate).
  pose proof (extractPlaylist_rejects_url (playlist_of three_items)
                (Public.init (page_with_url "   "))
                (Static.init (page_with_url "ftp://example.org/list"))
                H1 H2) as H.
  cbv zeta in H.
  destruct H as (_ & F & _ & _ & _ & _ & _ & _ & _ & _ & _ & T).
  split_and!; [exact H1 | exact H2 | exact F | exact T].
Defined.

(** X3.  With an acceptable URL, [extractPlaylist] sends exactly one
    request, a POST to [/api/extract] with the trimmed URL, and whatever the
    outcome it ends with the extract button enabled and the loading section
    hidden.  On a failure (request rejected, response not ok, body
    unreadable) the input section is shown again with the message of the
    error, falling back to [Extraction failed] when the error body has no
    [detail], and the cards stay as they were; on success the results
    section is shown and the error message stays hidden. *)
Theorem extractPlaylist_request_and_outcome :
  ∀ (outcome : extractOutcome) (w : Public.world) (v : Static.world),
    url_accepted (Public.page w) →
    url_accepted (Static.page v) →
    let w' := Public.extractPlaylist outcome w in
    let v' := Static.extractPlaylist outcome v in
    Public.fetches w' = Public.fetches w ++ [extract_request (Public.page w)]
    ∧ disabled (el (Public.page w') extractBtn) = false
    ∧ "hidden" ∈ classList (el (Public.page w') loadingSection)
    ∧ match extract_failure_message outcome with
      | Some message =>
          ("hidden" ∉ classList (el (Public.page w') inputSection))
          ∧ "hidden" ∈ classList (el (Public.page w') resultsSection)
          ∧ ("hidden" ∉ classList (el (Public.page w') errorMsg))
          ∧ textContent (el (Public.page w') errorMsg) = message
          ∧ cards (Public.page w') = cards (Public.page w)
      | None =>
          "hidden" ∈ classList (el (Public.page w') inputSection)
          ∧ ("hidden" ∉ classList (el (Public.page w') resultsSection))
          ∧ "hidden" ∈ classList (el (Public.page w') errorMsg)
      end
    ∧ Static.fetches v' = Static.fetches v ++ [extract_request (Static.page v)]
    ∧ disabled (el (Static.page v') extractBtn) = false
    ∧ "hidden" ∈ classList (el (Static.page v') loadingSection)
    ∧ match extract_failure_message outcome with
      | Some message =>
          ("hidden" ∉ classList (el (Static.page v') inputSection))
          ∧ "hidden" ∈ classList (el (Static.page v') resultsSection)
          ∧ ("hidden" ∉ classList (el (Static.page v') errorMsg))
          ∧ textContent (el (Static.page v') errorMsg) = message
          ∧ cards (Static.page v') = cards (Static.page v)
      | None =>
          "hidden" ∈ classList (el (Static.page v') inputSection)
          ∧ ("hidden" ∉ classList (el (Static.page v') resultsSection))
          ∧ "hidden" ∈ classList (el (Static.page v') errorMsg)
      end.
Proof.
  intros outcome w v [W1 W2] [V1 V2]. simpl.
  unfold Public.extractPlaylist, Static.extractPlaylist, extract_request.
  rewrite W1, W2, V1, V2.
  destruct outcome as [msg | [msg | detail] | [msg | data]]; simpl;
    (split_and!; try reflexivity; class_solver).
Qed.

Lemma extractPlaylist_request_and_outcome_witness :
  url_accepted (Public.page public_retyped)
  ∧ url_accepted (Static.page static_retyped)
  ∧ textContent
      (el (Public.page
             (Public.extractPlaylist (ExtractNotOk (Parsed None)) public_retyped))
          errorMsg) = "Extraction failed"
  ∧ Static.fetches
      (Static.extractPlaylist (ExtractNotOk (Parsed None)) static_retyped)
    = Static.fetches static_retyped ++ [extract_request (Static.page static_retyped)].
Proof.
  assert (url_accepted (Public.page public_retyped)) as H1
    by (split; reflexivity).
  assert (url_accepted (Static.page static_retyped)) as H2
    by (split; reflexivity).
  pose proof (extractPlaylist_request_and_outcome (ExtractNotOk (Parsed None))
                public_retyped static_retyped H1 H2) as H.
  cbv zeta in H. simpl extract_failure_message in H.
  destruct H as (_ & _ & _ & (_ & _ & _ & T & _) & F & _).
  split_and!; [exact H1 | exact H2 | exact T | exact F].
Defined.

Lemma members_of_list (l : list string) :
  JSSet.members (JSSet.of_list l) = list_to_set l.
Proof.
  apply set_eq. intros x. unfold JSSet.members.
  by rewrite !elem_of_list_to_set, elem_of_of_list.
Qed.

(** X4.  After a successful extraction the playlist is the list of items
    received, the selection holds exactly the identifiers received, the
    completed and error sets are empty and [allSelected] is set; the grid
    holds one card per item, in the order received, each with the classes
    [video-card] and [selected], an empty icon, no progress and no error
    text; the count line and the download button show the number of items
    and of selected identifiers, and the button is disabled exactly when
    nothing is selected (or, in the sequential variant, a run is in
    progress).  The push-stream variant also stores the session identifier
    and hides the ZIP section. *)
Theorem extractPlaylist_populates :
  ∀ (data : extractData) (w : Public.world) (v : Static.world),
    url_accepted (Public.page w) →
    url_accepted (Static.page v) →
    let w' := Public.extractPlaylist (ExtractOk (Parsed data)) w in
    let v' := Static.extractPlaylist (ExtractOk (Parsed data)) v in
    let n := JSSet.size (JSSet.of_list (map video_id (data_videos data))) in
    Public.videos (Public.st w') = data_videos data
    ∧ JSSet.members (Public.selectedIds (Public.st w'))
      = list_to_set (map video_id (data_videos data))
    ∧ NoDup (Public.selectedIds (Public.st w'))
    ∧ Public.downloadedIds (Public.st w') = []
    ∧ Public.errorIds (Public.st w') = []
    ∧ Public.allSelected (Public.st w') = true
    ∧ cards (Public.page w') = map new_card (data_videos data)
    ∧ textContent (el (Public.page w') playlistTitleEl) = data_title data
    ∧ textContent (el (Public.page w') videoCountEl)
      = video_count_text (length (data_videos data))
    ∧ textContent (el (Public.page w') downloadSelectedBtn)
      = "Download Selected (" +:+ show_nat n +:+ ")"
    ∧ disabled (el (Public.page w') downloadSelectedBtn)
      = (Nat.eqb n 0 || Public.isDownloading (Public.st w))
    ∧ Static.videos (Static.st v') = data_videos data
    ∧ JSSet.members (Static.selectedIds (Static.st v'))
      = list_to_set (map video_id (data_videos data))
    ∧ NoDup (Static.selectedIds (Static.st v'))
    ∧ Static.downloadedIds (Static.st v') = []
    ∧ Static.errorIds (Static.st v') = []
    ∧ Static.allSelected (Static.st v') = true
    ∧ Static.sessionId (Static.st v') = data_session_id data
    ∧ Static.playlistTitle (Static.st v') = data_title data
    ∧ cards (Static.page v') = map new_card (data_videos data)
    ∧ textContent (el (Static.page v') playlistTitleEl) = data_title data
    ∧ textContent (el (Static.page v') videoCountEl)
      = video_count_text (length (data_videos data))
    ∧ textContent (el (Static.page v') downloadSelectedBtn)
      = "Download Selected (" +:+ show_nat n +:+ ")"
    ∧ disabled (el (Static.page v') downloadSelectedBtn) = Nat.eqb n 0
    ∧ "hidden" ∈ classList (el (Static.page v') zipSection).
Proof.
  intros data w v [W1 W2] [V1 V2]. cbv zeta.
  unfold Public.extractPlaylist, Static.extractPlaylist.
  rewrite W1, W2, V1, V2. simpl.
  split_and!; try reflexivity;
    try apply members_of_list; try apply NoDup_of_list.
  class_solver.
Qed.

Lemma extractPlaylist_populates_witness :
  url_accepted (page_with_url "https://example.org/playlist?list=1")
  ∧ Public.selectedIds
      (Public.st (Public.extractPlaylist (ExtractOk (Parsed repeated_item_data))
                    (Public.init (page_with_url "https://example.org/playlist?list=1"))))
    = ["a"; "b"]
  ∧ cards
      (Static.page (Static.extractPlaylist (ExtractOk (Parsed repeated_item_data))
                      (Static.init (page_with_url "https://example.org/playlist?list=1"))))
    = map new_card (data_videos repeated_item_data)
  ∧ Static.errorIds
      (Static.st (Static.extractPlaylist (ExtractOk (Parsed repeated_item_data))
                    (Static.init (page_with_url "https://example.org/playlist?list=1"))))
    = [].
Proof.
  assert (url_accepted (page_with_url "https://example.org/playlist?list=1"))
    as H by (split; reflexivity).
  destruct (extractPlaylist_populates repeated_item_data
              (Public.init (page_with_url "https://example.org/playlist?list=1"))
              (Static.init (page_with_url "https://example.org/playlist?list=1"))
              H H)
    as (_ & _ & _ & _ & _ & _ & _ & _ & _ & _ & _ & _ & _ & _ & _ & E & _ & _
        & _ & C & _).
  split_and!; [exact H | reflexivity | exact C | exact E].
Defined.

(** ** The busy flag of the sequential variant *)

Lemma busy_listeners_return i onIcon net (w : Public.world) :
  Public.isDownloading (Public.st w) = true →
  Public.card_click i onIcon w = w
  ∧ Public.selectAll_click w = w
  ∧ Public.newPlaylist_click w = w
  ∧ Public.format_click i w = w
  ∧ Public.download_click net w = w.
Proof.
  intros Hbusy.
  unfold Public.card_click, Public.selectAll_click, Public.newPlaylist_click,
    Public.format_click, Public.download_click.
  rewrite Hbusy, orb_true_r.
  destruct (cards (Public.page w) !! i); [destruct onIcon |];
    destruct (formatBtns (Public.page w) !! i); done.
Qed.

(** One iteration of the download loop writes no element but the status
    line, the progress text and the progress fill. *)
Lemma download_one_elements outcome totalCount videoId
    (tw : tally * Public.world) (i : elemId) :
  i ≠ downloadStatus → i ≠ overallProgress → i ≠ overallProgressFill →
  el (Public.page (snd (Public.download_one outcome totalCount videoId tw))) i
  = el (Public.page (snd tw)) i.
Proof.
  intros H1 H2 H3. destruct tw as [t w]. unfold Public.download_one. simpl.
  destruct (find_video videoId (Public.videos (Public.st w))); [| done].
  destruct outcome; simpl; by repeat case_decide.
Qed.

Lemma download_loop_elements net totalCount videoIds (i : elemId) :
  i ≠ downloadStatus → i ≠ overallProgress → i ≠ overallProgressFill →
  ∀ n (tw : tally * Public.world),
    el (Public.page (snd (Public.download_loop net n totalCount videoIds tw))) i
    = el (Public.page (snd tw)) i.
Proof.
  intros H1 H2 H3.
  induction videoIds as [| videoId rest IH]; intros n tw; simpl; [done |].
  rewrite IH. by apply download_one_elements.
Qed.

(** X5.  In the sequential variant a run keeps the page busy from its first
    statement to its last: at every point of the loop (after any number [n]
    of the identifiers) [isDownloading] is set and the download and
    select-all buttons are disabled, and a click on a card, on the
    select-all button, on New Playlist, on a format button or on the
    download button changes nothing. *)
Theorem run_in_progress_ignores_clicks :
  ∀ (net net' : nat → downloadOutcome) (n : nat) (videoIds : list string)
    (w : Public.world) (i : nat) (onIcon : bool),
    let mid := snd (Public.download_prefix net n videoIds w) in
    Public.isDownloading (Public.st mid) = true
    ∧ disabled (el (Public.page mid) downloadSelectedBtn) = true
    ∧ disabled (el (Public.page mid) selectAllBtn) = true
    ∧ Public.card_click i onIcon mid = mid
    ∧ Public.selectAll_click mid = mid
    ∧ Public.newPlaylist_click mid = mid
    ∧ Public.format_click i mid = mid
    ∧ Public.download_click net' mid = mid.
Proof.
  intros net net' n videoIds w i onIcon. cbv zeta.
  unfold Public.download_prefix.
  destruct (download_loop_vars net (length videoIds) (take n videoIds) 0
              (tally0, Public.download_begin videoIds w)) as (_ & _ & Hbusy).
  simpl in Hbusy.
  split_and!; [exact Hbusy | | | ..].
  - by rewrite download_loop_elements.
  - by rewrite download_loop_elements.
  - by apply (busy_listeners_return i onIcon net').
  - by apply (busy_listeners_return i onIcon net').
  - by apply (busy_listeners_return i onIcon net').
  - by apply (busy_listeners_return i onIcon net').
  - by apply (busy_listeners_return i onIcon net').
Qed.

(** ** What a sequential run sends and saves *)

Lemma download_requests_ext (w1 w2 : Public.world) videoId :
  Public.videos (Public.st w1) = Public.videos (Public.st w2) →
  Public.selectedFormat (Public.st w1) = Public.selectedFormat (Public.st w2) →
  download_requests w1 videoId = download_requests w2 videoId.
Proof. unfold download_requests. by intros -> ->. Qed.

Lemma download_one_log outcome totalCount videoId (tw : tally * Public.world) :
  let tw' := Public.download_one outcome totalCount videoId tw in
  let hit := if bool_decide (videoId ∈ map video_id (Public.videos (Public.st (snd tw))))
                && download_ok outcome
             then [videoId] else [] in
  Public.fetches (snd tw')
  = Public.fetches (snd tw) ++ download_requests (snd tw) videoId
  ∧ Public.saved (snd tw') = Public.saved (snd tw) ++ hit
  ∧ completedCount (fst tw') = completedCount (fst tw) + length hit
  ∧ Public.selectedFormat (Public.st (snd tw'))
    = Public.selectedFormat (Public.st (snd tw)).
Proof.
  destruct tw as [t w]. simpl. unfold Public.download_one, download_requests.
  destruct (find_video videoId (Public.videos (Public.st w))) as [v |] eqn:E.
  - assert (videoId ∈ map video_id (Public.videos (Public.st w))) as Hin.
    { destruct (decide (videoId ∈ map video_id (Public.videos (Public.st w))))
        as [? | Hn]; [done |]. apply find_video_None in Hn. congruence. }
    rewrite (bool_decide_eq_true_2 _ Hin).
    destruct outcome; simpl; rewrite ?app_nil_r; (split_and!; try done; lia).
  - apply find_video_None in E. rewrite (bool_decide_eq_false_2 _ E). simpl.
    rewrite !app_nil_r. split_and!; try done; lia.
Qed.

Lemma download_loop_log net totalCount videoIds :
  ∀ i (tw : tally * Public.world),
    let tw' := Public.download_loop net i totalCount videoIds tw in
    let hits := downloaded_of net i (Public.videos (Public.st (snd tw))) videoIds in
    Public.fetches (snd tw')
    = Public.fetches (snd tw) ++ flat_map (download_requests (snd tw)) videoIds
    ∧ Public.saved (snd tw') = Public.saved (snd tw) ++ hits
    ∧ completedCount (fst tw') = completedCount (fst tw) + length hits
    ∧ Public.downloadedIds (Public.st (snd tw'))
      = foldl (λ s x, JSSet.add x s) (Public.downloadedIds (Public.st (snd tw))) hits.
Proof.
  induction videoIds as [| videoId rest IH]; intros i tw.
  - simpl. rewrite !app_nil_r. split_and!; try done; lia.
  - cbn [Public.download_loop downloaded_of flat_map]. cbv zeta.
    destruct (IH (S i) (Public.download_one (net i) totalCount videoId tw))
      as (I1 & I2 & I3 & I4). cbv zeta in I1, I2, I3, I4.
    destruct (download_one_log (net i) totalCount videoId tw)
      as (L1 & L2 & L3 & L4). cbv zeta in L1, L2, L3.
    destruct (download_one_vars (net i) totalCount videoId tw)
      as (V1 & _ & _ & V4 & _). cbv zeta in V4.
    rewrite V1 in I2, I3, I4.
    rewrite I1, I2, I3, I4, L1, L2, L3, V4.
    rewrite !length_app, <- !app_assoc, foldl_app.
    assert (flat_map (download_requests
                        (snd (Public.download_one (net i) totalCount videoId tw)))
              rest
            = flat_map (download_requests (snd tw)) rest) as ->.
    { apply flat_map_ext. intros x. by apply download_requests_ext. }
    split_and!; try done; [lia |].
    f_equal. by destruct (_ && _).
Qed.

(** The statements after the loop hand nothing to the browser. *)
Lemma download_end_saved (tw : tally * Public.world) :
  Public.saved (snd (Public.download_end tw)) = Public.saved (snd tw).
Proof.
  destruct tw as [t w1]. unfold Public.download_end.
  by destruct (summary_marks_complete _ _).
Qed.

(** X6.  A run of the sequential variant, the identifiers that are items of
    the playlist being identifiers for which the selector of a card is the
    test for the identifier, sends, after what was sent before, one
    [POST /api/download] per identifier that is an item of the playlist, in
    the order of the identifiers, each with the URL and the title of its
    item and the format selected when the run started, and nothing for an
    identifier that is no item.  The files handed to the browser are those
    of the requests that succeeded, in the same order; they are counted by
    [completedCount] and are the identifiers added to the completed set. *)
Theorem startDownloads_requests_and_files :
  ∀ (net : nat → downloadOutcome) (videoIds : list string) (w : Public.world),
    (∀ x, x ∈ videoIds → x ∈ map video_id (Public.videos (Public.st w)) →
          selector_safe x = true) →
    let fin := Public.startDownloads net videoIds w in
    let hits := downloaded_of net 0 (Public.videos (Public.st w)) videoIds in
    Public.fetches (snd fin)
    = Public.fetches w ++ flat_map (download_requests w) videoIds
    ∧ Public.saved (snd fin) = Public.saved w ++ hits
    ∧ completedCount (fst fin) = length hits
    ∧ Public.downloadedIds (Public.st (snd fin))
      = foldl (λ s x, JSSet.add x s) (Public.downloadedIds (Public.st w)) hits.
Proof.
  intros net videoIds w _. cbv zeta. unfold Public.startDownloads.
  destruct (download_end_spec
              (Public.download_loop net 0 (length videoIds) videoIds
                 (tally0, Public.download_begin videoIds w)))
    as (E1 & E2 & _ & E4 & _).
  destruct (download_loop_log net (length videoIds) videoIds 0
              (tally0, Public.download_begin videoIds w)) as (L1 & L2 & L3 & L4).
  cbv zeta in L1, L2, L3, L4.
  rewrite download_end_saved, E1, E2, E4, L1, L2, L3, L4. simpl.
  split_and!; done.
Qed.

Lemma startDownloads_requests_and_files_witness :
  Public.saved
    (snd (Public.startDownloads first_fails ["a"; "ghost"; "c"]
            (public_loaded three_items)))
  = ["c"]
  ∧ length
      (Public.fetches
         (snd (Public.startDownloads first_fails ["a"; "ghost"; "c"]
                 (public_loaded three_items))))
    = 3.
Proof.
  assert (∀ x, x ∈ ["a"; "ghost"; "c"] →
               x ∈ map video_id
                     (Public.videos (Public.st (public_loaded three_items))) →
               selector_safe x = true) as Hs.
  { intros x Hx _. repeat (apply elem_of_cons in Hx as [-> | Hx]);
      [reflexivity | reflexivity | reflexivity | by apply elem_of_nil in Hx]. }
  destruct (startDownloads_requests_and_files first_fails ["a"; "ghost"; "c"]
              (public_loaded three_items) Hs) as (F & S & _).
  cbv zeta in F, S. rewrite F, S. split; reflexivity.
Defined.

Lemma downloaded_of_all_ok net vs videoIds :
  ∀ i, (∀ x, x ∈ videoIds → x ∈ map video_id vs) →
       (∀ k, k < length videoIds → download_ok (net (i + k)) = true) →
       downloaded_of net i vs videoIds = videoIds.
Proof.
  induction videoIds as [| x rest IH]; intros i Hin Hok; simpl; [done |].
  rewrite bool_decide_eq_true_2 by (apply Hin; left).
  specialize (Hok 0 ltac:(simpl; lia)) as H0. rewrite Nat.add_0_r in H0.
  rewrite H0. simpl. f_equal. apply IH.
  - intros y Hy. apply Hin. by right.
  - intros k Hk. rewrite Nat.add_succ_comm. apply Hok. simpl. lia.
Qed.

Lemma downloaded_of_none_ok net vs videoIds :
  ∀ i, (∀ k, k < length videoIds → download_ok (net (i + k)) = false) →
       downloaded_of net i vs videoIds = [].
Proof.
  induction videoIds as [| x rest IH]; intros i Hok; simpl; [done |].
  specialize (Hok 0 ltac:(simpl; lia)) as H0. rewrite Nat.add_0_r in H0.
  rewrite H0, andb_false_r. simpl. apply IH.
  intros k Hk. rewrite Nat.add_succ_comm. apply Hok. simpl. lia.
Qed.

Lemma download_loop_fill_classes net totalCount videoIds :
  ∀ n (tw : tally * Public.world),
    classList (el (Public.page
                     (snd (Public.download_loop net n totalCount videoIds tw)))
                  overallProgressFill)
    = classList (el (Public.page (snd tw)) overallProgressFill).
Proof.
  induction videoIds as [| videoId rest IH]; intros n tw; simpl; [done |].
  rewrite IH. destruct tw as [t w]. unfold Public.download_one. simpl.
  destruct (find_video videoId (Public.videos (Public.st w))); [| done].
  destruct (net n); simpl;
    (destruct (decide (overallProgressFill = overallProgressFill)); [| done]);
    apply set_style_width_keeps.
Qed.

(** X7.  A run of the sequential variant over selected items of the
    playlist, with identifiers for which the selector of a card is the test
    for the identifier, ends with the busy flag cleared, the two buttons enabled and
    the download bar shown.  Its status line is the summary of the two
    tallies, the successes and the rest: when every request succeeded it
    reads [All T downloads complete!]; when every request failed it reads
    [All T downloads failed], nothing was handed to the browser, and the
    progress fill does not get the class [complete], which it gets in every
    other case. *)
Theorem startDownloads_summary :
  ∀ (net : nat → downloadOutcome) (videoIds : list string) (w : Public.world),
    videoIds ≠ [] →
    (∀ x, x ∈ videoIds → x ∈ map video_id (Public.videos (Public.st w))) →
    (∀ x, x ∈ videoIds → selector_safe x = true) →
    let fin := Public.startDownloads net videoIds w in
    let T := length videoIds in
    let c := length (downloaded_of net 0 (Public.videos (Public.st w)) videoIds) in
    Public.isDownloading (Public.st (snd fin)) = false
    ∧ disabled (el (Public.page (snd fin)) downloadSelectedBtn) = false
    ∧ disabled (el (Public.page (snd fin)) selectAllBtn) = false
    ∧ ("hidden" ∉ classList (el (Public.page (snd fin)) downloadBar))
    ∧ completedCount (fst fin) = c
    ∧ errorCount (fst fin) = T - c
    ∧ textContent (el (Public.page (snd fin)) downloadStatus)
      = summary_text c (T - c)
    ∧ ("complete" ∈ classList (el (Public.page (snd fin)) overallProgressFill)
       ↔ c ≠ 0)
    ∧ ((∀ k, k < T → download_ok (net k) = true) →
       textContent (el (Public.page (snd fin)) downloadStatus)
       = "All " +:+ show_nat T +:+ " downloads complete!"
       ∧ Public.saved (snd fin) = Public.saved w ++ videoIds)
    ∧ ((∀ k, k < T → download_ok (net k) = false) →
       textContent (el (Public.page (snd fin)) downloadStatus)
       = "All " +:+ show_nat T +:+ " downloads failed"
       ∧ Public.saved (snd fin) = Public.saved w
       ∧ "complete" ∉ classList (el (Public.page (snd fin)) overallProgressFill)).
Proof.
  intros net videoIds w Hne Hin _. cbv zeta.
  assert (Public.saved (snd (Public.startDownloads net videoIds w))
          = Public.saved w
            ++ downloaded_of net 0 (Public.videos (Public.st w)) videoIds
          ∧ completedCount (fst (Public.startDownloads net videoIds w))
            = length (downloaded_of net 0 (Public.videos (Public.st w))
                        videoIds)) as [Hsaved Hc].
  { unfold Public.startDownloads.
    destruct (download_end_spec
                (Public.download_loop net 0 (length videoIds) videoIds
                   (tally0, Public.download_begin videoIds w))) as (E1 & _).
    destruct (download_loop_log net (length videoIds) videoIds 0
                (tally0, Public.download_begin videoIds w))
      as (_ & L2 & L3 & _).
    cbv zeta in L2, L3. rewrite download_end_saved, E1, L2, L3. done. }
  assert (completedCount (fst (Public.startDownloads net videoIds w))
          + errorCount (fst (Public.startDownloads net videoIds w))
          = length videoIds) as Hsum.
  { unfold Public.startDownloads.
    destruct (download_loop_found net (length videoIds) videoIds 0
                (tally0, Public.download_begin videoIds w) Hin)
      as (F1 & _).
    destruct (download_end_spec
                (Public.download_loop net 0 (length videoIds) videoIds
                   (tally0, Public.download_begin videoIds w))) as (E1 & _).
    rewrite E1. exact F1. }
  set (c := length (downloaded_of net 0 (Public.videos (Public.st w)) videoIds))
    in *.
  assert (0 < length videoIds) as Hpos
    by (destruct videoIds; [done | simpl; lia]).
  assert (errorCount (fst (Public.startDownloads net videoIds w))
          = length videoIds - c) as He by lia.
  assert (c ≤ length videoIds)%nat as Hle by lia.
  unfold Public.startDownloads in *.
  pose proof (download_loop_fill_classes net (length videoIds) videoIds 0
                (tally0, Public.download_begin videoIds w)) as Hfill.
  pose proof (download_loop_elements net (length videoIds) videoIds downloadBar
                ltac:(done) ltac:(done) ltac:(done) 0
                (tally0, Public.download_begin videoIds w)) as Hbar.
  destruct (Public.download_loop net 0 (length videoIds) videoIds
              (tally0, Public.download_begin videoIds w)) as [t w1] eqn:Eloop.
  unfold Public.download_end in *. simpl in Hc, He, Hfill, Hbar, Hsaved.
  assert ((if summary_marks_complete (completedCount t) (errorCount t)
           then Public.saved w1 else Public.saved w1)
          = Public.saved w1) as Hs0 by (by destruct (summary_marks_complete _ _)).
  assert (Public.saved w1 = Public.saved w ++
            downloaded_of net 0 (Public.videos (Public.st w)) videoIds) as Hsaved'.
  { rewrite <- Hsaved. by destruct (summary_marks_complete _ _). }
  clear Hs0 Hsaved.
  assert (summary_marks_complete (completedCount t) (errorCount t)
          = negb (Nat.eqb c 0)) as Hm.
  { unfold summary_marks_complete. rewrite Hc, He.
    destruct (Nat.eqb_spec c 0) as [-> | ?]; simpl.
    - destruct (Nat.eqb_spec (length videoIds - 0) 0); [lia | done].
    - by rewrite orb_true_r. }
  rewrite Hm. rewrite Hc, He.
  destruct (Nat.eqb_spec c 0) as [E0 | N0]; simpl.
  - (* nothing was downloaded *)
    split_and!; try done.
    + rewrite Hbar. simpl. class_solver.
    + rewrite Hfill. simpl. class_solver.
    + intros Hok.
      rewrite (downloaded_of_all_ok net _ videoIds 0 Hin) in Hsaved'
        by (intros k Hk; by apply Hok).
      subst c. rewrite (downloaded_of_all_ok net _ videoIds 0 Hin) in E0
        by (intros k Hk; by apply Hok). lia.
    + intros Hfail. rewrite E0, Nat.sub_0_r.
      unfold summary_text.
      destruct (Nat.eqb_spec (length videoIds) 0); [lia |]. simpl.
      split_and!; [done | |].
      * rewrite Hsaved'.
        rewrite (downloaded_of_none_ok net _ videoIds 0)
          by (intros k Hk; by apply Hfail).
        by rewrite app_nil_r.
      * rewrite Hfill. simpl. class_solver.
  - (* something was downloaded *)
    split_and!; try done.
    + rewrite Hbar. simpl. class_solver.
    + class_solver.
    + intros Hok.
      assert (c = length videoIds) as Hall.
      { subst c. by rewrite (downloaded_of_all_ok net _ videoIds 0 Hin)
          by (intros k Hk; by apply Hok). }
      rewrite Hall, Nat.sub_diag. split; [reflexivity |].
      rewrite Hsaved'.
      by rewrite (downloaded_of_all_ok net _ videoIds 0 Hin)
        by (intros k Hk; by apply Hok).
    + intros Hfail. exfalso. apply N0. subst c.
      by rewrite (downloaded_of_none_ok net _ videoIds 0)
        by (intros k Hk; by apply Hfail).
Qed.

Lemma startDownloads_summary_witness :
  ["a"; "b"; "c"] ≠ []
  ∧ (∀ x, x ∈ ["a"; "b"; "c"] →
          x ∈ map video_id (Public.videos (Public.st (public_loaded three_items))))
  ∧ textContent
      (el (Public.page
             (snd (Public.startDownloads first_fails ["a"; "b"; "c"]
                     (public_loaded three_items))))
          downloadStatus)
    = "2 downloaded, 1 failed"
  ∧ Public.isDownloading
      (Public.st (snd (Public.startDownloads first_fails ["a"; "b"; "c"]
                         (public_loaded three_items)))) = false.
Proof.
  assert (["a"; "b"; "c"] ≠ []) as H1 by discriminate.
  assert (∀ x, x ∈ ["a"; "b"; "c"] →
               x ∈ map video_id
                     (Public.videos (Public.st (public_loaded three_items))))
    as H2 by (intros x Hx; exact Hx).
  assert (∀ x, x ∈ ["a"; "b"; "c"] → selector_safe x = true) as Hs.
  { intros x Hx. repeat (apply elem_of_cons in Hx as [-> | Hx]);
      [reflexivity | reflexivity | reflexivity | by apply elem_of_nil in Hx]. }
  destruct (startDownloads_summary first_fails ["a"; "b"; "c"]
              (public_loaded three_items) H1 H2 Hs)
    as (B & _ & _ & _ & _ & _ & T & _).
  split_and!; [exact H1 | exact H2 | exact T | exact B].
Defined.

(** ** Cards *)

Lemma card_of_None videoId (cs : list card) :
  card_of videoId cs = None ↔ videoId ∉ map dataset_videoId cs.
Proof.
  unfold card_of. induction cs as [| k cs IH]; simpl.
  - split; [intros _; apply not_elem_of_nil | done].
  - rewrite not_elem_of_cons.
    destruct (String.eqb_spec (dataset_videoId k) videoId) as [E | E].
    + split; [done | intros [H _]; by destruct H].
    + rewrite IH. split; [intros H; split; [congruence | done] | tauto].
Qed.

Lemma with_card_absent videoId (f : card → card) (cs : list card) :
  videoId ∉ map dataset_videoId cs → with_card videoId f cs = cs.
Proof.
  induction cs as [| k cs IH]; simpl; [done |].
  rewrite not_elem_of_cons. intros [Hne Hnot].
  destruct (String.eqb_spec (dataset_videoId k) videoId); [congruence |].
  by rewrite IH.
Qed.

(** The card found for an identifier after an update of the card of the
    same or of another identifier. *)
Lemma card_of_with_card_same videoId (f : card → card) (cs : list card) :
  (∀ k, dataset_videoId (f k) = dataset_videoId k) →
  card_of videoId (with_card videoId f cs) = f <$> card_of videoId cs.
Proof.
  intros Hf. unfold card_of. induction cs as [| k cs IH]; simpl; [done |].
  destruct (String.eqb_spec (dataset_videoId k) videoId) as [E | E]; simpl.
  - rewrite Hf. by rewrite (proj2 (String.eqb_eq _ _) E).
  - by rewrite (proj2 (String.eqb_neq _ _) E).
Qed.

Lemma card_of_with_card_other x videoId (f : card → card) (cs : list card) :
  (∀ k, dataset_videoId (f k) = dataset_videoId k) →
  x ≠ videoId →
  card_of x (with_card videoId f cs) = card_of x cs.
Proof.
  intros Hf Hne. unfold card_of. induction cs as [| k cs IH]; simpl; [done |].
  destruct (String.eqb_spec (dataset_videoId k) videoId) as [E | E]; simpl.
  - rewrite Hf, E.
    by rewrite (proj2 (String.eqb_neq _ _) (not_eq_sym Hne)).
  - by rewrite IH.
Qed.

Lemma dom_eta (d : dom) :
  {| el := el d; cards := cards d; formatBtns := formatBtns d |} = d.
Proof. by destruct d. Qed.

(** X8.  For an identifier that no card of the grid carries, and for
    which the selector of a card is the test for the identifier (no double
    quote, backslash, line break or null character in it), the three card
    updates [updateCardState], [updateCardProgress] and [setCardError]
    leave the page as it is, and so a message of the stream about such an
    identifier changes no card, whatever its type. *)
Theorem card_updates_skip_missing_card :
  ∀ (videoId state iconHtml message : string) (percent : number) (d : dom)
    (data : Static.sseEvent) (r : Static.run) (v : Static.world),
    selector_safe videoId = true →
    selector_safe (Static.ev_video_id data) = true →
    videoId ∉ map dataset_videoId (cards d) →
    Static.ev_video_id data ∉ map dataset_videoId (cards (Static.page v)) →
    updateCardState videoId state iconHtml d = d
    ∧ updateCardProgress videoId percent d = d
    ∧ setCardError videoId message d = d
    ∧ cards (Static.page (snd (Static.onmessage data (r, v))))
      = cards (Static.page v).
Proof.
  intros videoId state iconHtml message percent d data r v _ _ Hd Hv.
  unfold updateCardState, updateCardProgress, setCardError, set_cards.
  rewrite !(with_card_absent videoId) by done. simpl.
  split_and!; try apply dom_eta.
  destruct data as [ty id ttl pc sp m]. simpl in Hv.
  unfold Static.onmessage. simpl.
  by_event_type ty;
    repeat match goal with
           | |- context [if ?b then _ else _] => destruct b
           end; simpl;
    unfold updateCardState, updateCardProgress, setCardError; simpl;
    rewrite ?(with_card_absent id _ (cards (Static.page v))) by done; done.
Qed.

Lemma card_updates_skip_missing_card_witness :
  selector_safe "ghost" = true
  ∧ ("ghost" ∉ map dataset_videoId (cards (Static.page (static_loaded three_items))))
  ∧ updateCardState "ghost" "error" "!" (Static.page (static_loaded three_items))
    = Static.page (static_loaded three_items)
  ∧ cards (Static.page
             (snd (Static.onmessage (event "complete" "ghost")
                     (Static.startDownload ["a"] (static_loaded three_items)))))
    = cards (Static.page (static_loaded three_items)).
Proof.
  assert ("ghost" ∉ map dataset_videoId
            (cards (Static.page (static_loaded three_items)))) as H.
  { apply card_of_None. reflexivity. }
  destruct (card_updates_skip_missing_card "ghost" "error" "!" ""
              (number_of_nat 0)
              (Static.page (static_loaded three_items))
              (event "complete" "ghost")
              (fst (Static.startDownload ["a"] (static_loaded three_items)))
              (snd (Static.startDownload ["a"] (static_loaded three_items)))
              eq_refl eq_refl H H) as (U & _ & _ & C).
  split_and!; [reflexivity | exact H | exact U | exact C].
Defined.

Lemma js_or_nonempty (o : option string) (d : string) :
  d ≠ "" → String.eqb (js_or o d) "" = false.
Proof.
  intros Hd. unfold js_or. destruct o as [s |].
  - destruct (String.eqb s "") eqn:E; [by apply String.eqb_neq | done].
  - by apply String.eqb_neq.
Qed.

(** One iteration of the download loop, on the card of its identifier and
    on the cards of the others. *)
Lemma download_one_cards outcome totalCount videoId (tw : tally * Public.world) :
  let cs := cards (Public.page (snd tw)) in
  let cs' := cards (Public.page
                      (snd (Public.download_one outcome totalCount videoId tw))) in
  (∀ x, x ≠ videoId → card_of x cs' = card_of x cs)
  ∧ (videoId ∉ map video_id (Public.videos (Public.st (snd tw))) → cs' = cs)
  ∧ (videoId ∈ map video_id (Public.videos (Public.st (snd tw))) →
     match card_of videoId cs with
     | Some k => ∃ k', card_of videoId cs' = Some k' ∧ resolved_card outcome k k'
     | None => card_of videoId cs' = None
     end).
Proof.
  destruct tw as [t w]. cbv zeta. cbn [snd]. split_and!.
  - intros x Hx. unfold Public.download_one.
    destruct (find_video videoId (Public.videos (Public.st w))); [| done].
    destruct outcome; simpl;
      unfold updateCardState, updateCardProgress, setCardError; simpl;
      rewrite !card_of_with_card_other; try done;
      intros k; by try destruct (String.eqb _ _).
  - intros Hnot. apply find_video_None in Hnot.
    unfold Public.download_one. by rewrite Hnot.
  - intros Hin. destruct (find_video_Some _ _ Hin) as (v & Hv & _).
    unfold Public.download_one. rewrite Hv.
    destruct outcome as [msg | detail | cd]; simpl;
      unfold updateCardState, updateCardProgress, setCardError; simpl;
      rewrite !card_of_with_card_same
        by (intros k; by try destruct (String.eqb _ _));
      (destruct (card_of videoId (cards (Public.page w))) as [k |]; simpl;
       [| done]);
      rewrite ?js_or_nonempty by done;
      (eexists; split; [reflexivity |]);
      unfold resolved_card, status_classes, final_status, download_error_message;
      simpl.
    + destruct (String.eqb msg ""); simpl;
        (split_and!; try done; intros c; class_solver).
    + split_and!; try done. intros c. class_solver.
    + split_and!; try done. intros c. class_solver.
Qed.

Lemma download_loop_cards net totalCount videoIds :
  ∀ i (tw : tally * Public.world) (x : string),
    let cs := cards (Public.page (snd tw)) in
    let cs' := cards (Public.page
                        (snd (Public.download_loop net i totalCount videoIds tw))) in
    (x ∉ videoIds ∨ x ∉ map video_id (Public.videos (Public.st (snd tw))) →
     card_of x cs' = card_of x cs)
    ∧ (NoDup videoIds →
       x ∈ map video_id (Public.videos (Public.st (snd tw))) →
       ∀ idx k, videoIds !! idx = Some x → card_of x cs = Some k →
                ∃ k', card_of x cs' = Some k' ∧ resolved_card (net (i + idx)) k k').
Proof.
  induction videoIds as [| videoId rest IH]; intros i tw x; cbv zeta.
  - simpl. split; [done | intros _ _ idx k Hidx; by destruct idx].
  - cbn [Public.download_loop].
    destruct (IH (S i) (Public.download_one (net i) totalCount videoId tw) x)
      as [IH1 IH2]. cbv zeta in IH1, IH2.
    destruct (download_one_cards (net i) totalCount videoId tw)
      as (C1 & C2 & C3). cbv zeta in C1, C2, C3.
    destruct (download_one_vars (net i) totalCount videoId tw) as (V1 & _).
    cbv zeta in V1. rewrite V1 in IH1, IH2.
    split.
    + intros Hx. rewrite IH1.
      * destruct (decide (x = videoId)) as [-> | Hne]; [| by apply C1].
        destruct Hx as [Hx | Hx]; [exfalso; apply Hx; left |].
        by rewrite C2.
      * destruct Hx as [Hx | Hx]; [left | by right].
        intros H. apply Hx. by right.
    + intros Hnd Hin idx k Hidx Hk.
      apply NoDup_cons in Hnd as [Hfresh Hnd].
      destruct idx as [| idx]; simpl in Hidx.
      * injection Hidx as ->. rewrite Nat.add_0_r.
        specialize (C3 Hin). rewrite Hk in C3. destruct C3 as (k' & Hk' & Hres).
        exists k'. split; [| done]. rewrite IH1 by (by left). exact Hk'.
      * assert (x ≠ videoId) as Hne.
        { intros ->. apply Hfresh. by apply list_elem_of_lookup_2 in Hidx. }
        rewrite Nat.add_succ_r.
        apply (IH2 Hnd Hin idx k Hidx). rewrite C1 by done. exact Hk.
Qed.

(** X9.  After a run of the sequential variant over distinct identifiers,
    each an identifier for which the selector of a card is the test for the
    identifier, the card of every item whose request was sent shows the outcome of that
    request: of the three status classes it has [complete] or [error] only
    ([downloading] is gone), with the check mark and a full progress fill
    after a success, and the bang and the error text (the server's detail,
    the message of the exception, or [Download failed]) after a failure;
    its other classes and its markup are untouched.  The first card that
    carries any other identifier is as before the run. *)
Theorem startDownloads_card_status :
  ∀ (net : nat → downloadOutcome) (videoIds : list string) (w : Public.world)
    (idx : nat) (x y : string) (k : card),
    NoDup videoIds →
    (∀ z, z ∈ videoIds → selector_safe z = true) →
    videoIds !! idx = Some x →
    x ∈ map video_id (Public.videos (Public.st w)) →
    card_of x (cards (Public.page w)) = Some k →
    y ∉ videoIds →
    let cs' := cards (Public.page (snd (Public.startDownloads net videoIds w))) in
    (∃ k', card_of x cs' = Some k' ∧ resolved_card (net idx) k k')
    ∧ card_of y cs' = card_of y (cards (Public.page w)).
Proof.
  intros net videoIds w idx x y k Hnd _ Hidx Hin Hk Hy. cbv zeta.
  unfold Public.startDownloads.
  assert (∀ tw : tally * Public.world,
            cards (Public.page (snd (Public.download_end tw)))
            = cards (Public.page (snd tw))) as Hend.
  { intros [t w1]. unfold Public.download_end.
    by destruct (summary_marks_complete _ _). }
  rewrite Hend.
  destruct (download_loop_cards net (length videoIds) videoIds 0
              (tally0, Public.download_begin videoIds w) x) as [_ L2].
  destruct (download_loop_cards net (length videoIds) videoIds 0
              (tally0, Public.download_begin videoIds w) y) as [L1 _].
  cbv zeta in L1, L2. split.
  - apply (L2 Hnd Hin idx k Hidx Hk).
  - apply L1. by left.
Qed.

Lemma startDownloads_card_status_witness :
  NoDup ["a"; "b"; "c"]
  ∧ (∃ k', card_of "a"
             (cards (Public.page
                       (snd (Public.startDownloads first_fails ["a"; "b"; "c"]
                               (public_loaded three_items)))))
           = Some k'
           ∧ resolved_card (first_fails 0) (new_card (item "a" "A")) k')
  ∧ error_msg_text
      (default (new_card (item "a" "A"))
         (card_of "a"
            (cards (Public.page
                      (snd (Public.startDownloads first_fails ["a"; "b"; "c"]
                              (public_loaded three_items)))))))
    = "Video unavailable".
Proof.
  assert (NoDup ["a"; "b"; "c"]) as Hnd
    by (apply (bool_decide_unpack _); reflexivity).
  assert ("a" ∈ map video_id
            (Public.videos (Public.st (public_loaded three_items)))) as Hin
    by (change ("a" ∈ ["a"; "b"; "c"]); apply list_elem_of_here).
  assert ("ghost" ∉ ["a"; "b"; "c"]) as Hy
    by (apply (bool_decide_unpack _); reflexivity).
  assert (∀ z, z ∈ ["a"; "b"; "c"] → selector_safe z = true) as Hs.
  { intros z Hz. repeat (apply elem_of_cons in Hz as [-> | Hz]);
      [reflexivity | reflexivity | reflexivity | by apply elem_of_nil in Hz]. }
  destruct (startDownloads_card_status first_fails ["a"; "b"; "c"]
              (public_loaded three_items) 0 "a" "ghost"
              (new_card (item "a" "A")) Hnd Hs eq_refl Hin eq_refl Hy) as [R _].
  split_and!; [exact Hnd | exact R | reflexivity].
Defined.

Lemma with_card_Forall (P : card → Prop) videoId (f : card → card) cs :
  (∀ k, P k → P (f k)) → Forall P cs → Forall P (with_card videoId f cs).
Proof.
  intros Hf. induction 1 as [| k cs Hk Hcs IH]; simpl; [constructor |].
  destruct (String.eqb (dataset_videoId k) videoId); constructor; auto.
Qed.

Lemma one_status_set (k' : card) (classes : gset string) (state : string) :
  card_classList k'
  = (classes ∖ {[ "downloading"; "complete"; "error" ]}) ∪ {[ state ]} →
  one_status k'.
Proof.
  intros Hk c1 c2 H1 H2. rewrite Hk.
  repeat first [ rewrite elem_of_union in H1 | rewrite elem_of_singleton in H1 ].
  repeat first [ rewrite elem_of_union in H2 | rewrite elem_of_singleton in H2 ].
  repeat first [ rewrite elem_of_union | rewrite elem_of_difference
               | rewrite elem_of_singleton ].
  intuition congruence.
Qed.

Lemma set_fill_width_one_status (x : number) (k : card) :
  one_status k → one_status (set_fill_width x k).
Proof.
  unfold one_status. by destruct (set_fill_width_keeps x k) as (_ & -> & _).
Qed.


Lemma updateCardState_one_status videoId state iconHtml (d : dom) :
  Forall one_status (cards d) →
  Forall one_status (cards (updateCardState videoId state iconHtml d)).
Proof.
  intros H. unfold updateCardState. simpl. apply with_card_Forall; [| done].
  intros k _.
  destruct (String.eqb iconHtml "");
    by apply (one_status_set _ (card_classList k) state).
Qed.

Lemma updateCardProgress_one_status videoId percent (d : dom) :
  Forall one_status (cards d) →
  Forall one_status (cards (updateCardProgress videoId percent d)).
Proof.
  intros H. unfold updateCardProgress. simpl.
  apply with_card_Forall; [| done]. apply set_fill_width_one_status.
Qed.

Lemma setCardError_one_status videoId message (d : dom) :
  Forall one_status (cards d) →
  Forall one_status (cards (setCardError videoId message d)).
Proof.
  intros H. unfold setCardError. simpl. by apply with_card_Forall.
Qed.






(** ** The selection and its display *)

Lemma selection_shown_with_card videoId (f : card → card) cs selected :
  (∀ k, dataset_videoId (f k) = dataset_videoId k
        ∧ ("selected" ∈ card_classList (f k) ↔ "selected" ∈ card_classList k)) →
  selection_shown cs selected →
  selection_shown (with_card videoId f cs) selected.
Proof.
  intros Hf Hs. unfold selection_shown in *.
  apply Forall_forall. apply with_card_Forall.
  - intros k Hk. destruct (Hf k) as [-> ->]. exact Hk.
  - apply Forall_forall. exact Hs.
Qed.

Lemma selection_shown_download_one outcome totalCount videoId
    (tw : tally * Public.world) :
  selection_shown (cards (Public.page (snd tw)))
    (Public.selectedIds (Public.st (snd tw))) →
  selection_shown
    (cards (Public.page (snd (Public.download_one outcome totalCount videoId tw))))
    (Public.selectedIds
       (Public.st (snd (Public.download_one outcome totalCount videoId tw)))).
Proof.
  destruct (download_one_vars outcome totalCount videoId tw) as (_ & -> & _).
  destruct tw as [t w]. simpl. intros H. unfold Public.download_one.
  destruct (find_video videoId (Public.videos (Public.st w))); [| done].
  destruct outcome; simpl;
    repeat (apply selection_shown_with_card;
            [ intros k; split; [by try destruct (String.eqb _ _) |];
              try destruct (String.eqb _ _); simpl; try done; class_solver
            | ]);
    done.
Qed.

Lemma selection_shown_download_click net (w : Public.world) :
  selection_shown (cards (Public.page w)) (Public.selectedIds (Public.st w)) →
  selection_shown (cards (Public.page (Public.download_click net w)))
    (Public.selectedIds (Public.st (Public.download_click net w))).
Proof.
  intros H. unfold Public.download_click. destruct (_ || _); [done |].
  unfold Public.startDownloads.
  assert (∀ ids i (tw : tally * Public.world),
            selection_shown (cards (Public.page (snd tw)))
              (Public.selectedIds (Public.st (snd tw))) →
            selection_shown
              (cards (Public.page
                        (snd (Public.download_loop net i
                                (length (Public.selectedIds (Public.st w)))
                                ids tw))))
              (Public.selectedIds
                 (Public.st
                    (snd (Public.download_loop net i
                            (length (Public.selectedIds (Public.st w)))
                            ids tw))))) as Hloop.
  { induction ids as [| id ids IH]; intros i tw Htw; simpl; [done |].
    by apply IH, selection_shown_download_one. }
  specialize (Hloop (Public.selectedIds (Public.st w)) 0
                (tally0, Public.download_begin (Public.selectedIds (Public.st w)) w)
                H).
  destruct (Public.download_loop net 0 _ _ _) as [t w1].
  unfold Public.download_end. simpl in *.
  by destruct (summary_marks_complete _ _).
Qed.

Lemma selection_shown_selectAll_click (w : Public.world) :
  selection_shown (cards (Public.page w)) (Public.selectedIds (Public.st w)) →
  selection_shown (cards (Public.page (Public.selectAll_click w)))
    (Public.selectedIds (Public.st (Public.selectAll_click w))).
Proof.
  intros H. unfold Public.selectAll_click.
  destruct (Public.isDownloading (Public.st w)); [done |].
  destruct (Public.allSelected (Public.st w)) eqn:Ha; simpl.
  - destruct (selectAll_fold_delete (cards (Public.page w))
                (Public.on_st (Public.set_allSelected false) w) eq_refl)
      as (_ & F2 & F3 & _ & F5).
    simpl in F3, F5. set (w1 := foldl _ _ _) in *.
    simpl. rewrite F2, F3. intros k' Hk'.
    apply list_elem_of_fmap in Hk' as (k & -> & Hk). simpl.
    rewrite F5. split.
    + rewrite elem_of_difference, elem_of_singleton. tauto.
    + intros [_ Hnot]. exfalso. apply Hnot.
      apply list_elem_of_fmap. eauto.
  - destruct (selectAll_fold_add (cards (Public.page w))
                (Public.on_st (Public.set_allSelected true) w) eq_refl)
      as (_ & F2 & F3 & _ & F5).
    simpl in F3, F5. set (w1 := foldl _ _ _) in *.
    simpl. rewrite F2, F3. intros k' Hk'.
    apply list_elem_of_fmap in Hk' as (k & -> & Hk). simpl.
    rewrite F5. split.
    + intros _. right. apply list_elem_of_fmap. eauto.
    + intros _. rewrite elem_of_union, elem_of_singleton. tauto.
Qed.

Lemma selection_shown_card_click i onIcon (w : Public.world) :
  NoDup (map dataset_videoId (cards (Public.page w))) →
  selection_shown (cards (Public.page w)) (Public.selectedIds (Public.st w)) →
  selection_shown (cards (Public.page (Public.card_click i onIcon w)))
    (Public.selectedIds (Public.st (Public.card_click i onIcon w))).
Proof.
  intros Hnd H. unfold Public.card_click.
  destruct (cards (Public.page w) !! i) as [k |] eqn:Hk; [| done].
  destruct onIcon; [done |].
  destruct (Public.isDownloading (Public.st w)); [done |].
  assert (∀ j k', j ≠ i → cards (Public.page w) !! j = Some k' →
                  dataset_videoId k' ≠ dataset_videoId k) as Hother.
  { intros j k' Hj Hk' E. apply Hj.
    apply (NoDup_lookup _ j i (dataset_videoId k) Hnd);
      rewrite list_lookup_fmap; [rewrite Hk'; simpl; by rewrite E | by rewrite Hk]. }
  unfold Public.toggleSelection.
  destruct (JSSet.has (dataset_videoId k) (Public.selectedIds (Public.st w)))
    eqn:Hhas; simpl; intros k' Hk';
    apply list_elem_of_lookup in Hk' as [j Hj];
    (destruct (decide (j = i)) as [-> | Hne];
     [ rewrite list_lookup_alter_eq, Hk in Hj; injection Hj as <-; simpl
     | rewrite list_lookup_alter_ne in Hj by done;
       specialize (Hother j k' Hne Hj);
       assert (k' ∈ cards (Public.page w)) as Hin
         by (by apply list_elem_of_lookup_2 in Hj);
       specialize (H k' Hin) ]).
  - rewrite elem_of_difference, elem_of_singleton, elem_of_delete. tauto.
  - rewrite elem_of_delete. tauto.
  - rewrite elem_of_union, elem_of_singleton, elem_of_add. tauto.
  - rewrite elem_of_add. tauto.
Qed.

(** X11.  In the sequential variant the check mark of a card tells whether
    its item is selected: every card has the class [selected] exactly when
    its identifier is in the selection set.  This holds after a successful
    extraction, and, the cards having distinct identifiers, it is kept by a
    click on any card, by a click on the select-all button and by a click on
    the download button with the whole run that follows; none of them
    changes the identifiers of the cards. *)
Theorem selection_is_shown :
  ∀ (data : extractData) (w0 w : Public.world) (i : nat) (onIcon : bool)
    (net : nat → downloadOutcome),
    url_accepted (Public.page w0) →
    NoDup (map dataset_videoId (cards (Public.page w))) →
    selection_shown (cards (Public.page w)) (Public.selectedIds (Public.st w)) →
    let shown (w : Public.world) :=
      selection_shown (cards (Public.page w)) (Public.selectedIds (Public.st w)) in
    let ids (w : Public.world) := map dataset_videoId (cards (Public.page w)) in
    shown (Public.extractPlaylist (ExtractOk (Parsed data)) w0)
    ∧ shown (Public.card_click i onIcon w)
    ∧ shown (Public.selectAll_click w)
    ∧ shown (Public.download_click net w)
    ∧ ids (Public.card_click i onIcon w) = ids w
    ∧ ids (Public.selectAll_click w) = ids w
    ∧ ids (Public.download_click net w) = ids w.
Proof.
  intros data w0 w i onIcon net [U1 U2] Hnd Hs. cbv zeta. split_and!.
  - unfold Public.extractPlaylist. rewrite U1, U2. simpl.
    intros k' Hk'. apply list_elem_of_fmap in Hk' as (v & -> & Hv). simpl.
    rewrite elem_of_of_list. split.
    + intros _. apply list_elem_of_fmap. eauto.
    + intros _. class_solver.
  - by apply selection_shown_card_click.
  - by apply selection_shown_selectAll_click.
  - by apply selection_shown_download_click.
  - unfold Public.card_click.
    destruct (cards (Public.page w) !! i) as [k |]; [| done].
    destruct onIcon; [done |].
    destruct (Public.isDownloading (Public.st w)); [done |].
    unfold Public.toggleSelection.
    destruct (JSSet.has _ _); simpl; by rewrite alter_keeps_ids.
  - unfold Public.selectAll_click.
    destruct (Public.isDownloading (Public.st w)); [done |].
    destruct (Public.allSelected (Public.st w)) eqn:Ha; simpl.
    + destruct (selectAll_fold_delete (cards (Public.page w))
                  (Public.on_st (Public.set_allSelected false) w) eq_refl)
        as (_ & F2 & F3 & _).
      simpl in F3. rewrite F2, F3. apply map_keeps_ids. by intros k.
    + destruct (selectAll_fold_add (cards (Public.page w))
                  (Public.on_st (Public.set_allSelected true) w) eq_refl)
        as (_ & F2 & F3 & _).
      simpl in F3. rewrite F2, F3. apply map_keeps_ids. by intros k.
  - unfold Public.download_click. destruct (_ || _); [done |].
    unfold Public.startDownloads.
    destruct (download_loop_page net (length (Public.selectedIds (Public.st w)))
                (Public.selectedIds (Public.st w)) 0
                (tally0, Public.download_begin (Public.selectedIds (Public.st w)) w))
      as (_ & P2 & _).
    simpl in P2.
    destruct (Public.download_loop net 0 _ _ _) as [t w1].
    unfold Public.download_end. simpl in *.
    by destruct (summary_marks_complete _ _).
Qed.

Lemma selection_is_shown_witness :
  url_accepted (page_with_url "https://example.org/playlist?list=1")
  ∧ NoDup (map dataset_videoId (cards (Public.page (public_loaded three_items))))
  ∧ selection_shown
      (cards (Public.page (Public.card_click 1 false (public_loaded three_items))))
      (Public.selectedIds
         (Public.st (Public.card_click 1 false (public_loaded three_items))))
  ∧ Public.selectedIds
      (Public.st (Public.card_click 1 false (public_loaded three_items)))
    = ["a"; "c"].
Proof.
  assert (url_accepted (page_with_url "https://example.org/playlist?list=1"))
    as Hurl by (split; reflexivity).
  assert (NoDup (map dataset_videoId
                   (cards (Public.page (public_loaded three_items))))) as Hnd
    by (apply (bool_decide_unpack _); reflexivity).
  assert (NoDup (map dataset_videoId
                   (cards (Public.page
                             (Public.init
                                (page_with_url "https://example.org/playlist?list=1"))))))
    as Hnd0 by apply NoDup_nil_2.
  assert (selection_shown
            (cards (Public.page
                      (Public.init
                         (page_with_url "https://example.org/playlist?list=1"))))
            (Public.selectedIds
               (Public.st
                  (Public.init
                     (page_with_url "https://example.org/playlist?list=1")))))
    as Hs0 by (intros k Hk; by apply elem_of_nil in Hk).
  destruct (selection_is_shown
              {| data_session_id := SidString "s1"; data_title := "Mix";
                 data_videos := three_items |}
              (Public.init (page_with_url "https://example.org/playlist?list=1"))
              (Public.init (page_with_url "https://example.org/playlist?list=1"))
              0 false first_fails Hurl Hnd0 Hs0)
    as (S0 & _).
  destruct (selection_is_shown
              {| data_session_id := SidString "s1"; data_title := "Mix";
                 data_videos := three_items |}
              (Public.init (page_with_url "https://example.org/playlist?list=1"))
              (public_loaded three_items) 1 false first_fails Hurl Hnd S0)
    as (_ & S1 & _).
  split_and!; [exact Hurl | exact Hnd | exact S1 | reflexivity].
Defined.

Lemma selectAll_fold_isDownloading (cs : list card) :
  ∀ (w : Public.world),
    Public.isDownloading
      (Public.st
         (foldl (λ w k,
            if Public.allSelected (Public.st w) then
              Public.on_st (Public.set_selectedIds
                (JSSet.add (dataset_videoId k)
                   (Public.selectedIds (Public.st w)))) w
            else
              Public.on_st (Public.set_selectedIds
                (JSSet.delete (dataset_videoId k)
                   (Public.selectedIds (Public.st w)))) w) w cs))
    = Public.isDownloading (Public.st w).
Proof.
  induction cs as [| k cs IH]; intros w; simpl; [done |].
  rewrite IH. by destruct (Public.allSelected (Public.st w)).
Qed.

(** X12.  In a consistent state of the sequential variant with a non-empty
    playlist and no run in progress, a click on the select-all button acts
    on the whole playlist: when every item was selected it empties the
    selection, renames the button [Select All] and disables the download
    button, whose label then counts 0; otherwise it selects every item of
    the playlist, so that the selection has as many members as the playlist
    has items, renames the button [Deselect All] and enables the download
    button. *)
Theorem selectAll_click_selects_all_or_none :
  ∀ (w : Public.world),
    public_consistent w →
    Public.isDownloading (Public.st w) = false →
    Public.videos (Public.st w) ≠ [] →
    let w' := Public.selectAll_click w in
    if Public.allSelected (Public.st w) then
      Public.selectedIds (Public.st w') = []
      ∧ textContent (el (Public.page w') selectAllBtn) = "Select All"
      ∧ textContent (el (Public.page w') downloadSelectedBtn)
        = "Download Selected (0)"
      ∧ disabled (el (Public.page w') downloadSelectedBtn) = true
    else
      JSSet.members (Public.selectedIds (Public.st w'))
      = list_to_set (map video_id (Public.videos (Public.st w)))
      ∧ JSSet.size (Public.selectedIds (Public.st w'))
        = length (Public.videos (Public.st w))
      ∧ textContent (el (Public.page w') selectAllBtn) = "Deselect All"
      ∧ disabled (el (Public.page w') downloadSelectedBtn) = false.
Proof.
  intros w Hw Hidle Hne. cbv zeta.
  destruct Hw as (Hnd & Hcards & Hsel & Hsub & Hall & _).
  unfold Public.selectAll_click. rewrite Hidle.
  destruct (Public.allSelected (Public.st w)) eqn:Ha; simpl.
  - destruct (selectAll_fold_delete (cards (Public.page w))
                (Public.on_st (Public.set_allSelected false) w) eq_refl)
      as (F1 & F2 & F3 & F4 & F5).
    simpl in F1, F3, F4, F5. set (w1 := foldl _ _ _) in *.
    assert (Public.selectedIds (Public.st w1) = []) as Hnil.
    { destruct (Public.selectedIds (Public.st w1)) as [| x l] eqn:E; [done |].
      assert (x ∈ x :: l) as Hx by left.
      apply F5 in Hx as [Hx Hnot]. rewrite Hcards in Hnot.
      by apply Hsub in Hx. }
    rewrite ?F2, ?F3, ?Hnil. simpl.
    split_and!; reflexivity.
  - destruct (selectAll_fold_add (cards (Public.page w))
                (Public.on_st (Public.set_allSelected true) w) eq_refl)
      as (F1 & F2 & F3 & F4 & F5).
    simpl in F1, F3, F4, F5. set (w1 := foldl _ _ _) in *.
    assert (length (Public.selectedIds (Public.st w1))
            = length (map video_id (Public.videos (Public.st w)))) as Hlen.
    { apply same_members_same_size; [by apply F4 | done | |].
      - intros x Hx. apply F5 in Hx as [Hx | Hx];
          [by apply Hsub | by rewrite <- Hcards].
      - intros x Hx. apply F5. right. by rewrite Hcards. }
    rewrite length_map in Hlen.
    rewrite ?F1, ?F2, ?F3. simpl.
    split_and!.
    + apply set_eq. intros x. unfold JSSet.members.
      rewrite !elem_of_list_to_set, F5, Hcards.
      split; [intros [Hx | Hx]; [by apply Hsub | done] | auto].
    + exact Hlen.
    + reflexivity.
    + unfold JSSet.size. rewrite Hlen. subst w1.
      rewrite selectAll_fold_isDownloading. simpl. rewrite Hidle.
      destruct (Public.videos (Public.st w)); [done | reflexivity].
Qed.

Lemma selectAll_click_selects_all_or_none_witness :
  public_consistent (public_loaded three_items)
  ∧ Public.selectedIds
      (Public.st (Public.selectAll_click (public_loaded three_items))) = []
  ∧ disabled
      (el (Public.page (Public.selectAll_click (public_loaded three_items)))
          downloadSelectedBtn) = true.
Proof.
  assert (public_consistent (public_loaded three_items)) as Hc.
  { apply public_consistent_extract; [split; reflexivity |].
    apply (bool_decide_unpack _). reflexivity. }
  pose proof (selectAll_click_selects_all_or_none (public_loaded three_items)
                Hc eq_refl ltac:(discriminate)) as H.
  cbv zeta in H.
  change (Public.allSelected (Public.st (public_loaded three_items)))
    with true in H.
  destruct H as (S & _ & _ & D).
  split_and!; [exact Hc | exact S | exact D].
Defined.

(** ** The file name of a download *)

Lemma substring_whole (s : string) : substring 0 (String.length s) s = s.
Proof. induction s as [| a s IH]; simpl; [done | by rewrite IH]. Qed.

Lemma dot_run_one_line (s : string) : one_line (dot_run s) = true.
Proof.
  induction s as [| a s IH]; simpl; [done |].
  destruct (is_line_terminator a) eqn:E; simpl; [done |]. by rewrite E, IH.
Qed.

Lemma dot_run_prefix (s : string) : ∃ rest, s = dot_run s +:+ rest.
Proof.
  induction s as [| a s [rest IH]]; simpl; [by exists "" |].
  destruct (is_line_terminator a); simpl.
  - by eexists.
  - exists rest. by rewrite <- IH.
Qed.

Lemma dot_run_app (s t : string) :
  one_line s = true → dot_run (s +:+ t) = s +:+ dot_run t.
Proof.
  induction s as [| a s IH]; simpl; [done |].
  destruct (is_line_terminator a); simpl; [done |].
  intros Hs. by rewrite IH.
Qed.

Lemma one_line_app (s t : string) :
  one_line (s +:+ t) = one_line s && one_line t.
Proof.
  induction s as [| a s IH]; simpl; [done |]. by rewrite IH, andb_assoc.
Qed.

Lemma dot_run_keeps_quote_free (s : string) :
  occurs "034" s = false → occurs "034" (dot_run s) = false.
Proof.
  induction s as [| a s IH]; cbn [occurs dot_run]; [done |].
  intros [Ha Hs]%orb_false_iff.
  destruct (is_line_terminator a); cbn [occurs]; [done |]. by rewrite Ha, IH.
Qed.

Lemma before_last_quote_None (s : string) :
  occurs "034" s = false → before_last_quote s = None.
Proof.
  induction s as [| a s IH]; cbn [occurs before_last_quote]; [done |].
  intros [Ha Hs]%orb_false_iff. rewrite IH by done.
  rewrite Ascii.eqb_sym. by rewrite Ha.
Qed.

Lemma before_last_quote_Some (s p : string) :
  before_last_quote s = Some p → ∃ rest, s = p +:+ dquote +:+ rest.
Proof.
  revert p. induction s as [| a s IH]; simpl; intros p; [done |].
  destruct (before_last_quote s) as [q |].
  - intros [= <-]. destruct (IH q eq_refl) as [rest ->]. by exists rest.
  - destruct (Ascii.eqb_spec a "034") as [-> | _]; [| done].
    intros [= <-]. by exists s.
Qed.

Lemma before_last_quote_app (p q : string) :
  occurs "034" q = false →
  before_last_quote (p +:+ dquote +:+ q) = Some p.
Proof.
  intros Hq. unfold dquote. induction p as [| a p IH]; simpl in *.
  - by rewrite before_last_quote_None.
  - by rewrite IH.
Qed.

Lemma filename_match_here_Some (s p : string) :
  filename_match_here s = Some p →
  p ≠ "" ∧ one_line p = true
  ∧ ∃ post, s = "filename=" +:+ quoted p +:+ post.
Proof.
  unfold filename_match_here.
  destruct (String.prefix ("filename=" +:+ dquote) s) eqn:Hp; [| done].
  apply prefix_correct in Hp.
  destruct (before_last_quote _) as [q |] eqn:Hq; [| done].
  destruct (String.eqb_spec q "") as [| Hne]; [done |].
  intros [= <-].
  apply before_last_quote_Some in Hq as [rest Hq].
  destruct (dot_run_prefix (substring 10 (String.length s - 10) s))
    as [tail Htail].
  pose proof (dot_run_one_line (substring 10 (String.length s - 10) s)) as H1.
  rewrite Hq in Htail, H1.
  rewrite one_line_app in H1. apply andb_true_iff in H1 as [H1 _].
  split_and!; [done | done |].
  exists (rest +:+ tail).
  do 10 (destruct s as [| ? s]; [discriminate Hp |]).
  simpl in Hp. injection Hp as -> -> -> -> -> -> -> -> -> -> _.
  simpl in Htail. rewrite Nat.sub_0_r, substring_whole in Htail.
  rewrite Htail. unfold quoted, dquote. simpl.
  by rewrite !append_assoc_string.
Qed.

Lemma filename_match_Some (s p : string) :
  filename_match s = Some p →
  p ≠ "" ∧ one_line p = true
  ∧ ∃ pre post, s = pre +:+ "filename=" +:+ quoted p +:+ post.
Proof.
  induction s as [| a s IH]; [done |].
  cbn [filename_match].
  destruct (filename_match_here (String a s)) as [q |] eqn:Hq.
  - intros [= <-].
    destruct (filename_match_here_Some _ _ Hq) as (H1 & H2 & post & H3).
    split_and!; [done | done |]. exists "", post. exact H3.
  - intros Hm. destruct (IH Hm) as (H1 & H2 & pre & post & ->).
    split_and!; [done | done |]. by exists (String a pre), post.
Qed.

Lemma filename_match_here_exact (name post : string) :
  name ≠ "" → one_line name = true → occurs "034" post = false →
  filename_match_here ("filename=" +:+ quoted name +:+ post) = Some name.
Proof.
  intros Hne Hl Hpost. unfold filename_match_here, quoted. simpl.
  rewrite Nat.sub_0_r, substring_whole.
  assert (∀ s, String.prefix "" s = true) as -> by by intros [].
  rewrite append_assoc_string, dot_run_app by done.
  pose proof (before_last_quote_app name (dot_run post)
                (dot_run_keeps_quote_free post Hpost)) as H.
  unfold dquote in *. simpl in *. rewrite H.
  by destruct (String.eqb_spec name "").
Qed.

Lemma filename_match_here_other (a : ascii) (s : string) :
  a ≠ "f"%char → filename_match_here (String a s) = None.
Proof.
  intros Ha. unfold filename_match_here.
  change ("filename=" +:+ dquote) with (String "f" ("ilename=" +:+ dquote)).
  cbn [String.prefix]. by destruct (ascii_dec "f" a).
Qed.

Lemma filename_match_app (pre name post : string) :
  occurs "f" pre = false →
  name ≠ "" → one_line name = true → occurs "034" post = false →
  filename_match (pre +:+ "filename=" +:+ quoted name +:+ post) = Some name.
Proof.
  intros Hpre Hne Hl Hpost. induction pre as [| a pre IH].
  - pose proof (filename_match_here_exact name post Hne Hl Hpost) as H.
    simpl in *. by rewrite H.
  - simpl in Hpre. apply orb_false_iff in Hpre as [Ha Hpre].
    change (String a pre +:+ ?t) with (String a (pre +:+ t)).
    cbn [filename_match].
    rewrite filename_match_here_other; [by apply IH |].
    intros ->. discriminate Ha.
Qed.

(** X13.  When the [Content-Disposition] header of a download has, after a
    part without the letter [f], the text [filename=] and a non-empty name
    in double quotes on one line, and no double quote after it, the file is
    saved under that name, whatever the title of the item and the format;
    the name may itself contain double quotes. *)
Theorem download_filename_reads_header :
  ∀ (pre name post video_title fmt : string),
    occurs "f" pre = false →
    name ≠ "" →
    one_line name = true →
    occurs "034" post = false →
    download_filename (Some (pre +:+ "filename=" +:+ quoted name +:+ post))
                      video_title fmt
    = name.
Proof.
  intros pre name post video_title fmt Hpre Hne Hl Hpost.
  unfold download_filename.
  assert (truthy (Some (pre +:+ "filename=" +:+ quoted name +:+ post)) = true)
    as -> by by destruct pre.
  change (default "" (Some ?h)) with h.
  by rewrite filename_match_app.
Qed.

Lemma download_filename_reads_header_witness :
  download_filename
    (Some ("attachment; " +:+ "filename=" +:+ quoted "My Song.mp3" +:+ ""))
    "My Song" "mp3"
  = "My Song.mp3"
  ∧ download_filename
      (Some ("" +:+ "filename=" +:+ quoted ("a" +:+ dquote +:+ "b") +:+ "; x"))
      "t" "mp4"
    = "a" +:+ dquote +:+ "b".
Proof.
  split.
  - apply (download_filename_reads_header "attachment; " "My Song.mp3" "");
      [reflexivity | discriminate | reflexivity | reflexivity].
  - apply (download_filename_reads_header "" ("a" +:+ dquote +:+ "b") "; x");
      [reflexivity | discriminate | reflexivity | reflexivity].
Defined.

(** X14.  The name under which a download is saved is never empty.  It is
    the title of the item, a dot and the format, unless the response has a
    [Content-Disposition] header that contains [filename=] followed by a
    non-empty name in double quotes, without a line terminator in the name:
    only then is it that name.  Without a header, and with a header without a
    double quote, it is the title, a dot and the format. *)
Theorem download_filename_default_or_quoted :
  ∀ (cd : option string) (video_title fmt : string),
    download_filename cd video_title fmt ≠ ""
    ∧ (download_filename cd video_title fmt = video_title +:+ "." +:+ fmt
       ∨ ∃ pre name post,
           cd = Some (pre +:+ "filename=" +:+ quoted name +:+ post)
           ∧ name ≠ "" ∧ one_line name = true
           ∧ download_filename cd video_title fmt = name)
    ∧ download_filename None video_title fmt = video_title +:+ "." +:+ fmt
    ∧ (if occurs "034" (default "" cd) then True
       else download_filename cd video_title fmt = video_title +:+ "." +:+ fmt).
Proof.
  intros cd video_title fmt.
  assert (video_title +:+ "." +:+ fmt ≠ "") as Hd by by destruct video_title.
  assert (download_filename cd video_title fmt = video_title +:+ "." +:+ fmt
          ∨ ∃ pre name post,
              cd = Some (pre +:+ "filename=" +:+ quoted name +:+ post)
              ∧ name ≠ "" ∧ one_line name = true
              ∧ download_filename cd video_title fmt = name) as Hcases.
  { unfold download_filename.
    destruct (truthy cd); [| by left].
    destruct cd as [h |]; simpl default.
    - destruct (filename_match h) as [p |] eqn:Hm; [| by left].
      destruct (filename_match_Some _ _ Hm) as (H1 & H2 & pre & post & ->).
      right. by exists pre, p, post.
    - simpl. by left. }
  split_and!.
  - destruct Hcases as [-> | (pre & name & post & _ & Hne & _ & ->)]; done.
  - exact Hcases.
  - reflexivity.
  - destruct (occurs "034" (default "" cd)) eqn:Hq; [done |].
    destruct Hcases as [H | (pre & name & post & -> & _)]; [done |].
    simpl in Hq. unfold quoted in Hq.
    rewrite !occurs_app in Hq. simpl in Hq.
    by rewrite !orb_true_r in Hq.
Qed.

(** ** Shortened titles *)

Lemma length_substring_0 (n : nat) (s : string) :
  (n ≤ String.length s)%nat → String.length (substring 0 n s) = n.
Proof.
  revert s. induction n as [| n IH]; intros [| a s]; simpl; try done; try lia.
  intros Hn. rewrite IH; [done | lia].
Qed.

Lemma length_app_string (a b : string) :
  String.length (a +:+ b) = String.length a + String.length b.
Proof. induction a as [| x a IH]; simpl; [done | by rewrite IH]. Qed.

Lemma substring_0_app (a b : string) :
  substring 0 (String.length a) (a +:+ b) = a.
Proof.
  induction a as [| x a IH]; simpl; [by destruct b | by rewrite IH].
Qed.

Lemma substring_0_twice (n : nat) (s t : string) :
  (n ≤ String.length s)%nat →
  substring 0 n (substring 0 n s +:+ t) = substring 0 n s.
Proof.
  intros Hn.
  rewrite <- (length_substring_0 n s Hn) at 1. apply substring_0_app.
Qed.

(** X15.  [truncate] never returns more than [maxLen + 3] characters, and
    the first [maxLen] characters of what it returns are those of the string
    given.  A string longer than [maxLen] comes back with exactly
    [maxLen + 3] characters, any other string as it is, and a missing string
    as the empty string. *)
Theorem truncate_bounded :
  ∀ (str : option string) (maxLen : nat),
    let s := default "" str in
    (String.length (truncate str maxLen) ≤ maxLen + 3)%nat
    ∧ substring 0 maxLen (truncate str maxLen) = substring 0 maxLen s
    ∧ (if Nat.ltb maxLen (String.length s)
       then String.length (truncate str maxLen) = maxLen + 3
       else truncate str maxLen = s).
Proof.
  intros [s |] maxLen; cbv zeta; unfold truncate; simpl default.
  - destruct (String.eqb_spec s "") as [-> | Hne].
    + simpl. split_and!; [lia | done | by destruct maxLen].
    + destruct (Nat.ltb_spec maxLen (String.length s)) as [Hlt | Hge].
      * assert (String.length (substring 0 maxLen s +:+ "...") = maxLen + 3)
          as Hlen.
        { rewrite length_app_string, length_substring_0 by lia. reflexivity. }
        split_and!; [lia | apply substring_0_twice; lia | done].
      * split_and!; [lia | done | done].
  - simpl. split_and!; [lia | done | by destruct maxLen].
Qed.

(** ** The format buttons *)

Lemma activate_format_lookup (i j : nat) (bs : list formatBtn) (b' : formatBtn) :
  activate_format i bs !! j = Some b' →
  (fmt_active b' = true ↔ j = i)
  ∧ ∃ b0, bs !! j = Some b0 ∧ dataset_format b' = dataset_format b0.
Proof.
  unfold activate_format. rewrite list_lookup_imap.
  destruct (bs !! j) as [b0 |]; simpl; [| done].
  intros [= <-]. simpl. split; [| by exists b0].
  case_bool_decide; split; done.
Qed.

Lemma activate_format_formats (i : nat) (bs : list formatBtn) :
  map dataset_format (activate_format i bs) = map dataset_format bs.
Proof.
  unfold activate_format. apply list_eq. intros j.
  rewrite !list_lookup_fmap, list_lookup_imap.
  by destruct (bs !! j).
Qed.

Lemma startDownloads_fetches net videoIds (w : Public.world) :
  Public.fetches (snd (Public.startDownloads net videoIds w))
  = Public.fetches w ++ flat_map (download_requests w) videoIds.
Proof.
  unfold Public.startDownloads.
  destruct (download_end_spec
              (Public.download_loop net 0 (length videoIds) videoIds
                 (tally0, Public.download_begin videoIds w)))
    as (_ & _ & _ & E4 & _).
  destruct (download_loop_log net (length videoIds) videoIds 0
              (tally0, Public.download_begin videoIds w)) as (L1 & _).
  rewrite E4, L1. reflexivity.
Qed.

Lemma download_requests_fmt (w : Public.world) (videoIds : list string) :
  Forall (λ r, ("fmt", Public.selectedFormat (Public.st w)) ∈ req_body r)
         (flat_map (download_requests w) videoIds).
Proof.
  induction videoIds as [| x rest IH]; simpl; [constructor |].
  apply Forall_app. split; [| done].
  unfold download_requests. destruct (find_video _ _); [| constructor].
  repeat constructor.
Qed.

(** X16.  A click on a format button (in the sequential variant: when no run
    is in progress) stores the format of the button clicked and leaves that
    button, and no other, active; the formats of the buttons stay.  The
    format stored is the one requested by the next click on the download
    button: in the sequential variant every request of the run carries it in
    its [fmt] field, and in the push-stream variant the subscription URL
    ends with it, after the session identifier and the selected identifiers
    joined by commas. *)
Theorem format_click_sets_requested_format :
  ∀ (i : nat) (b c : formatBtn) (w : Public.world) (v : Static.world)
    (net : nat → downloadOutcome),
    formatBtns (Public.page w) !! i = Some b →
    Public.isDownloading (Public.st w) = false →
    formatBtns (Static.page v) !! i = Some c →
    let w' := Public.format_click i w in
    let v' := Static.format_click i v in
    Public.selectedFormat (Public.st w') = dataset_format b
    ∧ (∀ j b', formatBtns (Public.page w') !! j = Some b' →
               (fmt_active b' = true ↔ j = i))
    ∧ map dataset_format (formatBtns (Public.page w'))
      = map dataset_format (formatBtns (Public.page w))
    ∧ (∃ new, Public.fetches (Public.download_click net w')
              = Public.fetches w ++ new
              ∧ Forall (λ r, ("fmt", dataset_format b) ∈ req_body r) new)
    ∧ Static.selectedFormat (Static.st v') = dataset_format c
    ∧ (∀ j b', formatBtns (Static.page v') !! j = Some b' →
               (fmt_active b' = true ↔ j = i))
    ∧ map dataset_format (formatBtns (Static.page v'))
      = map dataset_format (formatBtns (Static.page v))
    ∧ Static.fetches (snd (Static.download_click v'))
      = Static.fetches v
        ++ (if Nat.eqb (JSSet.size (Static.selectedIds (Static.st v))) 0
            then []
            else [ {| req_method := "GET";
                      req_url := "/api/download/" +:+
                                 show_sid (Static.sessionId (Static.st v)) +:+
                                 "?video_ids=" +:+
                                 join_comma (Static.selectedIds (Static.st v)) +:+
                                 "&fmt=" +:+ dataset_format c;
                      req_body := [] |} ]).
Proof.
  intros i b c w v net Hb Hidle Hc. cbv zeta.
  unfold Public.format_click, Static.format_click. rewrite Hb, Hidle, Hc.
  split_and!.
  - reflexivity.
  - intros j b' Hj. simpl in Hj.
    by destruct (activate_format_lookup _ _ _ _ Hj).
  - simpl. apply activate_format_formats.
  - unfold Public.download_click. simpl. rewrite Hidle, orb_false_r.
    destruct (Nat.eqb _ 0).
    + exists []. simpl. by rewrite app_nil_r.
    + set (w1 := Public.on_st (Public.set_selectedFormat (dataset_format b))
                   (Public.on_page
                      (λ d, set_formatBtns (activate_format i (formatBtns d)) d)
                      w)).
      exists (flat_map (download_requests w1)
                (Public.selectedIds (Public.st w))).
      split; [by rewrite startDownloads_fetches |].
      apply (download_requests_fmt w1).
  - reflexivity.
  - intros j b' Hj. simpl in Hj.
    by destruct (activate_format_lookup _ _ _ _ Hj).
  - simpl. apply activate_format_formats.
  - unfold Static.download_click. simpl.
    destruct (Nat.eqb _ 0); simpl; [by rewrite app_nil_r | reflexivity].
Qed.

Lemma format_click_sets_requested_format_witness :
  Public.selectedFormat
    (Public.st (Public.format_click 1 (public_loaded three_items))) = "mp4"
  ∧ Static.selectedFormat
      (Static.st (Static.format_click 1 (static_loaded three_items))) = "mp4".
Proof.
  pose proof (format_click_sets_requested_format 1
                {| dataset_format := "mp4"; fmt_active := false |}
                {| dataset_format := "mp4"; fmt_active := false |}
                (public_loaded three_items) (static_loaded three_items)
                (λ _, DlOk None) eq_refl eq_refl eq_refl) as H.
  cbv zeta in H. destruct H as (H1 & _ & _ & _ & H2 & _).
  split; [exact H1 | exact H2].
Defined.

(** ** A whole run of the push-stream variant *)

(** What a message other than [all_complete] leaves alone on the page and
    in the variables, and the progress text it shows. *)
Lemma onmessage_open (data : Static.sseEvent) (rw : Static.run * Static.world) :
  Static.event_type data ≠ "all_complete" →
  let rw' := Static.onmessage data rw in
  (∀ i, i ≠ downloadStatus → i ≠ overallProgress → i ≠ overallProgressFill →
        el (Static.page (snd rw')) i = el (Static.page (snd rw)) i)
  ∧ classList (el (Static.page (snd rw')) overallProgressFill)
    = classList (el (Static.page (snd rw)) overallProgressFill)
  ∧ (textContent (el (Static.page (snd rw)) overallProgress)
     = show_nat (Static.completedCount (fst rw)) +:+ " / " +:+
       show_nat (Static.totalCount (fst rw)) →
     textContent (el (Static.page (snd rw')) overallProgress)
     = show_nat (Static.completedCount (fst rw')) +:+ " / " +:+
       show_nat (Static.totalCount (fst rw')))
  ∧ Static.sessionId (Static.st (snd rw')) = Static.sessionId (Static.st (snd rw))
  ∧ Static.opened (snd rw') = Static.opened (snd rw)
  ∧ Static.fetches (snd rw') = Static.fetches (snd rw).
Proof.
  destruct rw as [r w]. destruct data as [ty id ttl pc sp m].
  unfold Static.onmessage. simpl. intros Hty.
  by_event_type ty; try done;
    repeat match goal with
           | |- context [if truthy ?b then _ else _] => destruct (truthy b)
           end; simpl;
    (split_and!; try done;
     first [ by (repeat case_decide; try done; apply set_style_width_keeps)
           | intros i H1 H2 H3; repeat case_decide; congruence ]).
Qed.

Lemma deliver_all_closed (ds : list Static.delivery) :
  ∀ rw, Static.closed (fst rw) = true → Static.deliver_all ds rw = rw.
Proof.
  unfold Static.deliver_all.
  induction ds as [| d ds IH]; intros rw Hc; simpl; [done |].
  unfold Static.deliver at 2. rewrite Hc. by apply IH.
Qed.

Lemma deliver_all_app (ds1 ds2 : list Static.delivery) rw :
  Static.deliver_all (ds1 ++ ds2) rw
  = Static.deliver_all ds2 (Static.deliver_all ds1 rw).
Proof. unfold Static.deliver_all. apply foldl_app. Qed.

Lemma reported_length_cons ty data ds :
  length (reported ty (Static.Message data :: ds))
  = (if String.eqb (Static.event_type data) ty then 1 else 0)
    + length (reported ty ds).
Proof.
  unfold reported. simpl.
  by destruct (String.eqb (Static.event_type data) ty).
Qed.

(** An open subscription that receives no [all_complete] message and meets
    no transport error stays open; its tallies count the [complete] and the
    [error] messages. *)
Lemma deliver_all_open (ds : list Static.delivery) :
  ∀ (rw : Static.run * Static.world),
    Static.closed (fst rw) = false →
    Forall (λ d, closing d = false) ds →
    textContent (el (Static.page (snd rw)) overallProgress)
    = show_nat (Static.completedCount (fst rw)) +:+ " / " +:+
      show_nat (Static.totalCount (fst rw)) →
    let rw' := Static.deliver_all ds rw in
    Static.closed (fst rw') = false
    ∧ Static.completedCount (fst rw')
      = Static.completedCount (fst rw) + length (reported "complete" ds)
    ∧ Static.errorCount (fst rw')
      = Static.errorCount (fst rw) + length (reported "error" ds)
    ∧ Static.totalCount (fst rw') = Static.totalCount (fst rw)
    ∧ (∀ i, i ≠ downloadStatus → i ≠ overallProgress →
            i ≠ overallProgressFill →
            el (Static.page (snd rw')) i = el (Static.page (snd rw)) i)
    ∧ classList (el (Static.page (snd rw')) overallProgressFill)
      = classList (el (Static.page (snd rw)) overallProgressFill)
    ∧ textContent (el (Static.page (snd rw')) overallProgress)
      = show_nat (Static.completedCount (fst rw')) +:+ " / " +:+
        show_nat (Static.totalCount (fst rw'))
    ∧ Static.sessionId (Static.st (snd rw'))
      = Static.sessionId (Static.st (snd rw))
    ∧ Static.opened (snd rw') = Static.opened (snd rw)
    ∧ Static.fetches (snd rw') = Static.fetches (snd rw)
    ∧ (∀ x, x ∈ Static.downloadedIds (Static.st (snd rw'))
            ↔ x ∈ Static.downloadedIds (Static.st (snd rw))
              ∨ x ∈ reported "complete" ds).
Proof.
  induction ds as [| d ds IH]; intros rw Hc Hds Htext; cbv zeta.
  - unfold Static.deliver_all. simpl.
    split_and!; try done; try lia.
    intros x. unfold reported. simpl. rewrite elem_of_nil. tauto.
  - apply Forall_cons in Hds as [Hd Hds].
    destruct d as [data |]; [| discriminate Hd].
    simpl in Hd. apply String.eqb_neq in Hd.
    change (Static.deliver_all (Static.Message data :: ds) rw)
      with (Static.deliver_all ds (Static.deliver (Static.Message data) rw)).
    pose proof (deliver_downloadedIds (Static.Message data) rw) as Hdl.
    rewrite (deliver_message_open data rw Hc) in *.
    destruct (onmessage_spec data rw) as (_ & _ & S3 & S4 & S5 & S6 & _).
    destruct (onmessage_open data rw Hd) as (O1 & O2 & O3 & O4 & O5 & O6).
    cbv zeta in *.
    assert (Static.closed (fst (Static.onmessage data rw)) = false) as Hc'.
    { rewrite S6, Hc. simpl. by apply String.eqb_neq. }
    destruct (IH (Static.onmessage data rw) Hc' Hds (O3 Htext))
      as (I1 & I2 & I3 & I4 & I5 & I6 & I7 & I8 & I9 & I10 & I11).
    rewrite !reported_length_cons.
    split_and!.
    + exact I1.
    + rewrite I2, S3.
      destruct (String.eqb (Static.event_type data) "complete"); lia.
    + rewrite I3, S4.
      destruct (String.eqb (Static.event_type data) "error"); lia.
    + by rewrite I4, S5.
    + intros i H1 H2 H3. by rewrite I5, O1.
    + by rewrite I6, O2.
    + exact I7.
    + by rewrite I8, O4.
    + by rewrite I9, O5.
    + by rewrite I10, O6.
    + intros x.
      rewrite (reported_cons "complete" (Static.Message data) ds), I11, Hdl.
      tauto.
Qed.

(** The last message of a run. *)
Lemma onmessage_all_complete_page (data : Static.sseEvent)
    (rw : Static.run * Static.world) :
  Static.event_type data = "all_complete" →
  let rw' := Static.onmessage data rw in
  let n := JSSet.size (Static.downloadedIds (Static.st (snd rw))) in
  Static.st (snd rw') = Static.st (snd rw)
  ∧ Static.opened (snd rw') = Static.opened (snd rw)
  ∧ Static.fetches (snd rw') = Static.fetches (snd rw)
  ∧ textContent (el (Static.page (snd rw')) overallProgress)
    = textContent (el (Static.page (snd rw)) overallProgress)
  ∧ classList (el (Static.page (snd rw')) overallProgressFill)
    = (if summary_marks_complete (Static.completedCount (fst rw))
                                 (Static.errorCount (fst rw))
       then classList (el (Static.page (snd rw)) overallProgressFill)
            ∪ {[ "complete" ]}
       else classList (el (Static.page (snd rw)) overallProgressFill))
  ∧ classList (el (Static.page (snd rw')) zipSection)
    = (if Nat.eqb n 0
       then classList (el (Static.page (snd rw)) zipSection)
       else classList (el (Static.page (snd rw)) zipSection) ∖ {[ "hidden" ]})
  ∧ textContent (el (Static.page (snd rw')) zipSubtitle)
    = (if Nat.eqb n 0
       then textContent (el (Static.page (snd rw)) zipSubtitle)
       else show_nat n +:+ " video" +:+ (if Nat.eqb n 1 then "" else "s") +:+
            " ready to download").
Proof.
  destruct rw as [r w]. destruct data as [ty id ttl pc sp m].
  simpl. intros ->. unfold Static.onmessage. simpl.
  destruct (summary_marks_complete _ _); simpl;
    destruct (JSSet.size (Static.downloadedIds (Static.st w))) as [| n];
    simpl; split_and!; reflexivity.
Qed.

Lemma startDownload_opens (videoIds : list string) (w : Static.world) :
  let rw := Static.startDownload videoIds w in
  Static.closed (fst rw) = false
  ∧ Static.completedCount (fst rw) = 0
  ∧ Static.errorCount (fst rw) = 0
  ∧ Static.totalCount (fst rw) = length videoIds
  ∧ textContent (el (Static.page (snd rw)) overallProgress)
    = show_nat (Static.completedCount (fst rw)) +:+ " / " +:+
      show_nat (Static.totalCount (fst rw))
  ∧ disabled (el (Static.page (snd rw)) downloadSelectedBtn) = true
  ∧ disabled (el (Static.page (snd rw)) selectAllBtn) = true
  ∧ "hidden" ∈ classList (el (Static.page (snd rw)) zipSection)
  ∧ ("complete" ∉ classList (el (Static.page (snd rw)) overallProgressFill))
  ∧ Static.st (snd rw) = Static.st w
  ∧ Static.opened (snd rw) = Static.opened w
  ∧ textContent (el (Static.page (snd rw)) zipSubtitle)
    = textContent (el (Static.page w) zipSubtitle).
Proof.
  simpl. split_and!; try reflexivity.
  - rewrite elem_of_union, elem_of_singleton. by right.
  - rewrite elem_of_difference, elem_of_singleton. tauto.
Qed.

Lemma push_stream_end (videoIds : list string) (ds more : list Static.delivery)
    (data : Static.sseEvent) (w : Static.world) :
  Forall (λ d, closing d = false) ds →
  Static.event_type data = "all_complete" →
  Static.deliver_all (ds ++ Static.Message data :: more)
    (Static.startDownload videoIds w)
  = Static.onmessage data
      (Static.deliver_all ds (Static.startDownload videoIds w)).
Proof.
  intros Hds Hty.
  destruct (startDownload_opens videoIds w) as (Hc & _ & _ & _ & Ht & _).
  cbv zeta in Hc, Ht.
  destruct (deliver_all_open ds _ Hc Hds Ht) as (Hc' & _).
  rewrite deliver_all_app.
  change (Static.deliver_all (Static.Message data :: more) ?rw)
    with (Static.deliver_all more (Static.deliver (Static.Message data) rw)).
  rewrite deliver_message_open by done.
  apply deliver_all_closed.
  destruct (onmessage_spec data
              (Static.deliver_all ds (Static.startDownload videoIds w)))
    as (_ & _ & _ & _ & _ & S6 & _).
  cbv zeta in S6. rewrite S6, Hty. apply orb_true_r.
Qed.

(** X17.  In the push-stream variant, a run whose stream delivers any
    messages other than [all_complete], without a transport error, each
    about an identifier for which the selector of a card is the test for the
    identifier, and then [all_complete]: while the messages come in the subscription is open, the
    download and select-all buttons are disabled, the ZIP section is hidden
    and the progress text counts the [complete] messages only, over the
    number of identifiers requested.  The [all_complete] message closes the
    subscription, so whatever is delivered after it changes nothing; the
    tallies are the numbers of [complete] and of [error] messages received,
    the status line is their summary, the two buttons are enabled, the
    progress fill gets the class [complete] unless there were failures only,
    and no request was sent besides the subscription. *)
Theorem push_stream_run_counts_events :
  ∀ (videoIds : list string) (ds more : list Static.delivery)
    (data : Static.sseEvent) (w : Static.world),
    Forall (λ d, closing d = false) ds →
    Forall (λ d, selector_safe_delivery d = true) ds →
    Static.event_type data = "all_complete" →
    let start := Static.startDownload videoIds w in
    let mid := Static.deliver_all ds start in
    let fin := Static.deliver_all (ds ++ Static.Message data :: more) start in
    let c := length (reported "complete" ds) in
    let e := length (reported "error" ds) in
    Static.closed (fst mid) = false
    ∧ disabled (el (Static.page (snd mid)) downloadSelectedBtn) = true
    ∧ disabled (el (Static.page (snd mid)) selectAllBtn) = true
    ∧ "hidden" ∈ classList (el (Static.page (snd mid)) zipSection)
    ∧ textContent (el (Static.page (snd mid)) overallProgress)
      = show_nat c +:+ " / " +:+ show_nat (length videoIds)
    ∧ fin = Static.deliver_all (ds ++ [Static.Message data]) start
    ∧ Static.closed (fst fin) = true
    ∧ Static.completedCount (fst fin) = c
    ∧ Static.errorCount (fst fin) = e
    ∧ textContent (el (Static.page (snd fin)) downloadStatus) = summary_text c e
    ∧ disabled (el (Static.page (snd fin)) downloadSelectedBtn) = false
    ∧ disabled (el (Static.page (snd fin)) selectAllBtn) = false
    ∧ textContent (el (Static.page (snd fin)) overallProgress)
      = show_nat c +:+ " / " +:+ show_nat (length videoIds)
    ∧ ("complete" ∈ classList (el (Static.page (snd fin)) overallProgressFill)
       ↔ summary_marks_complete c e = true)
    ∧ Static.fetches (snd fin) = Static.fetches (snd start).
Proof.
  intros videoIds ds more data w Hds _ Hty. cbv zeta.
  rewrite !push_stream_end by done.
  destruct (startDownload_opens videoIds w)
    as (Hc & Hn & He & HT & Ht & Hb1 & Hb2 & Hz & Hf & _).
  cbv zeta in Hc, Hn, He, HT, Ht, Hb1, Hb2, Hz, Hf.
  destruct (deliver_all_open ds _ Hc Hds Ht)
    as (Mc & Mn & Me & MT & Mel & Mfill & Mtext & _ & _ & Mfetch & _).
  cbv zeta in Mc, Mn, Me, MT, Mel, Mfill, Mtext, Mfetch.
  rewrite Hn in Mn. rewrite He in Me. rewrite HT in MT. simpl in Mn, Me.
  remember (Static.startDownload videoIds w) as start eqn:E. clear E.
  remember (Static.deliver_all ds start) as mid eqn:E. clear E.
  destruct (onmessage_spec data mid) as (_ & _ & S3 & S4 & _ & S6 & _).
  destruct (onmessage_all_complete data mid Hty) as (A1 & A2 & A3 & _).
  destruct (onmessage_all_complete_page data mid Hty)
    as (_ & _ & P3 & P4 & P5 & _).
  cbv zeta in S3, S4, S6, A1, A2, A3, P3, P4, P5.
  rewrite Hty in S3, S4, S6. simpl in S3, S4.
  split_and!.
  - exact Mc.
  - by rewrite Mel.
  - by rewrite Mel.
  - by rewrite Mel.
  - by rewrite Mtext, Mn, MT.
  - reflexivity.
  - rewrite S6. apply orb_true_r.
  - by rewrite S3.
  - by rewrite S4.
  - by rewrite A1, Mn, Me.
  - exact A2.
  - exact A3.
  - by rewrite P4, Mtext, Mn, MT.
  - rewrite P5, Mfill, Mn, Me.
    generalize (summary_marks_complete (length (reported "complete" ds))
                  (length (reported "error" ds))).
    intros [|].
    + rewrite elem_of_union, elem_of_singleton. tauto.
    + split; [by intros ?%Hf | done].
  - by rewrite P3, Mfetch.
Qed.

Lemma push_stream_run_counts_events_witness :
  let fin := Static.deliver_all
               ([ Static.Message (event "complete" "a");
                  Static.Message (event "error" "b");
                  Static.Message (event "complete" "c") ]
                ++ Static.Message (event "all_complete" "")
                   :: [ Static.Message (event "complete" "b") ])
               (Static.startDownload ["a"; "b"; "c"] (static_loaded three_items)) in
  Static.completedCount (fst fin) = 2
  ∧ Static.errorCount (fst fin) = 1
  ∧ textContent (el (Static.page (snd fin)) downloadStatus)
    = "2 downloaded, 1 failed"
  ∧ textContent (el (Static.page (snd fin)) overallProgress) = "2 / 3".
Proof.
  assert (Forall (λ d, closing d = false)
            [ Static.Message (event "complete" "a");
              Static.Message (event "error" "b");
              Static.Message (event "complete" "c") ]) as Hds
    by (repeat constructor).
  assert (Forall (λ d, selector_safe_delivery d = true)
            [ Static.Message (event "complete" "a");
              Static.Message (event "error" "b");
              Static.Message (event "complete" "c") ]) as Hsafe
    by (repeat constructor).
  pose proof (push_stream_run_counts_events ["a"; "b"; "c"] _
                [ Static.Message (event "complete" "b") ]
                (event "all_complete" "") (static_loaded three_items)
                Hds Hsafe eq_refl) as H.
  cbv zeta in H.
  destruct H as (_ & _ & _ & _ & _ & _ & _ & H1 & H2 & H3 & _ & _ & H4 & _).
  cbv zeta. split_and!; [exact H1 | exact H2 | exact H3 | exact H4].
Defined.

(** X18.  At the end of such a run the completed set holds what it held
    before the run and the identifiers of the [complete] messages, nothing
    else.  The ZIP section is shown exactly when that set is not empty, so
    also after a run without a success when an earlier run had one; its
    subtitle then gives the size of the set.  A click on the ZIP button
    afterwards opens [/api/zip/] followed by the session identifier that the
    run started with, and nothing else was opened meanwhile. *)
Theorem push_stream_run_zip_section :
  ∀ (videoIds : list string) (ds more : list Static.delivery)
    (data : Static.sseEvent) (w : Static.world),
    Forall (λ d, closing d = false) ds →
    Static.event_type data = "all_complete" →
    let fin := snd (Static.deliver_all (ds ++ Static.Message data :: more)
                      (Static.startDownload videoIds w)) in
    let n := JSSet.size (Static.downloadedIds (Static.st fin)) in
    (∀ x, x ∈ Static.downloadedIds (Static.st fin)
          ↔ x ∈ Static.downloadedIds (Static.st w)
            ∨ x ∈ reported "complete" ds)
    ∧ ("hidden" ∈ classList (el (Static.page fin) zipSection)
       ↔ Static.downloadedIds (Static.st w) = []
         ∧ reported "complete" ds = [])
    ∧ textContent (el (Static.page fin) zipSubtitle)
      = (if Nat.eqb n 0 then textContent (el (Static.page w) zipSubtitle)
         else show_nat n +:+ " video" +:+ (if Nat.eqb n 1 then "" else "s") +:+
              " ready to download")
    ∧ Static.opened (Static.zip_click fin)
      = Static.opened w
        ++ ["/api/zip/" +:+ show_sid (Static.sessionId (Static.st w))].
Proof.
  intros videoIds ds more data w Hds Hty. cbv zeta.
  rewrite !push_stream_end by done.
  destruct (startDownload_opens videoIds w)
    as (Hc & _ & _ & _ & Ht & _ & _ & Hz & _ & Hst & Hop & Hsub).
  cbv zeta in Hc, Ht, Hz, Hst, Hop, Hsub.
  destruct (deliver_all_open ds _ Hc Hds Ht)
    as (_ & _ & _ & _ & Mel & _ & _ & Msid & Mop & _ & Mdl).
  cbv zeta in Mel, Msid, Mop, Mdl.
  rewrite Hst in Msid, Mdl. rewrite Hop in Mop.
  pose proof (Mel zipSection ltac:(done) ltac:(done) ltac:(done)) as Mz.
  pose proof (Mel zipSubtitle ltac:(done) ltac:(done) ltac:(done)) as Ms.
  remember (Static.startDownload videoIds w) as start eqn:E. clear E.
  remember (Static.deliver_all ds start) as mid eqn:E. clear E.
  destruct (onmessage_all_complete_page data mid Hty)
    as (P1 & P2 & _ & _ & _ & P6 & P7).
  cbv zeta in P1, P2, P6, P7.
  assert (JSSet.size (Static.downloadedIds (Static.st (snd mid))) = 0
          ↔ Static.downloadedIds (Static.st w) = []
            ∧ reported "complete" ds = []) as Hempty.
  { unfold JSSet.size. rewrite length_zero_iff_nil. split.
    - intros Hnil. rewrite Hnil in Mdl.
      split; [destruct (Static.downloadedIds (Static.st w)) as [| x l]
             | destruct (reported "complete" ds) as [| x l]]; try done;
        exfalso; apply (elem_of_nil x), Mdl; [left | right]; left.
    - intros [H1 H2]. rewrite H1, H2 in Mdl.
      destruct (Static.downloadedIds (Static.st (snd mid))) as [| x l];
        [done |].
      exfalso. assert (x ∈ x :: l) as Hx by left.
      apply Mdl in Hx as [Hx | Hx]; by apply elem_of_nil in Hx. }
  split_and!.
  - intros x. by rewrite P1, Mdl.
  - rewrite P6, Mz, <- Hempty.
    destruct (Nat.eqb_spec
                (JSSet.size (Static.downloadedIds (Static.st (snd mid)))) 0)
      as [H0 | H0].
    + split; [done | intros _; exact Hz].
    + rewrite elem_of_difference, elem_of_singleton. tauto.
  - rewrite P1, P7, Ms, Hsub. reflexivity.
  - unfold Static.zip_click. simpl. by rewrite P1, P2, Msid, Mop.
Qed.

Lemma push_stream_run_zip_section_witness :
  let fin := snd (Static.deliver_all
                    ([ Static.Message (event "complete" "a");
                       Static.Message (event "error" "b") ]
                     ++ Static.Message (event "all_complete" "") :: [])
                    (Static.startDownload ["a"; "b"]
                       (static_loaded three_items))) in
  ("hidden" ∈ classList (el (Static.page fin) zipSection)
   ↔ Static.downloadedIds (Static.st (static_loaded three_items)) = []
     ∧ reported "complete" [ Static.Message (event "complete" "a");
                             Static.Message (event "error" "b") ] = [])
  ∧ Static.opened (Static.zip_click fin)
    = Static.opened (static_loaded three_items)
      ++ ["/api/zip/" +:+
          show_sid (Static.sessionId (Static.st (static_loaded three_items)))].
Proof.
  assert (Forall (λ d, closing d = false)
            [ Static.Message (event "complete" "a");
              Static.Message (event "error" "b") ]) as Hds
    by (repeat constructor).
  pose proof (push_stream_run_zip_section ["a"; "b"] _ []
                (event "all_complete" "") (static_loaded three_items)
                Hds eq_refl) as H.
  cbv zeta in H. destruct H as (_ & H2 & _ & H4).
  cbv zeta. split; [exact H2 | exact H4].
Defined.

(** ** Clicks on a card of the push-stream variant *)

Lemma with_card_twice videoId (f g : card → card) (cs : list card) :
  (∀ k, dataset_videoId (f k) = dataset_videoId k) →
  with_card videoId g (with_card videoId f cs)
  = with_card videoId (λ k, g (f k)) cs.
Proof.
  intros Hf. induction cs as [| k cs IH]; simpl; [done |].
  destruct (String.eqb (dataset_videoId k) videoId) eqn:E; simpl.
  - by rewrite Hf, E.
  - by rewrite E, IH.
Qed.

Lemma with_card_lookup (f : card → card) (cs : list card) (i : nat) (k : card) :
  NoDup (map dataset_videoId cs) →
  cs !! i = Some k →
  with_card (dataset_videoId k) f cs !! i = Some (f k).
Proof.
  revert i. induction cs as [| k0 cs IH]; intros i Hnd Hi; [done |].
  simpl in Hnd. apply NoDup_cons in Hnd as [Hnot Hnd].
  destruct i as [| i]; simpl in Hi.
  - injection Hi as ->. simpl. by rewrite String.eqb_refl.
  - simpl. destruct (String.eqb_spec (dataset_videoId k0) (dataset_videoId k))
      as [E | E].
    + exfalso. apply Hnot. rewrite E.
      apply list_elem_of_fmap. exists k. split; [done |].
      by apply list_elem_of_lookup_2 in Hi.
    + simpl. by apply IH.
Qed.

(** X19.  In the push-stream variant, with distinct identifiers on the
    cards, a click on the status icon of a card right after a message about
    its item, the identifier being one for which the selector of a card is
    the test for the identifier: after [complete] it opens [/api/file/], the session
    identifier, a slash and the identifier of the item, and changes nothing
    else; after [downloading], [merging] or [error] it does nothing at all,
    whatever the card showed before, and in no case does it toggle the
    selection. *)
Theorem status_icon_click_opens_completed_file :
  ∀ (data : Static.sseEvent) (r : Static.run) (v : Static.world)
    (i : nat) (k : card),
    NoDup (map dataset_videoId (cards (Static.page v))) →
    cards (Static.page v) !! i = Some k →
    selector_safe (dataset_videoId k) = true →
    Static.ev_video_id data = dataset_videoId k →
    Static.event_type data ∈ ["downloading"; "merging"; "complete"; "error"] →
    let v' := snd (Static.onmessage data (r, v)) in
    Static.card_click i true v'
    = (if String.eqb (Static.event_type data) "complete"
       then Static.window_open
              ("/api/file/" +:+ show_sid (Static.sessionId (Static.st v)) +:+
               "/" +:+ dataset_videoId k) v'
       else v').
Proof.
  intros [ty id ttl pc sp m] r v i k Hnd Hi _ Hid Hty. simpl in Hid, Hty.
  subst id. cbv zeta.
  assert (∀ (f : card → card) (w : Static.world),
            cards (Static.page w)
            = with_card (dataset_videoId k) f (cards (Static.page v)) →
            Static.sessionId (Static.st w) = Static.sessionId (Static.st v) →
            (∀ k0, dataset_videoId (f k0) = dataset_videoId k0) →
            Static.card_click i true w
            = (if bool_decide ("complete" ∈ card_classList (f k))
               then Static.window_open
                      ("/api/file/" +:+
                       show_sid (Static.sessionId (Static.st v)) +:+
                       "/" +:+ dataset_videoId k) w
               else w)) as Hclick.
  { intros f w Hcards Hsid Hf. unfold Static.card_click.
    rewrite Hcards, (with_card_lookup f _ i k Hnd Hi), Hsid, Hf. done. }
  repeat (apply elem_of_cons in Hty as [-> | Hty]);
    [| | | | by apply elem_of_nil in Hty];
    unfold Static.onmessage; simpl.
  - erewrite Hclick; [| simpl; reflexivity | reflexivity | by intros k0].
    simpl. case_bool_decide as H; [| done]. exfalso. revert H. class_solver.
  - erewrite Hclick; [| simpl; reflexivity | reflexivity | by intros k0].
    simpl. case_bool_decide as H; [| done]. exfalso. revert H. class_solver.
  - erewrite Hclick;
      [| simpl; apply with_card_twice; by intros k0 | reflexivity
       | by intros k0].
    simpl. case_bool_decide as H; [done |]. exfalso. apply H. class_solver.
  - erewrite Hclick;
      [| simpl; apply with_card_twice; by intros k0 | reflexivity
       | by intros k0].
    simpl. case_bool_decide as H; [| done]. exfalso. revert H. class_solver.
Qed.

Lemma status_icon_click_opens_completed_file_witness :
  let v := static_loaded three_items in
  let r := fst (Static.startDownload ["a"; "b"; "c"] v) in
  Static.opened
    (Static.card_click 1 true
       (snd (Static.onmessage (event "complete" "b") (r, v))))
  = ["/api/file/s1/b"].
Proof.
  cbv zeta.
  rewrite (status_icon_click_opens_completed_file (event "complete" "b") _
             (static_loaded three_items) 1
             (new_card (item "b" "B"))).
  - reflexivity.
  - apply (bool_decide_unpack _). reflexivity.
  - reflexivity.
  - reflexivity.
  - reflexivity.
  - apply (bool_decide_unpack _). reflexivity.
Defined.

Lemma deliver_all_selectedIds (ds : list Static.delivery) :
  ∀ rw, Static.selectedIds (Static.st (snd (Static.deliver_all ds rw)))
        = Static.selectedIds (Static.st (snd rw))
        ∧ Static.videos (Static.st (snd (Static.deliver_all ds rw)))
          = Static.videos (Static.st (snd rw)).
Proof.
  unfold Static.deliver_all.
  induction ds as [| d ds IH]; intros rw; simpl; [done |].
  destruct (IH (Static.deliver d rw)) as [I1 I2]. rewrite I1, I2.
  unfold Static.deliver. destruct (Static.closed (fst rw)); [done |].
  destruct d as [data |].
  - destruct (onmessage_spec data rw) as (_ & _ & _ & _ & _ & _ & S7 & S8).
    done.
  - by destruct rw.
Qed.

(** X20.  The push-stream variant has no guard against clicks during a run.
    While the messages of a run come in, the download button being disabled
    by [startDownload], a click on a card (outside its status icon) toggles
    the selection as at any other time, and sets the disabled flag of the
    download button from the selection alone: the button is enabled again,
    while the subscription is still open, as soon as the selection is not
    empty.  The select-all button stays disabled. *)
Theorem push_stream_card_click_during_run :
  ∀ (videoIds : list string) (ds : list Static.delivery) (w : Static.world)
    (i : nat) (k : card),
    Forall (λ d, closing d = false) ds →
    let mid := Static.deliver_all ds (Static.startDownload videoIds w) in
    cards (Static.page (snd mid)) !! i = Some k →
    let v' := Static.card_click i false (snd mid) in
    let sel := Static.selectedIds (Static.st w) in
    Static.closed (fst mid) = false
    ∧ disabled (el (Static.page (snd mid)) downloadSelectedBtn) = true
    ∧ Static.selectedIds (Static.st v')
      = (if JSSet.has (dataset_videoId k) sel
         then JSSet.delete (dataset_videoId k) sel
         else JSSet.add (dataset_videoId k) sel)
    ∧ disabled (el (Static.page v') downloadSelectedBtn)
      = Nat.eqb (JSSet.size (Static.selectedIds (Static.st v'))) 0
    ∧ (if JSSet.has (dataset_videoId k) sel then True
       else disabled (el (Static.page v') downloadSelectedBtn) = false)
    ∧ disabled (el (Static.page v') selectAllBtn) = true.
Proof.
  intros videoIds ds w i k Hds. cbv zeta. intros Hi.
  destruct (startDownload_opens videoIds w)
    as (Hc & _ & _ & _ & Ht & Hb1 & Hb2 & _ & _ & Hst & _).
  cbv zeta in Hc, Ht, Hb1, Hb2, Hst.
  destruct (deliver_all_open ds _ Hc Hds Ht) as (Mc & _ & _ & _ & Mel & _).
  cbv zeta in Mc, Mel.
  destruct (deliver_all_selectedIds ds (Static.startDownload videoIds w))
    as [Msel _].
  rewrite Hst in Msel.
  pose proof (Mel downloadSelectedBtn ltac:(done) ltac:(done) ltac:(done))
    as M1.
  pose proof (Mel selectAllBtn ltac:(done) ltac:(done) ltac:(done)) as M2.
  rewrite <- M1 in Hb1. rewrite <- M2 in Hb2.
  remember (Static.deliver_all ds (Static.startDownload videoIds w)) as mid
    eqn:E. clear E M1 M2 Mel.
  unfold Static.card_click. rewrite Hi.
  unfold Static.toggleSelection. rewrite Msel.
  destruct (JSSet.has (dataset_videoId k) (Static.selectedIds (Static.st w)))
    eqn:Hhas; simpl.
  - split_and!; try done.
  - split_and!; try done.
    unfold JSSet.add. rewrite Hhas. unfold JSSet.size.
    rewrite length_app. simpl.
    destruct (length (Static.selectedIds (Static.st w))); reflexivity.
Qed.

Lemma push_stream_card_click_during_run_witness :
  let v := Static.selectAll_click (static_loaded three_items) in
  let mid := Static.deliver_all [ Static.Message (event "downloading" "a") ]
               (Static.startDownload ["a"] v) in
  disabled (el (Static.page (snd mid)) downloadSelectedBtn) = true
  ∧ disabled
      (el (Static.page (Static.card_click 1 false (snd mid)))
          downloadSelectedBtn) = false.
Proof.
  assert (Forall (λ d, closing d = false)
            [ Static.Message (event "downloading" "a") ]) as Hds
    by (repeat constructor).
  pose proof (push_stream_card_click_during_run ["a"] _
                (Static.selectAll_click (static_loaded three_items))
                1 (set_card_classList {[ "video-card" ]}
                     (new_card (item "b" "B")))
                Hds) as H.
  cbv zeta in H.
  assert (cards
            (Static.page
               (snd (Static.deliver_all
                       [ Static.Message (event "downloading" "a") ]
                       (Static.startDownload ["a"]
                          (Static.selectAll_click (static_loaded three_items))))))
          !! 1
          = Some (set_card_classList {[ "video-card" ]}
                    (new_card (item "b" "B")))) as Hi.
  { reflexivity. }
  destruct (H Hi) as (_ & H2 & _ & _ & H5 & _).
  cbv zeta. split; [exact H2 | exact H5].
Defined.

(** ** Escaping loses nothing *)

(** X21.  Two texts with the same escaped form are the same text, for
    [escapeHtml] and for [escapeAttr]: reading the escaped form back gives
    the text, so nothing of an item's title, uploader or thumbnail address is
    lost or merged when it is put into the markup of a card. *)
Theorem escaping_loses_nothing :
  ∀ (a b : string),
    escapeHtml a = escapeHtml b ∨ escapeAttr a = escapeAttr b → a = b.
Proof.
  intros a b [H | H].
  - pose proof (read_escapeHtml a reader0 eq_refl eq_refl) as Ha.
    pose proof (read_escapeHtml b reader0 eq_refl eq_refl) as Hb.
    rewrite H, Hb in Ha. by injection Ha.
  - set (r := {| r_mode := AttrDQ; r_ref := None; r_text := ""; r_value := "";
                 r_values := []; r_nodes := [] |}).
    pose proof (read_escapeAttr a r eq_refl eq_refl) as Ha.
    pose proof (read_escapeAttr b r eq_refl eq_refl) as Hb.
    rewrite H, Hb in Ha. by injection Ha.
Qed.

Lemma escaping_loses_nothing_witness :
  escapeHtml "Tom & Jerry <live>" = "Tom &amp; Jerry &lt;live&gt;"
  ∧ "Tom & Jerry <live>" = "Tom & Jerry <live>".
Proof.
  split; [reflexivity |].
  apply (escaping_loses_nothing "Tom & Jerry <live>" "Tom & Jerry <live>").
  left. reflexivity.
Defined.
